(** * globe-weather: the resolution pipeline of [app.py]

    A shallow embedding of the weather / geocoding / timezone resolution
    code of [src/app.py] and of the ambient-sound classifier, with the
    properties of the specification stated against it.

    Layout:
    - [Py]: the fragment of Python's built-in behaviour the code relies on
      (truthiness, [dict.get], [int()], [str()], [str.lower], [str.split],
      ...), over a type [value] of JSON-like Python values;
    - [Net]: HTTP requests, responses and the trace of requests issued;
    - [App]: the functions of [app.py], one definition per function or
      per guarded block;
    - [Host]: the sound endpoints and the clean-up of old files, with the
      calls they make on the host;
    - [Spec]: the vocabulary of the specification and the scenarios used
      as concrete inputs;
    - [Shapes]: the vocabulary of the further properties;
    - the theorems, one module per component.

    Modelling conventions.
    - Strings are byte strings (UTF-8).  [str.lower], [str.strip],
      [str.split] and [int()] are modelled on their ASCII behaviour: bytes
      above 127 are neither letters nor white space.  A property that
      depends on them beyond ASCII names, as a hypothesis, the inputs on
      which the model is exact: [Spec.ascii_blanks] (no white space beyond
      ASCII), [Spec.ascii_case] (none of the two characters that
      [str.lower] turns into ASCII letters), [Spec.plain] (ASCII texts of
      at most 4300 characters, integers of at most 4300 digits).
    - CPython 3.11 refuses to write an integer of more than 4300 digits as
      text.  [Py.str_checked] is [str()] with that exception, and
      [App._get_weather_sound_type_checked] is the classifier with it, the
      one exception that can leave the function.
    - A Python [float] is represented by what the code can observe of it
      (record [pyfloat]); its arithmetic is outside the model.
    - An exception is the constructor [Raised]; every [try/except Exception]
      of the source is a [match] on it. *)

From Stdlib Require Import ZArith List Bool String Ascii Lia DecimalString.
Import ListNotations.

Local Open Scope string_scope.
Local Open Scope Z_scope.

(* ================================================================== *)
(** * Python values and built-ins *)
(* ================================================================== *)

Module Py.

(** ** Exceptions *)

Inductive result (A : Type) : Type :=
| Ok (a : A)
| Raised.
Arguments Ok {A} a.
Arguments Raised {A}.

Definition bind {A B : Type} (m : result A) (k : A -> result B) : result B :=
  match m with
  | Ok a => k a
  | Raised => Raised
  end.

Notation "x <- m ;; k" := (bind m (fun x => k))
  (at level 61, m at next level, right associativity).

(** ** Characters and strings *)

Definition code (c : ascii) : N := N_of_ascii c.

(** [str.isspace] on ASCII: TAB..CR, FS..US and the space. *)
Definition is_space (c : ascii) : bool :=
  let n := code c in
  (((9 <=? n) && (n <=? 13)) || ((28 <=? n) && (n <=? 31)) || (n =? 32))%N.

(** White space as [int()] skips it around a literal: TAB..CR and space. *)
Definition is_c_space (c : ascii) : bool :=
  let n := code c in
  (((9 <=? n) && (n <=? 13)) || (n =? 32))%N.

Definition lower_char (c : ascii) : ascii :=
  let n := code c in
  if ((65 <=? n) && (n <=? 90))%N then ascii_of_N (n + 32) else c.

(** [s.lower()] *)
Fixpoint lower (s : string) : string :=
  match s with
  | EmptyString => EmptyString
  | String c s' => String (lower_char c) (lower s')
  end.

(** [needle in hay] *)
Fixpoint contains (needle hay : string) : bool :=
  if prefix needle hay then true
  else match hay with
       | EmptyString => false
       | String _ hay' => contains needle hay'
       end.

Fixpoint lstrip_by (sp : ascii -> bool) (s : string) : string :=
  match s with
  | EmptyString => EmptyString
  | String c s' => if sp c then lstrip_by sp s' else s
  end.

Fixpoint rstrip_by (sp : ascii -> bool) (s : string) : string :=
  match s with
  | EmptyString => EmptyString
  | String c s' =>
      match rstrip_by sp s' with
      | EmptyString => if sp c then EmptyString else String c EmptyString
      | r => String c r
      end
  end.

(** [s.strip()] *)
Definition strip (s : string) : string := rstrip_by is_space (lstrip_by is_space s).

Fixpoint split_from (s : string) (cur : option string) : list string :=
  match s with
  | EmptyString => match cur with Some w => [w] | None => [] end
  | String c s' =>
      if is_space c
      then match cur with
           | Some w => w :: split_from s' None
           | None => split_from s' None
           end
      else split_from s' (Some (match cur with
                                | Some w => w ++ String c EmptyString
                                | None => String c EmptyString
                                end))
  end.

(** [s.split()]: the maximal runs of non-blank characters. *)
Definition split (s : string) : list string := split_from s None.

Fixpoint split_on_from (sep : ascii) (s : string) (cur : string) : list string :=
  match s with
  | EmptyString => [cur]
  | String c s' =>
      if Ascii.eqb c sep then cur :: split_on_from sep s' EmptyString
      else split_on_from sep s' (cur ++ String c EmptyString)
  end.

(** [s.split(",")] *)
Definition split_on (sep : ascii) (s : string) : list string :=
  split_on_from sep s EmptyString.

(** [sep.join(parts)] on strings *)
Definition join (sep : string) (parts : list string) : string :=
  String.concat sep parts.

(** [s.endswith(suffix)]: some tail of [s] is [suffix]. *)
Fixpoint endswith (s suffix : string) : bool :=
  if String.eqb s suffix then true
  else match s with
       | EmptyString => false
       | String _ s' => endswith s' suffix
       end.

(** [dict.fromkeys(parts)] on strings, read back as a list: the first
    occurrence of each string, in order. *)
Fixpoint unique_from (seen : list string) (l : list string) : list string :=
  match l with
  | [] => []
  | s :: l' =>
      if existsb (String.eqb s) seen then unique_from seen l'
      else s :: unique_from (s :: seen) l'
  end.

Definition unique (l : list string) : list string := unique_from [] l.

(** ** Integers and their literals *)

(** [str(n)] for an [int] *)
Definition str_of_int (z : Z) : string := NilZero.string_of_int (Z.to_int z).

Definition digit_val (c : ascii) : option Z :=
  let n := code c in
  if ((48 <=? n) && (n <=? 57))%N then Some (Z.of_N (n - 48)) else None.

(** Decimal digits, with single underscores allowed between digits. *)
Fixpoint parse_digits (s : string) (acc : Z) (after_digit : bool) : result Z :=
  match s with
  | EmptyString => if after_digit then Ok acc else Raised
  | String c s' =>
      match digit_val c with
      | Some d => parse_digits s' (10 * acc + d) true
      | None =>
          if Ascii.eqb c "_" && after_digit then parse_digits s' acc false
          else Raised
      end
  end.

(** [int(s)] for a [str]: optional blanks, optional sign, digits, optional
    blanks; anything else is a [ValueError].  (The cap CPython 3.11 puts on
    the number of digits of a literal, 4300, is not modelled.) *)
Definition int_of_str (s : string) : result Z :=
  let body := rstrip_by is_c_space (lstrip_by is_c_space s) in
  match body with
  | String "-" ds => n <- parse_digits ds 0 false ;; Ok (- n)
  | String "+" ds => parse_digits ds 0 false
  | ds => parse_digits ds 0 false
  end.

(** ** Values *)

(** What the code can observe of a [float]: its truth value, [int(x)]
    ([None] for nan and the infinities), [str(x)] and [f"{x:.6f}"]. *)
Record pyfloat : Type := mkFloat {
  float_bool : bool;
  float_int : option Z;
  float_str : string;
  float_fixed6 : string
}.

#[warnings="-register-all"] Inductive value : Type :=
| VNone
| VBool (b : bool)
| VInt (z : Z)
| VFloat (f : pyfloat)
| VStr (s : string)
| VList (l : list value)
| VDict (d : list (string * value)).

(** [bool(v)] *)
Definition truthy (v : value) : bool :=
  match v with
  | VNone => false
  | VBool b => b
  | VInt z => negb (z =? 0)
  | VFloat f => float_bool f
  | VStr s => negb (String.eqb s "")
  | VList l => match l with [] => false | _ => true end
  | VDict d => match d with [] => false | _ => true end
  end.

(** [a or b] *)
Definition por (a b : value) : value := if truthy a then a else b.

Definition is_none (v : value) : bool :=
  match v with VNone => true | _ => false end.

Fixpoint lookup (d : list (string * value)) (k : string) : option value :=
  match d with
  | [] => None
  | (k', v) :: d' => if String.eqb k k' then Some v else lookup d' k
  end.

(** [k in d] for a dict [d] *)
Definition has_key (d : list (string * value)) (k : string) : bool :=
  match lookup d k with Some _ => true | None => false end.

(** [v.get(k, default)]: an [AttributeError] unless [v] is a dict. *)
Definition get_or (v : value) (k : string) (default : value) : result value :=
  match v with
  | VDict d => Ok (match lookup d k with Some x => x | None => default end)
  | _ => Raised
  end.

(** [v.get(k)] *)
Definition get (v : value) (k : string) : result value := get_or v k VNone.

(** [v[0]]: the first element of a non-empty list, the first character of
    a non-empty string; an [IndexError], [KeyError] or [TypeError]
    otherwise (the keys of a JSON object are strings, never [0]). *)
Definition item0 (v : value) : result value :=
  match v with
  | VList (x :: _) => Ok x
  | VStr (String c _) => Ok (VStr (String c EmptyString))
  | _ => Raised
  end.

(** [int(v)] *)
Definition int (v : value) : result Z :=
  match v with
  | VBool b => Ok (if b then 1 else 0)
  | VInt z => Ok z
  | VFloat f => match float_int f with Some z => Ok z | None => Raised end
  | VStr s => int_of_str s
  | VNone | VList _ | VDict _ => Raised
  end.

(** ** [repr] and [str] *)

Definition quote1 : ascii := "'"%char.
Definition quote2 : ascii := ascii_of_N 34.
Definition backslash : ascii := ascii_of_N 92.

Definition hex_digit (n : N) : ascii :=
  if (n <? 10)%N then ascii_of_N (48 + n) else ascii_of_N (87 + n).

Definition repr_char (q : ascii) (c : ascii) : string :=
  let n := code c in
  if Ascii.eqb c q || Ascii.eqb c backslash then String backslash (String c EmptyString)
  else if (n =? 9)%N then String backslash "t"
  else if (n =? 10)%N then String backslash "n"
  else if (n =? 13)%N then String backslash "r"
  else if ((n <? 32) || (n =? 127))%N
       then String backslash
              (String "x" (String (hex_digit (n / 16)) (String (hex_digit (n mod 16)) EmptyString)))
  else String c EmptyString.

Fixpoint repr_chars (q : ascii) (s : string) : string :=
  match s with
  | EmptyString => EmptyString
  | String c s' => repr_char q c ++ repr_chars q s'
  end.

(** [repr(s)] for a [str]: single quotes unless the text has a single
    quote and no double quote. *)
Definition repr_str (s : string) : string :=
  let q := if contains (String quote1 EmptyString) s
              && negb (contains (String quote2 EmptyString) s)
           then quote2 else quote1 in
  String q (repr_chars q s ++ String q EmptyString).

Fixpoint repr (v : value) : string :=
  match v with
  | VNone => "None"
  | VBool true => "True"
  | VBool false => "False"
  | VInt z => str_of_int z
  | VFloat f => float_str f
  | VStr s => repr_str s
  | VList l => "[" ++ join ", " (map repr l) ++ "]"
  | VDict d =>
      "{" ++ join ", " (map (fun kv => repr_str (fst kv) ++ ": " ++ repr (snd kv)) d) ++ "}"
  end.

(** [str(v)] *)
Definition str (v : value) : string :=
  match v with
  | VStr s => s
  | _ => repr v
  end.

(** ** The limit on the text of an integer *)

(** CPython 3.11 refuses to write an [int] of more than 4300 digits as
    text: [str], [repr] and the f-strings raise a [ValueError] on it, also
    when it sits in a list or in a dict. *)
Definition printable_int (z : Z) : bool := Z.abs z <? 10 ^ 4300.

Fixpoint printable (v : value) : bool :=
  match v with
  | VInt z => printable_int z
  | VList l => forallb printable l
  | VDict d => forallb (fun kv => printable (snd kv)) d
  | VNone | VBool _ | VFloat _ | VStr _ => true
  end.

(** [str(v)] with its exception; [str] above is the text when there is
    one. *)
Definition str_checked (v : value) : result string :=
  if printable v then Ok (str v) else Raised.

End Py.

(* ================================================================== *)
(** * The network *)
(* ================================================================== *)

Module Net.
Import Py.

(** The endpoints [app.py] calls with [requests.get], with the parameters
    the code interpolates into the URL. *)
Inductive request : Type :=
| OpenWeatherCurrent (lat lon : value)   (* api.openweathermap.org/data/2.5/weather *)
| OpenMeteoForecast (lat lon : value)    (* api.open-meteo.com/v1/forecast *)
| NominatimReverse (lat lon : value)     (* nominatim .../reverse, countrycodes=in *)
| OpenMeteoReverse (lat lon : value)     (* geocoding-api.open-meteo.com/v1/reverse *)
| OpenMeteoTimezone (lat lon : value)    (* api.open-meteo.com/v1/timezone *)
| NominatimSearchIndia (q : string)      (* nominatim .../search, countrycodes=in *)
| OpenMeteoSearch (q : string)           (* geocoding-api.open-meteo.com/v1/search *)
| NominatimSearch (q : string).          (* nominatim .../search, no country filter *)

(** What [requests.get] does: it raises (time-out, connection error), or
    returns a response with its [ok] flag and the outcome of [json()]. *)
Inductive reply : Type :=
| NoReply
| Reply (ok : bool) (json : result value).

Definition network : Type := request -> reply.

(** Computations that issue requests: the outcome and the requests issued,
    oldest first. *)
Definition io (A : Type) : Type := (result A * list request)%type.

Definition ret {A : Type} (a : A) : io A := (Ok a, []).

Definition lift {A : Type} (r : result A) : io A := (r, []).

Definition iobind {A B : Type} (m : io A) (k : A -> io B) : io B :=
  match m with
  | (Ok a, t) => let (r, t') := k a in (r, (t ++ t')%list)
  | (Raised, t) => (Raised, t)
  end.

(** [try: m  except Exception: handler] *)
Definition try_except {A : Type} (m : io A) (handler : io A) : io A :=
  match m with
  | (Ok a, t) => (Ok a, t)
  | (Raised, t) => let (r, t') := handler in (r, (t ++ t')%list)
  end.

Definition outcome {A : Type} (m : io A) : result A := fst m.
Definition trace {A : Type} (m : io A) : list request := snd m.

(** [requests.get(url)]: the response as the pair of [r.ok] and [r.json()]. *)
Definition http_get (net : network) (rq : request) : io (bool * result value) :=
  match net rq with
  | NoReply => (Raised, [rq])
  | Reply ok body => (Ok (ok, body), [rq])
  end.

Notation "x <-- m ;; k" := (iobind m (fun x => k))
  (at level 61, m at next level, right associativity).
Notation "' pat <-- m ;; k" := (iobind m (fun x => match x with pat => k end))
  (at level 61, pat pattern, m at next level, right associativity).

End Net.

(* ================================================================== *)
(** * The functions of [app.py] *)
(* ================================================================== *)

Module App.
Import Py Net.

(** ** [_get_weather_sound_type] (lines 732-808) *)

(** [weather.get("description") or weather.get("weather") or ""] *)
Definition description_of (weather : value) : result value :=
  d <- get weather "description" ;;
  w <- get weather "weather" ;;
  Ok (por (por d w) (VStr "")).

(** Lines 739-756: the field a dict observation is classified by. *)
Definition unpack (weather : value) : value :=
  match weather with
  | VDict d =>
      let attempt :=
        if has_key d "id" then
          match (i <- get weather "id" ;; int i) with
          | Ok n => Ok (VInt n)
          | Raised => description_of weather
          end
        else if has_key d "weather_code" || has_key d "code" then
          match (c <- get weather "weather_code" ;;
                 c' <- get weather "code" ;;
                 int (por c c')) with
          | Ok n => Ok (VInt n)
          | Raised => description_of weather
          end
        else description_of weather in
      match attempt with
      | Ok v => v
      | Raised => VStr (str weather)
      end
  | _ => weather
  end.

Definition between (lo code hi : Z) : bool := (lo <=? code) && (code <=? hi).

(** Lines 761-781: the range tables of the two numeric schemes. *)
Definition numeric_class (code : Z) : option string :=
  if between 200 code 232 || between 95 code 99 then Some "storm"
  else if between 300 code 321 || between 51 code 57 then Some "rain"
  else if between 500 code 531 || between 61 code 67 || between 80 code 82 then Some "rain"
  else if between 600 code 622 || between 71 code 77 || between 85 code 86 then Some "snow"
  else if between 701 code 762 || (code =? 45) || (code =? 48) then Some "fog"
  else if (code =? 0) || (code =? 800) then Some "sunny"
  else if between 801 code 804 || between 1 code 3 then Some "cloudy"
  else None.

(** Lines 791-808: the keyword checks, in priority order. *)
Definition keyword_class (w : string) : string :=
  if contains "thunder" w || contains "storm" w || contains "tornado" w then "storm"
  else if contains "hail" w then "storm"
  else if contains "rain" w || contains "drizzle" w || contains "shower" w
          || contains "precipitation" w then "rain"
  else if contains "snow" w || contains "sleet" w || contains "blizzard" w then "snow"
  else if contains "fog" w || contains "mist" w || contains "haze" w
          || contains "smoke" w || contains "dust" w then "fog"
  else if contains "wind" w || contains "breezy" w || contains "gust" w then "wind"
  else if contains "clear" w || contains "sunny" w then "sunny"
  else if contains "cloud" w || contains "overcast" w || contains "broken" w
          || contains "scattered" w then "cloudy"
  else "ambient".

(** Lines 786-808: the textual path. *)
Definition textual_class (weather : value) : string :=
  let w := lower (str weather) in
  if String.eqb (strip w) "" then "ambient" else keyword_class w.

Definition _get_weather_sound_type (weather : value) : string :=
  if is_none weather then "ambient"
  else
    let weather := unpack weather in
    match int weather with
    | Ok code =>
        match numeric_class code with
        | Some s => s
        | None => textual_class weather
        end
    | Raised => textual_class weather
    end.

(** The function with the one exception that can leave it: [str(weather)]
    at line 786 stands outside every [try], and raises on an integer of
    more than 4300 digits.  [_get_weather_sound_type] above is the class
    returned when nothing is raised. *)
Definition textual_class_checked (weather : value) : result string :=
  w <- str_checked weather ;;
  let w := lower w in
  Ok (if String.eqb (strip w) "" then "ambient" else keyword_class w).

Definition _get_weather_sound_type_checked (weather : value) : result string :=
  if is_none weather then Ok "ambient"
  else
    let weather := unpack weather in
    match int weather with
    | Ok code =>
        match numeric_class code with
        | Some s => Ok s
        | None => textual_class_checked weather
        end
    | Raised => textual_class_checked weather
    end.


(** ** [_omap_weather_code_desc] (lines 60-73) *)

Definition mapping : list (Z * string) :=
  [ (0, "clear sky"); (1, "mainly clear"); (2, "partly cloudy"); (3, "overcast");
    (45, "fog"); (48, "depositing rime fog");
    (51, "light drizzle"); (53, "moderate drizzle"); (55, "dense drizzle");
    (56, "light freezing drizzle"); (57, "dense freezing drizzle");
    (61, "slight rain"); (63, "moderate rain"); (65, "heavy rain");
    (66, "light freezing rain"); (67, "heavy freezing rain");
    (71, "slight snow"); (73, "moderate snow"); (75, "heavy snow"); (77, "snow grains");
    (80, "slight rain showers"); (81, "moderate rain showers");
    (82, "violent rain showers");
    (85, "slight snow showers"); (86, "heavy snow showers");
    (95, "thunderstorm"); (96, "thunderstorm with slight hail");
    (99, "thunderstorm with heavy hail") ].

Fixpoint mapping_get (m : list (Z * string)) (k : Z) (default : string) : string :=
  match m with
  | [] => default
  | (k', s) :: m' => if k =? k' then s else mapping_get m' k default
  end.

Definition _omap_weather_code_desc (code : value) : result string :=
  k <- (if is_none code then Ok (-1) else int code) ;;
  Ok (mapping_get mapping k "weather unavailable").

(** ** Label parts shared by the geocoding paths *)

(** An [if a.get(k1): parts.append(a.get(k1)) elif b.get(k2): ...] chain:
    the first truthy field, if any. *)
Fixpoint first_present (fields : list (value * string)) : result (list value) :=
  match fields with
  | [] => Ok []
  | (obj, k) :: rest =>
      v <- get obj k ;;
      if truthy v then Ok [v] else first_present rest
  end.

Fixpoint strings_of (parts : list value) : result (list string) :=
  match parts with
  | [] => Ok []
  | VStr s :: rest => ss <- strings_of rest ;; Ok (s :: ss)
  | _ :: rest => Raised
  end.

(** [", ".join(dict.fromkeys(parts))].  [dict.fromkeys] raises on a part
    that is not hashable and [str.join] on a key that is not a [str], and
    a string is equal to no value of another type: the expression has a
    value exactly when every part is a string. *)
Definition join_unique (parts : list value) : result string :=
  ss <- strings_of parts ;;
  Ok (join ", " (unique ss)).

(** [", ".join(dict.fromkeys(parts)[:3]) if parts else None] (line 161).
    Subscripting the dict [dict.fromkeys(parts)] with the slice [[:3]]
    raises ([TypeError]: unhashable slice; a [KeyError] from Python 3.12,
    where slices hash but are no key of the dict). *)
Definition sliced_label (parts : list value) : result value :=
  match parts with
  | [] => Ok VNone
  | _ :: _ => Raised
  end.

(** ** [float(n)] and [f"{x:.6f}"] *)

(** The integer [float(z)] is equal to: [z] rounded to 53 significant bits,
    ties to even; an [OverflowError] from [2^1024] on. *)
Definition float_of_int (z : Z) : result Z :=
  let a := Z.abs z in
  let e := Z.log2 a - 52 in
  if e <=? 0 then Ok z
  else
    let q := Z.shiftr a e in
    let r := a - Z.shiftl q e in
    let half := Z.shiftl 1 (e - 1) in
    let q' := if (half <? r) || ((half =? r) && Z.odd q) then q + 1 else q in
    let m := Z.shiftl q' e in
    if 2 ^ 1024 <=? m then Raised else Ok (Z.sgn z * m).

(** [f"{v:.6f}"] *)
Definition format_f6 (v : value) : result string :=
  match v with
  | VBool b => Ok (if b then "1.000000" else "0.000000")
  | VInt z => m <- float_of_int z ;; Ok (str_of_int m ++ ".000000")
  | VFloat f => Ok (float_fixed6 f)
  | VNone | VStr _ | VList _ | VDict _ => Raised
  end.

(** ** Records returned to the caller *)

(** What [datetime.now(tz).isoformat()] shows: the current instant in a
    named zone, or at a fixed offset from UTC.  (The clock itself is not
    modelled.) *)
Inductive clock_reading : Type :=
| InZone (tzname : string)
| AtOffset (seconds : Z).

Record tz_info : Type := mkTz {
  timezone : value;
  local_time : option clock_reading;
  utc_offset_seconds : value
}.

Record weather_record : Type := mkWeather {
  name : value;
  coord : value;
  weather : value;
  temp_c : value;
  humidity : value;
  wind_speed : value;
  country : value;
  debug_source : string;
  debug_original_name : option value;   (* [None]: the key is absent *)
  debug_search_name : option value;
  debug_coordinates : option string;
  tz : tz_info                          (* the three keys of [out.update(tz_info)] *)
}.

(** [out.update(tz_info)] *)
Definition update_tz (out : weather_record) (info : tz_info) : weather_record :=
  {| name := name out; coord := coord out; weather := weather out;
     temp_c := temp_c out; humidity := humidity out;
     wind_speed := wind_speed out; country := country out;
     debug_source := debug_source out;
     debug_original_name := debug_original_name out;
     debug_search_name := debug_search_name out;
     debug_coordinates := debug_coordinates out;
     tz := info |}.

Inductive weather_response : Type :=
| Weather (out : weather_record)
| WeatherError (status : Z) (error : string).

(** The [+HH:MM[:SS]] suffix [isoformat()] prints for a fixed offset. *)
Definition two_digits (n : Z) : string :=
  if n <? 10 then "0" ++ str_of_int n else str_of_int n.

Definition offset_suffix (seconds : Z) : string :=
  let a := Z.abs seconds in
  let hh := a / 3600 in
  let mm := (a mod 3600) / 60 in
  let ss := a mod 60 in
  (if seconds <? 0 then "-" else "+") ++ two_digits hh ++ ":" ++ two_digits mm
  ++ (if ss =? 0 then "" else ":" ++ two_digits ss).

Section Resolution.

(** The providers, the time-zone database [ZoneInfo] reads, and the
    credential read from the environment at start-up. *)
Variable net : network.
Variable tzdb : string -> bool.
Variable OPENWEATHER_API_KEY : string.

(** ** [_open_meteo_fallback] (lines 76-181) *)

(** Lines 93-135, the body of the [try]: name and country from Nominatim.
    [None]: the response was not [ok], nothing is assigned. *)
Definition nominatim_reverse_name (lat lon : value) : io (option (value * value)) :=
  '(ok, body) <-- http_get net (NominatimReverse lat lon) ;;
  if ok then
    lift (nj <- body ;;
          addr <- match nj with
                  | VDict _ => get_or nj "address" (VDict [])
                  | _ => Ok (VDict [])
                  end ;;
          local <- first_present [(addr, "suburb"); (addr, "neighbourhood");
                                  (addr, "quarter"); (addr, "residential");
                                  (nj, "name")] ;;
          city <- first_present [(addr, "city"); (addr, "town");
                                 (addr, "municipality")] ;;
          state <- get addr "state" ;;
          let name_parts := (local ++ city)%list in
          let name_parts :=
            if (Nat.ltb (List.length name_parts) 2) && truthy state
            then (name_parts ++ [state])%list else name_parts in
          name <- match name_parts with
                  | [] => Ok VNone
                  | _ => s <- join_unique name_parts ;; Ok (VStr s)
                  end ;;
          cc <- get addr "country_code" ;;
          c <- get addr "country" ;;
          Ok (Some (name, por cc c)))
  else ret None.

(** Lines 139-165, the body of the [try]: name and country from the
    Open-Meteo reverse endpoint.  [None]: nothing is assigned. *)
Definition open_meteo_reverse_name (lat lon : value) : io (option (value * value)) :=
  '(ok, body) <-- http_get net (OpenMeteoReverse lat lon) ;;
  if ok then
    lift (gj <- body ;;
          results <- get gj "results" ;;
          if truthy results then
            first <- item0 results ;;
            n <- get first "name" ;;
            a3 <- get first "admin3" ;;
            a2 <- get first "admin2" ;;
            a1 <- get first "admin1" ;;
            let parts := filter truthy [n; a3; a2; a1] in
            lbl <- sliced_label parts ;;
            cc <- get first "country_code" ;;
            c <- get first "country" ;;
            Ok (Some (lbl, por cc c))
          else Ok None)
  else ret None.

Definition assigned (r : option (value * value)) (old : value * value) : value * value :=
  match r with
  | Some nc => nc
  | None => old
  end.

Definition _open_meteo_fallback (lat lon : value) : io weather_record :=
  '(ok, body) <-- http_get net (OpenMeteoForecast lat lon) ;;
  _ <-- lift (if ok then Ok tt else Raised) ;;   (* [wx.raise_for_status()] *)
  cur <-- lift (wj <- body ;; get_or (por wj (VDict [])) "current" (VDict [])) ;;
  let none := (VNone, VNone) in
  nc <-- try_except
           (r <-- nominatim_reverse_name lat lon ;; ret (assigned r none))
           (ret none) ;;
  nc <-- (if negb (truthy (fst nc))
          then try_except
                 (r <-- open_meteo_reverse_name lat lon ;; ret (assigned r nc))
                 (ret nc)
          else ret nc) ;;
  lift (code <- get cur "weather_code" ;;
        desc <- _omap_weather_code_desc code ;;
        temp <- get cur "temperature_2m" ;;
        hum <- get cur "relative_humidity_2m" ;;
        wind <- get cur "wind_speed_10m" ;;
        flat <- format_f6 lat ;;
        flon <- format_f6 lon ;;
        Ok {| name := fst nc;
              coord := VDict [("lat", lat); ("lon", lon)];
              weather := VStr desc;
              temp_c := temp;
              humidity := hum;
              wind_speed := wind;
              country := snd nc;
              debug_source := "";        (* set by the caller, line 298 *)
              debug_original_name := None;
              debug_search_name := None;
              debug_coordinates := Some ("lat=" ++ flat ++ ", lon=" ++ flon);
              tz := mkTz VNone None VNone |}).  (* keys added by the caller *)

(** ** [_get_timezone_and_localtime] (lines 184-232) *)

(** [timezone(timedelta(seconds=int(v)))]: the offset has to lie strictly
    between -24h and +24h. *)
Definition fixed_offset (v : value) : result Z :=
  n <- int v ;;
  if (-86400 <? n) && (n <? 86400) then Ok n else Raised.

(** [ZoneInfo(tzname)]: a key of the time-zone database. *)
Definition zone_info (tzname : value) : result string :=
  match tzname with
  | VStr s => if tzdb s then Ok s else Raised
  | _ => Raised
  end.

(** Lines 193-217, the body of the outer [try]; [None]: no [return] taken. *)
Definition provider_timezone (lat lon : value) : io (option tz_info) :=
  '(ok, body) <-- http_get net (OpenMeteoTimezone lat lon) ;;
  if ok then
    lift (j0 <- body ;;
          let j := por j0 (VDict []) in
          tzname <- get j "timezone" ;;
          utc_off <- get j "utc_offset_seconds" ;;
          let by_name :=
            if truthy tzname then
              match zone_info tzname with
              | Ok zone => Some (mkTz tzname (Some (InZone zone)) utc_off)
              | Raised => None     (* [except Exception: pass] *)
              end
            else None in
          match by_name with
          | Some info => Ok (Some info)
          | None =>
              if negb (is_none utc_off) then
                n <- fixed_offset utc_off ;;
                Ok (Some (mkTz VNone (Some (AtOffset n)) (VInt n)))
              else Ok None
          end)
  else ret None.

Definition no_timezone : tz_info := mkTz VNone None VNone.

Definition _get_timezone_and_localtime
    (lat lon : value) (fallback_offset_seconds : value) : io tz_info :=
  found <-- try_except (provider_timezone lat lon) (ret None) ;;
  match found with
  | Some info => ret info
  | None =>
      if negb (is_none fallback_offset_seconds) then
        match fixed_offset fallback_offset_seconds with
        | Ok n => ret (mkTz VNone (Some (AtOffset n)) (VInt n))
        | Raised => ret no_timezone
        end
      else ret no_timezone
  end.

(** ** [api_weather] (lines 235-312) *)

(** [len(q.split()) > len(name.split())] *)
Definition more_tokens (q : string) (name : value) : result bool :=
  match name with
  | VStr c => Ok (Nat.ltb (List.length (split c)) (List.length (split q)))
  | _ => Raised       (* no [split] on a value that is not a [str] *)
  end.

(** Line 267: ["sector" in search_name.lower() or "," in search_name or
    len(search_name.split()) > len(weather_name.split())] *)
Definition prefers_search_name (search_name weather_name : value) : result bool :=
  match search_name with
  | VStr q =>
      if contains "sector" (lower q) then Ok true
      else if contains "," q then Ok true
      else more_tokens q weather_name
  | _ => Raised       (* no [lower] on a value that is not a [str] *)
  end.

(** Line 302: the same test, the token comparison guarded by
    [original_name and ...]. *)
Definition prefers_search_name_fallback (search_name original_name : value) : result bool :=
  match search_name with
  | VStr q =>
      if contains "sector" (lower q) then Ok true
      else if contains "," q then Ok true
      else if truthy original_name then more_tokens q original_name
      else Ok false
  | _ => Raised
  end.

(** Lines 261-270 *)
Definition final_name (search_name weather_name : value) : result value :=
  let final_name := if truthy search_name then search_name else weather_name in
  if truthy search_name && truthy weather_name then
    prefer <- prefers_search_name search_name weather_name ;;
    Ok (if prefer then search_name else weather_name)
  else Ok final_name.

(** Line 275: [payload.get("weather", [{}])[0].get("description")] *)
Definition first_description (payload : value) : result value :=
  wl <- get_or payload "weather" (VList [VDict []]) ;;
  w0 <- item0 wl ;;
  get w0 "description".

(** Lines 255-288, the body of the [try]; [None]: the response was not [ok]. *)
Definition openweather (lat lon search_name : value) : io (option weather_record) :=
  '(ok, body) <-- http_get net (OpenWeatherCurrent lat lon) ;;
  if ok then
    '(out, tz_offset) <-- lift (
        payload <- body ;;
        weather_name <- get payload "name" ;;
        shown <- final_name search_name weather_name ;;
        coord <- get payload "coord" ;;
        desc <- first_description payload ;;
        main <- get_or payload "main" (VDict []) ;;
        temp <- get main "temp" ;;
        hum <- get main "humidity" ;;
        wind <- get_or payload "wind" (VDict []) ;;
        speed <- get wind "speed" ;;
        sys <- get_or payload "sys" (VDict []) ;;
        ctry <- get sys "country" ;;
        tz_offset <- get payload "timezone" ;;
        Ok ({| name := shown;
               coord := coord;
               weather := desc;
               temp_c := temp;
               humidity := hum;
               wind_speed := speed;
               country := ctry;
               debug_source := "openweather";
               debug_original_name := Some weather_name;
               debug_search_name := Some search_name;
               debug_coordinates := None;
               tz := no_timezone |}, tz_offset)) ;;
    tz_info <-- _get_timezone_and_localtime lat lon tz_offset ;;
    ret (Some (update_tz out tz_info))
  else ret None.

(** Lines 297-310, the body of the [try]. *)
Definition open_meteo (lat lon search_name : value) : io weather_record :=
  out <-- _open_meteo_fallback lat lon ;;
  let original_name := name out in
  replace <-- lift (if truthy search_name
                    then prefers_search_name_fallback search_name original_name
                    else Ok false) ;;
  let out :=
    {| name := if replace then search_name else original_name;
       coord := coord out; weather := weather out;
       temp_c := temp_c out; humidity := humidity out;
       wind_speed := wind_speed out; country := country out;
       debug_source := "open-meteo";
       debug_original_name := if replace then Some original_name else None;
       debug_search_name := if replace then Some search_name else None;
       debug_coordinates := debug_coordinates out;
       tz := tz out |} in
  tz_info <-- _get_timezone_and_localtime lat lon VNone ;;
  ret (update_tz out tz_info).

Definition unavailable : weather_response :=
  WeatherError 502 "Weather service unavailable at the moment.".

(** The request body is the three fields read from it, [VNone] standing
    for a missing key. *)
Definition api_weather (lat lon search_name : value) : io weather_response :=
  if is_none lat || is_none lon then ret (WeatherError 400 "lat and lon required")
  else
    primary <-- (if negb (String.eqb OPENWEATHER_API_KEY "")
                 then try_except (openweather lat lon search_name) (ret None)
                 else ret None) ;;
    match primary with
    | Some out => ret (Weather out)
    | None =>
        try_except
          (out <-- open_meteo lat lon search_name ;; ret (Weather out))
          (ret unavailable)
    end.

(** ** [api_geocode] (lines 315-528) *)

(** The records returned by the geocoding endpoint.  The [lat] and [lon]
    keys are left out: they hold [float(...)] conversions of provider
    fields (lines 346-350, 371-375, 468-472), which are not modelled. *)
Record place : Type := mkPlace {
  place_name : value;
  place_country : value;
  place_source : string
}.

Inductive geocode_response : Type :=
| Found (out : place)
| Suggestions (suggestions : list place)
| GeocodeError (status : Z) (error : string).

Definition indian_terms : list string :=
  [ "sector"; "block"; "phase"; "colony"; "nagar"; "vihar"; "delhi";
    "gurgaon"; "gurugram"; "faridabad"; "noida"; "ghaziabad"; "haryana";
    "punjab"; "uttar pradesh"; "up"; "india" ].

(** Lines 327-331 *)
Definition is_indian_specific (q : string) : bool :=
  existsb (fun term => contains term (lower q)) indian_terms.

(** [x in parts], for the one use the code makes of it (lines 431, 446,
    515): a string is equal to the strings equal to it and to nothing else.
    For an [x] that is not a string the answer is immaterial: the label fails
    to join whether [x] is appended or was already among the parts. *)
Definition is_in (x : value) (parts : list value) : bool :=
  match x with
  | VStr s => existsb (fun p => match p with VStr t => String.eqb s t | _ => false end) parts
  | _ => false
  end.

(** [v[:n]]: a prefix of a list or of a string; a dict or a number cannot
    be sliced. *)
Fixpoint chars (s : string) : list value :=
  match s with
  | EmptyString => []
  | String c s' => VStr (String c EmptyString) :: chars s'
  end.

Definition items_upto (n : nat) (v : value) : result (list value) :=
  match v with
  | VList l => Ok (firstn n l)
  | VStr s => Ok (firstn n (chars s))
  | _ => Raised
  end.

Fixpoint for_each {A B : Type} (f : A -> result B) (l : list A) : result (list B) :=
  match l with
  | [] => Ok []
  | x :: l' => y <- f x ;; ys <- for_each f l' ;; Ok (y :: ys)
  end.

(** ["," in disp] *)
Definition has_comma (disp : value) : result bool :=
  match disp with
  | VStr s => Ok (contains "," s)
  | VList l => Ok (is_in (VStr ",") l)
  | VDict d => Ok (has_key d ",")
  | VNone | VBool _ | VInt _ | VFloat _ => Raised
  end.

(** [[p.strip() for p in disp.split(",")]] *)
Definition comma_parts (disp : value) : result (list string) :=
  match disp with
  | VStr s => Ok (map strip (split_on "," s))
  | _ => Raised
  end.

(** Lines 424-433, 439-448 and 508-517: the label of an Open-Meteo result. *)
Definition open_meteo_label (first : value) : result value :=
  n <- get first "name" ;;
  a3 <- get first "admin3" ;;
  a2 <- get first "admin2" ;;
  a1 <- get first "admin1" ;;
  let name_parts := if truthy n then [n] else [] in
  let name_parts :=
    if truthy a3 then (name_parts ++ [a3])%list
    else if truthy a2 then (name_parts ++ [a2])%list
    else name_parts in
  let name_parts :=
    if truthy a1 && negb (is_in a1 name_parts) then (name_parts ++ [a1])%list
    else name_parts in
  match name_parts with
  | [] => Ok n
  | _ => s <- join_unique name_parts ;; Ok (VStr s)
  end.

Definition open_meteo_place (source : string) (first : value) : result place :=
  label <- open_meteo_label first ;;
  cc <- get first "country_code" ;;
  c <- get first "country" ;;
  Ok (mkPlace label (por cc c) source).

(** Lines 345-367: one autocomplete suggestion from a Nominatim item. *)
Definition nominatim_suggestion (q : string) (item : value) : result place :=
  addr <- get_or item "address" (VDict []) ;;
  local <- first_present [(addr, "suburb"); (addr, "neighbourhood"); (item, "name")] ;;
  city <- first_present [(addr, "city"); (addr, "town")] ;;
  state <- get addr "state" ;;
  let parts := (local ++ city ++ (if truthy state then [state] else []))%list in
  joined <- join_unique (filter truthy parts) ;;
  disp <- get item "display_name" ;;
  let label := por (VStr joined) (por disp (VStr q)) in
  cc <- get addr "country_code" ;;
  c <- get addr "country" ;;
  Ok (mkPlace label (por cc c) "nominatim").

(** Lines 370-410: the single best Nominatim result. *)
Definition nominatim_place (q : string) (arr : value) : result place :=
  first <- item0 arr ;;
  addr <- get_or first "address" (VDict []) ;;
  local <- first_present [(addr, "suburb"); (addr, "neighbourhood");
                          (addr, "quarter"); (first, "name")] ;;
  city <- first_present [(addr, "city"); (addr, "town")] ;;
  state <- get addr "state" ;;
  let name_parts := (local ++ city)%list in
  let name_parts :=
    if truthy state && Nat.ltb (List.length name_parts) 3
    then (name_parts ++ [state])%list else name_parts in
  name_parts <-
    match name_parts with
    | [] =>
        d <- get first "display_name" ;;
        n <- get first "name" ;;
        let disp := por (por d n) (VStr q) in
        comma <- (if truthy disp then has_comma disp else Ok false) ;;
        if comma then
          parts <- comma_parts disp ;;
          Ok (map VStr (firstn 3 parts))
        else Ok []
    | _ => Ok name_parts
    end ;;
  final_name <-
    match name_parts with
    | [] => Ok q
    | _ => join_unique (filter truthy name_parts)
    end ;;
  cc <- get addr "country_code" ;;
  c <- get addr "country" ;;
  Ok (mkPlace (VStr final_name) (por cc c) "nominatim").

(** Lines 467-489: the first result of the unrestricted Nominatim search. *)
Definition nominatim_plain_place (q : string) (arr : value) : result place :=
  first <- item0 arr ;;
  d <- get first "display_name" ;;
  n <- get first "name" ;;
  let disp := por (por d n) (VStr q) in
  comma <- (if truthy disp then has_comma disp else Ok false) ;;
  disp <-
    (if comma then
       parts <- comma_parts disp ;;
       if contains "sector" (lower q) || contains "block" (lower q)
       then Ok (VStr (join ", " (firstn 4 parts)))
       else Ok (VStr (join ", " (firstn 3 parts)))
     else Ok disp) ;;
  a <- get first "address" ;;
  cc <- get (por a (VDict [])) "country_code" ;;
  c <- get (por a (VDict [])) "country" ;;
  Ok (mkPlace disp (por cc c) "nominatim").

(** Lines 332-410: the region-biased attempt.  [None]: no [return] taken. *)
Definition try_nominatim_india (q : string) (autocomplete : bool)
  : io (option geocode_response) :=
  '(ok, body) <-- http_get net (NominatimSearchIndia q) ;;
  if ok then
    lift (j <- body ;;
          let arr := por j (VList []) in
          if truthy arr then
            if autocomplete then
              items <- items_upto 8 arr ;;
              suggestions <- for_each (nominatim_suggestion q) items ;;
              Ok (Some (Suggestions suggestions))
            else
              out <- nominatim_place q arr ;;
              Ok (Some (Found out))
          else Ok None)
  else ret None.

(** [data.get("results") or []] of an [ok] response *)
Definition results_of (body : result value) : result value :=
  data <- body ;;
  res <- get data "results" ;;
  Ok (por res (VList [])).

(** Lines 412-456: the general-purpose attempt. *)
Definition try_open_meteo (q : string) (autocomplete : bool)
  : io (option geocode_response) :=
  '(ok, body) <-- http_get net (OpenMeteoSearch q) ;;
  if ok then
    lift (res <- results_of body ;;
          if truthy res then
            if autocomplete then
              items <- items_upto 8 res ;;
              suggestions <- for_each (open_meteo_place "open-meteo") items ;;
              Ok (Some (Suggestions suggestions))
            else
              first <- item0 res ;;
              out <- open_meteo_place "open-meteo" first ;;
              Ok (Some (Found out))
          else Ok None)
  else ret None.

(** Lines 459-489: Nominatim without the country restriction. *)
Definition try_nominatim_plain (q : string) : io (option geocode_response) :=
  '(ok, body) <-- http_get net (NominatimSearch q) ;;
  if ok then
    lift (j <- body ;;
          let arr := por j (VList []) in
          if truthy arr then
            out <- nominatim_plain_place q arr ;;
            Ok (Some (Found out))
          else Ok None)
  else ret None.

(** Lines 495-525: the loop over the suffixed queries. *)
Fixpoint try_retries (retries : list string) : io (option geocode_response) :=
  match retries with
  | [] => ret None
  | try_q :: rest =>
      '(ok, body) <-- http_get net (OpenMeteoSearch try_q) ;;
      if negb ok then try_retries rest
      else
        res <-- lift (results_of body) ;;
        if negb (truthy res) then try_retries rest
        else
          lift (first <- item0 res ;;
                out <- open_meteo_place "open-meteo-retry" first ;;
                Ok (Some (Found out)))
  end.

(** Sequencing of attempts: the next one runs when the previous one took
    no [return]. *)
Definition or_else (a b : io (option geocode_response)) : io (option geocode_response) :=
  r <-- a ;;
  match r with
  | Some resp => ret (Some resp)
  | None => b
  end.

(** Lines 325-526, the body of the [try]. *)
Definition geocode (q : string) (autocomplete : bool) : io geocode_response :=
  let indian := is_indian_specific q in
  r <-- or_else (if indian then try_nominatim_india q autocomplete else ret None)
       (or_else (try_open_meteo q autocomplete)
       (or_else (if negb indian then try_nominatim_plain q else ret None)
                (if negb indian && negb (String.eqb q "")
                    && negb (endswith (lower q) "india")
                 then try_retries [q ++ ", India"; q ++ ", Kupwara, India"]
                 else ret None))) ;;
  match r with
  | Some resp => ret resp
  | None => ret (GeocodeError 404 "No results")
  end.

(** The query string is its two parameters [q] and [autocomplete]
    ([None]: absent). *)
Definition api_geocode (q_arg autocomplete_arg : option string) : io geocode_response :=
  let q := strip (match q_arg with Some s => s | None => "" end) in
  let flag := lower (match autocomplete_arg with Some s => s | None => "0" end) in
  let autocomplete := existsb (String.eqb flag) ["1"; "true"; "yes"] in
  if String.eqb q "" then ret (GeocodeError 400 "Missing query parameter q")
  else try_except (geocode q autocomplete) (ret (GeocodeError 502 "Geocoding failed")).

End Resolution.

End App.

(* ================================================================== *)
(** * The sound endpoints and the clean-up of old files *)
(* ================================================================== *)

Module Host.
Import Py App.

(** ** [_cleanup_old_tts] (lines 18-36) *)

Section Cleanup.

(** [os.listdir(td)], and for a file of the directory whether
    [now - os.path.getmtime(path) > older_than_seconds] ([Raised]: the file
    cannot be examined). *)
Variable listdir : result (list string).
Variable expired : string -> result bool.

(** Lines 22-34: the files [os.remove] is called on, in order. *)
Fixpoint sweep (names : list string) : list string :=
  match names with
  | [] => []
  | fname :: rest =>
      if negb (endswith (lower fname) ".mp3") then sweep rest
      else if negb (prefix "tmp" fname) && negb (contains "tmp" fname) then sweep rest
      else match expired fname with
           | Ok true => fname :: sweep rest
           | Ok false | Raised => sweep rest
           end
  end.

Definition _cleanup_old_tts : list string :=
  match listdir with
  | Ok names => sweep names
  | Raised => []
  end.

End Cleanup.

(** ** The calls the endpoints make on the host *)

Inductive effect : Type :=
| Run (argv : list string)                   (* subprocess.run(argv, check=False) *)
| Popen (argv : list string)                 (* subprocess.Popen(argv, ...) *)
| MakeTemp                  (* tempfile.NamedTemporaryFile(delete=False, suffix=".mp3") *)
| Synthesize (text : value) (path : string)  (* gTTS(text).save(path) *)
| Remove (path : string)                     (* os.remove(path) *)
| DeleteLater (path : string) (delay : Z).   (* the thread of _schedule_delete, started *)

Definition eff (A : Type) : Type := (result A * list effect)%type.

Definition done {A : Type} (a : A) : eff A := (Ok a, []).

Definition of_result {A : Type} (r : result A) : eff A := (r, []).

Definition andthen {A B : Type} (m : eff A) (k : A -> eff B) : eff B :=
  match m with
  | (Ok a, t) => let (r, t') := k a in (r, (t ++ t')%list)
  | (Raised, t) => (Raised, t)
  end.

(** [try: m  except Exception: handler] *)
Definition guarded {A : Type} (m : eff A) (handler : eff A) : eff A :=
  match m with
  | (Ok a, t) => (Ok a, t)
  | (Raised, t) => let (r, t') := handler in (r, (t ++ t')%list)
  end.

Definition answer {A : Type} (m : eff A) : result A := fst m.
Definition effects {A : Type} (m : eff A) : list effect := snd m.

Notation "x <~ m ;; k" := (andthen m (fun x => k))
  (at level 61, m at next level, right associativity).

(** A call that returns nothing, or raises. *)
Definition act (e : effect) (returns : bool) : eff unit :=
  (if returns then Ok tt else Raised, [e]).

(** ** [api_ambient] (lines 611-729) *)

(** The process [Popen] starts, as seen half a second later: its pid,
    [poll()] ([None]: still running) and the decoded output of
    [communicate()]. *)
Record process : Type := mkProcess {
  pid : Z;
  poll : option Z;
  output : result (string * string)
}.

Inductive ambient_response : Type :=
| Stopped                                                      (* {"status": "stopped"} *)
| Playing (sound_type weather : string) (pid : Z) (command : string)
| AmbientError (status : Z) (error : string)
| AmbientFailure.                                  (* 500, {"error": str(e)} *)

Inductive player : Type :=
| Command (argv : list string)
| NoPlayer        (* the 415 answer of line 703 *)
| NoCommand.      (* [play_cmd] left at [None] *)

Definition preferred_exts : list string := [".wav"; ".mp3"].

Section Ambient.

(** The host: [float()] and the comparison of its results with an
    integer, [subprocess.run] (which returns, or raises), [subprocess.Popen],
    [os.path.exists] and [os.path.join] for a file of the ambient directory,
    [platform.system() == "Darwin"] and [which("mpg123")]. *)
Variable number : Type.
Variable to_float : value -> result number.
Variable exceeds : number -> Z -> bool.
Variable run_returns : list string -> bool.
Variable spawn : list string -> result process.
Variable file_exists : string -> bool.
Variable path_of : string -> string.
Variable is_mac : bool.
Variable has_mpg123 : bool.

Definition run (argv : list string) : eff unit :=
  (if run_returns argv then Ok tt else Raised, [Run argv]).

Definition popen (argv : list string) : eff process := (spawn argv, [Popen argv]).

(** Line 620: [(data.get("weather") or "").lower()] *)
Definition weather_condition (data : value) : result string :=
  w <- get data "weather" ;;
  match por w (VStr "") with
  | VStr s => Ok (lower s)
  | _ => Raised
  end.

(** Lines 623-630 *)
Definition read_intensity (data : value) : option number :=
  match (p <- get data "precip_mm" ;;
         if negb (is_none p) then x <- to_float p ;; Ok (Some x)
         else
           i <- get data "intensity" ;;
           if negb (is_none i) then x <- to_float i ;; Ok (Some x)
           else Ok None) with
  | Ok intensity => intensity
  | Raised => None
  end.

(** Lines 650-657 *)
Definition adjust (sound_type : string) (intensity : option number) : string :=
  match intensity with
  | None => sound_type
  | Some x =>
      if exceeds x 10 && String.eqb sound_type "rain" then "storm"
      else if exceeds x 2 && String.eqb sound_type "ambient" then "rain"
      else sound_type
  end.

(** Lines 669-678: the first candidate that exists, names first. *)
Fixpoint first_ext (name : string) (exts : list string) : option string :=
  match exts with
  | [] => None
  | ext :: rest => if file_exists (name ++ ext) then Some ext else first_ext name rest
  end.

Fixpoint select_audio (names : list string) : option (string * string) :=
  match names with
  | [] => None
  | name :: rest =>
      match first_ext name preferred_exts with
      | Some ext => Some (name, ext)
      | None => select_audio rest
      end
  end.

Definition loop (play path : string) : list string :=
  ["sh"; "-c"; "while true; do " ++ play ++ " '" ++ path ++ "'; sleep 0.25; done"].

(** Lines 691-703 *)
Definition play_cmd (path ext : string) : player :=
  if is_mac then Command (loop "afplay" path)
  else if String.eqb ext ".wav" then Command (loop "aplay -q" path)
  else if String.eqb ext ".mp3" then
    if has_mpg123 then Command (loop "mpg123 -q" path) else NoPlayer
  else NoCommand.

(** Lines 636-646 *)
Definition stop : eff ambient_response :=
  guarded
    (_ <~ run ["pkill"; "-f"; "static/audio/ambient"] ;;
     _ <~ run ["pkill"; "afplay"] ;;
     _ <~ run ["pkill"; "aplay"] ;;
     _ <~ run ["pkill"; "mpg123"] ;;
     done Stopped)
    (done AmbientFailure).

(** Lines 659-729 *)
Definition play (sound_type weather : string) : eff ambient_response :=
  guarded
    (match select_audio [sound_type; "ambient"] with
     | None =>
         done (AmbientError 404
                 ("No audio file found for '" ++ sound_type
                  ++ "'. Place files in static/audio/ambient."))
     | Some (name, ext) =>
         _ <~ run ["pkill"; "-f"; "ambient_weather"] ;;
         _ <~ run ["pkill"; "-f"; "static/audio/ambient"] ;;
         match play_cmd (path_of (name ++ ext)) ext with
         | NoPlayer =>
             done (AmbientError 415
                     "MP3 playback not available on platform. Install 'mpg123' or provide a WAV file.")
         | NoCommand => of_result Raised     (* [Popen(None)] *)
         | Command argv =>
             p <~ popen argv ;;
             match poll p with
             | Some _ =>
                 out <~ of_result (output p) ;;
                 done (AmbientError 500
                         ("Audio process failed: stdout=" ++ fst out
                          ++ ", stderr=" ++ snd out))
             | None => done (Playing sound_type weather (pid p) (join " " argv))
             end
         end
     end)
    (done AmbientFailure).

(** Line 634: [action == "stop"] *)
Definition is_stop (action : value) : bool :=
  match action with
  | VStr s => String.eqb s "stop"
  | _ => false
  end.

(** The JSON body is [data]; an exception that leaves the function is
    [Raised]. *)
Definition api_ambient (data : value) : eff ambient_response :=
  weather <~ of_result (weather_condition data) ;;
  action <~ of_result (get_or data "action" (VStr "play")) ;;
  let intensity := read_intensity data in
  if is_stop action then stop
  else
    let sound_type := adjust (_get_weather_sound_type (VStr weather)) intensity in
    play sound_type weather.

End Ambient.

(** ** [api_tts] (lines 531-608) *)

Inductive tts_response : Type :=
| TtsPlaying                          (* {"status": "playing", "engine": "gtts"} *)
| TtsError (status : Z) (error : string)
| TtsSynthesisFailed                  (* 500, "gTTS failed: " and the exception *)
| TtsFailure.                         (* 500, {"error": str(e)} *)

Section Tts.

(** The host: the temporary file created, whether [gTTS(text).save(path)],
    [os.remove], [subprocess.Popen] and [Thread.start] return or raise,
    [os.path.exists], [platform.system()] and [which("mpg123")]. *)
Variable make_temp : result string.
Variable synthesizes : value -> string -> bool.
Variable file_exists : string -> bool.
Variable remove_returns : string -> bool.
Variable spawn_returns : list string -> bool.
Variable thread_starts : bool.
Variable plat : string.
Variable has_mpg123 : bool.

(** Lines 554-558 and 597-601 *)
Definition discard (path : string) : eff unit :=
  guarded
    (if file_exists path then act (Remove path) (remove_returns path) else done tt)
    (done tt).

(** Lines 561-573 *)
Definition tts_play_cmd (tmp_mp3 : string) : list string :=
  if String.eqb plat "Darwin" then ["afplay"; tmp_mp3]
  else if String.eqb plat "Windows"
       then ["cmd"; "/c"; "start"; "/min"; "wmplayer"; tmp_mp3]
  else if has_mpg123 then ["mpg123"; tmp_mp3]
  else ["aplay"; tmp_mp3].

(** Lines 547-559: [true] when the speech was saved. *)
Definition synthesize (text : value) (tmp_mp3 : string) : eff bool :=
  guarded
    (_ <~ act (Synthesize text tmp_mp3) (synthesizes text tmp_mp3) ;; done true)
    (_ <~ discard tmp_mp3 ;; done false).

(** Lines 575-601.  The deletion is scheduled when the thread of
    [_schedule_delete] starts; when [Thread.start] raises (lines 592-595)
    nothing is scheduled and the exception is dropped. *)
Definition start_playback (tmp_mp3 : string) : eff unit :=
  guarded
    (_ <~ act (Popen (tts_play_cmd tmp_mp3)) (spawn_returns (tts_play_cmd tmp_mp3)) ;;
     if thread_starts then (Ok tt, [DeleteLater tmp_mp3 120]) else done tt)
    (discard tmp_mp3).

(** The JSON body is [data]; an exception that leaves the function is
    [Raised]. *)
Definition api_tts (data : value) : eff tts_response :=
  text <~ of_result (get_or data "text" (VStr "")) ;;
  if negb (truthy text) then done (TtsError 400 "text required")
  else
    guarded
      (_ <~ of_result (items_upto 50 text) ;;
       tmp_mp3 <~ (make_temp, [MakeTemp]) ;;
       saved <~ synthesize text tmp_mp3 ;;
       if negb saved then done TtsSynthesisFailed
       else
         _ <~ start_playback tmp_mp3 ;;
         done TtsPlaying)
      (done TtsFailure).

End Tts.

End Host.

(* ================================================================== *)
(** * Vocabulary of the properties *)
(* ================================================================== *)

Module Spec.
Import Py Net App.

(** ** Texts *)

Fixpoint all_chars (P : ascii -> bool) (s : string) : bool :=
  match s with
  | EmptyString => true
  | String c s' => P c && all_chars P s'
  end.

(** The characters of a decimal numeral: the digits and the minus sign. *)
Definition numeral_char (c : ascii) : bool :=
  let n := code c in
  (((48 <=? n) && (n <=? 57)) || (n =? 45))%N.

(** ** The inputs on which the built-ins of [Py] are CPython's

    [Py] follows [str.lower], [str.strip], [str.split] and [int()] on
    ASCII.  Beyond ASCII, [str] has more white space, [int()] more digits,
    and [str.lower] turns two characters into ASCII letters; and CPython
    3.11 refuses an integer literal of more than 4300 digits.  The
    predicates below name the inputs that stay clear of these. *)

Definition ascii_only (s : string) : bool :=
  all_chars (fun c => (code c <? 128)%N) s.

Definition utf8 (bytes : list Z) : string :=
  string_of_list_ascii (map (fun b => ascii_of_N (Z.to_N b)) bytes).

(** The white space of [str] beyond ASCII, in UTF-8: U+0085, U+00A0,
    U+1680, U+2000 to U+200A, U+2028, U+2029, U+202F, U+205F, U+3000. *)
Definition wide_spaces : list string :=
  [utf8 [194; 133]; utf8 [194; 160]; utf8 [225; 154; 128];
   utf8 [226; 128; 128]; utf8 [226; 128; 129]; utf8 [226; 128; 130];
   utf8 [226; 128; 131]; utf8 [226; 128; 132]; utf8 [226; 128; 133];
   utf8 [226; 128; 134]; utf8 [226; 128; 135]; utf8 [226; 128; 136];
   utf8 [226; 128; 137]; utf8 [226; 128; 138];
   utf8 [226; 128; 168]; utf8 [226; 128; 169]; utf8 [226; 128; 175];
   utf8 [226; 129; 159]; utf8 [227; 128; 128]].

(** A text whose white space is ASCII: [strip] and [split] are exact on
    it. *)
Definition ascii_blanks (s : string) : bool :=
  forallb (fun w => negb (contains w s)) wide_spaces.

(** The two characters beyond ASCII that [str.lower] turns into ASCII
    letters: U+0130 (to "i" and a combining dot) and U+212A (to "k"). *)
Definition lowered_to_ascii : list string := [utf8 [196; 176]; utf8 [226; 132; 170]].

(** A text with neither: an ASCII keyword is in its [str.lower] exactly
    when it is in its [lower]. *)
Definition ascii_case (s : string) : bool :=
  forallb (fun w => negb (contains w s)) lowered_to_ascii.

(** A query on which [strip], [lower] and the keyword tests are exact. *)
Definition plain_query (s : string) : bool := ascii_blanks s && ascii_case s.

(** A value on which [int()], [str()] and the text methods are exact:
    its texts are ASCII of at most 4300 characters and its integers have
    at most 4300 digits. *)
Definition plain_text (s : string) : bool :=
  ascii_only s && (String.length s <=? 4300)%nat.

Fixpoint plain (v : value) : bool :=
  match v with
  | VNone | VBool _ => true
  | VInt z => printable_int z
  | VFloat f => match float_int f with Some z => printable_int z | None => true end
  | VStr s => plain_text s
  | VList l => forallb plain l
  | VDict d => forallb (fun kv => plain_text (fst kv) && plain (snd kv)) d
  end.

(** The characters of an integer literal that [int()] accepts: the
    digits, the signs, the underscore and the blanks around it. *)
Definition literal_char (c : ascii) : bool :=
  let n := code c in
  (((48 <=? n) && (n <=? 57)) || (n =? 43) || (n =? 45) || (n =? 95))%N
  || is_c_space c.

(** ** WeatherClassifier *)

Definition classes : list string :=
  ["storm"; "rain"; "snow"; "fog"; "sunny"; "cloudy"; "wind"; "ambient"].

(** C9 as it is worded: a dict with no "id", "weather_code"
    or "description" key is classified "ambient". *)
Definition unrecognizable_as_worded : Prop :=
  forall d : list (string * value),
    has_key d "id" = false ->
    has_key d "weather_code" = false ->
    has_key d "description" = false ->
    _get_weather_sound_type (VDict d) = "ambient".

(** ** TimezoneResolver *)

(** The provider call failed entirely: no response, a response that is
    not [ok], or a body that is not JSON. *)
Definition call_failed (r : reply) : bool :=
  match r with
  | NoReply => true
  | Reply ok body => negb ok || match body with Ok _ => false | Raised => true end
  end.

(** The zone name and the offset a well-formed response carries. *)
Definition supplied (r : reply) : option (value * value) :=
  match r with
  | Reply true (Ok j) =>
      match get (por j (VDict [])) "timezone",
            get (por j (VDict [])) "utc_offset_seconds" with
      | Ok zone, Ok offset => Some (zone, offset)
      | _, _ => None
      end
  | _ => None
  end.

(** The offset the provider supplies is plain: a number, or the ASCII
    text of one, on which the model's [int()] is CPython's. *)
Definition plain_offset (r : reply) : bool :=
  match supplied r with
  | Some (_, offset) => plain offset
  | None => true
  end.

(** A zone name is usable when it names a zone of the database. *)
Definition usable_zone (tzdb : string -> bool) (zone : value) : bool :=
  match zone with
  | VStr z => negb (String.eqb z "") && tzdb z
  | _ => false
  end.

(** An offset is usable when it is an integer number of seconds strictly
    within a day of UTC. *)
Definition usable_offset (offset : value) : bool :=
  match offset with
  | VNone => false
  | _ => match int offset with
         | Ok n => (-86400 <? n) && (n <? 86400)
         | Raised => false
         end
  end.

(** The three tiers: the provider's zone name, the provider's offset, the
    caller's fallback offset. *)
Definition tier1 (tzdb : string -> bool) (r : reply) : bool :=
  match supplied r with Some (zone, _) => usable_zone tzdb zone | None => false end.

Definition tier2 (r : reply) : bool :=
  match supplied r with Some (_, offset) => usable_offset offset | None => false end.

Definition tier3 (fallback_offset_seconds : value) : bool :=
  usable_offset fallback_offset_seconds.

Definition all_null (info : tz_info) : Prop :=
  timezone info = VNone /\ local_time info = None /\ utc_offset_seconds info = VNone.

(** ** NameDisambiguator *)

(** The selection rule of the specification: the query name wins when it
    contains the locality keyword (whatever the case), or a comma, or has
    more blank-separated tokens than the canonical name. *)
Definition selects_query (query canonical : string) : bool :=
  contains "sector" (lower query)
  || contains "," query
  || Nat.ltb (List.length (split canonical)) (List.length (split query)).

Definition chosen (query canonical : string) : value :=
  VStr (if selects_query query canonical then query else canonical).

(** ** WeatherResolver *)

(** C1 as it is worded: with both coordinates present, the answer is a
    record with a weather description, or the service-unavailable error. *)
Definition description_or_error : Prop :=
  forall (net : network) (tzdb : string -> bool) (key : string)
         (lat lon search_name : value),
    is_none lat = false -> is_none lon = false ->
    match outcome (api_weather net tzdb key lat lon search_name) with
    | Ok (Weather out) => weather out <> VNone
    | Ok (WeatherError status _) => status = 502
    | Raised => False
    end.

(** ** Scenarios *)

Definition no_zones : string -> bool := fun _ => false.

(** The coordinates 28.4595, 77.0266 and 48.8566, 2.3522. *)
Definition gurugram_lat : value := VFloat (mkFloat true (Some 28) "28.4595" "28.459500").
Definition gurugram_lon : value := VFloat (mkFloat true (Some 77) "77.0266" "77.026600").
Definition paris_lat : value := VFloat (mkFloat true (Some 48) "48.8566" "48.856600").
Definition paris_lon : value := VFloat (mkFloat true (Some 2) "2.3522" "2.352200").

Definition forecast_body : value :=
  VDict [("current",
          VDict [("temperature_2m", VInt 31); ("relative_humidity_2m", VInt 40);
                 ("wind_speed_10m", VInt 7); ("weather_code", VInt 1)])].

Definition reverse_body (first : value) : value :=
  VDict [("results", VList [first])].

Definition gurugram_result : value :=
  VDict [("name", VStr "Gurugram"); ("admin1", VStr "Haryana");
         ("country_code", VStr "IN"); ("country", VStr "India")].

(** Nominatim is unreachable; Open-Meteo answers the forecast and the
    reverse lookup. *)
Definition nominatim_down (first : value) : network := fun rq =>
  match rq with
  | OpenMeteoForecast _ _ => Reply true (Ok forecast_body)
  | OpenMeteoReverse _ _ => Reply true (Ok (reverse_body first))
  | _ => NoReply
  end.

(** Nominatim answers the reverse lookup with a city. *)
Definition nominatim_up : network := fun rq =>
  match rq with
  | OpenMeteoForecast _ _ => Reply true (Ok forecast_body)
  | NominatimReverse _ _ =>
      Reply true (Ok (VDict [("name", VStr "Gurugram");
                             ("address", VDict [("city", VStr "Gurugram");
                                                ("state", VStr "Haryana");
                                                ("country_code", VStr "in")])]))
  | _ => NoReply
  end.

(** Only the forecast endpoint answers. *)
Definition forecast_only : network := fun rq =>
  match rq with
  | OpenMeteoForecast _ _ => Reply true (Ok forecast_body)
  | _ => NoReply
  end.

(** OpenWeather answers with the given payload; nothing else answers. *)
Definition openweather_only (payload : value) : network := fun rq =>
  match rq with
  | OpenWeatherCurrent _ _ => Reply true (Ok payload)
  | _ => NoReply
  end.

(** A payload whose weather entry carries no description. *)
Definition payload_without_description : value :=
  VDict [("name", VStr "Gurugram");
         ("weather", VList [VDict [("id", VInt 800); ("main", VStr "Clear")]]);
         ("main", VDict [("temp", VInt 31); ("humidity", VInt 40)])].

Definition gurugram_payload : value :=
  VDict [("name", VStr "Gurugram");
         ("weather", VList [VDict [("id", VInt 800); ("description", VStr "clear sky")]]);
         ("main", VDict [("temp", VInt 31); ("humidity", VInt 40)]);
         ("sys", VDict [("country", VStr "IN")]);
         ("timezone", VInt 19800)].

(** Every provider answers, with an empty JSON object. *)
Definition empty_answers : network := fun _ => Reply true (Ok (VDict [])).

(** ** GeocodeResolver *)

(** A search answered with zero results: a response that is not [ok], or
    an [ok] one whose result list is empty or missing. *)
Definition no_results (r : reply) : bool :=
  match r with
  | NoReply => false
  | Reply ok body =>
      negb ok || match results_of body with
                 | Ok res => negb (truthy res)
                 | Raised => false
                 end
  end.

Definition no_results_nominatim (r : reply) : bool :=
  match r with
  | NoReply => false
  | Reply ok body =>
      negb ok || match body with
                 | Ok j => negb (truthy (por j (VList [])))
                 | Raised => false
                 end
  end.

(** C2 as it is worded: when the direct attempts for "Kupwara" return
    zero results, the query "Kupwara, India" is attempted. *)
Definition kupwara_retry : Prop :=
  forall (net : network) (autocomplete : option string),
    no_results_nominatim (net (NominatimSearchIndia "Kupwara")) = true ->
    no_results (net (OpenMeteoSearch "Kupwara")) = true ->
    no_results_nominatim (net (NominatimSearch "Kupwara")) = true ->
    In (OpenMeteoSearch "Kupwara, India")
       (trace (api_geocode net (Some "Kupwara") autocomplete)).

End Spec.

(* ================================================================== *)
(** * Vocabulary of the further properties *)
(* ================================================================== *)

Module Shapes.
Import Py Net App Host Spec.

(** A list taken from another by leaving elements out, the order kept. *)
Inductive subseq {A : Type} : list A -> list A -> Prop :=
| subseq_nil (l : list A) : subseq [] l
| subseq_take (x : A) (l1 l2 : list A) : subseq l1 l2 -> subseq (x :: l1) (x :: l2)
| subseq_skip (x : A) (l1 l2 : list A) : subseq l1 l2 -> subseq l1 (x :: l2).

(** ** WeatherClassifier *)

(** The codes of [mapping] whose description is classified differently
    from the code itself. *)
Definition divergent_codes : list Z := [1; 77; 85; 86].

Definition agrees (entry : Z * string) : bool :=
  String.eqb (_get_weather_sound_type (VStr (snd entry)))
             (_get_weather_sound_type (VInt (fst entry))).

(** ** TimezoneResolver *)

(** The three shapes of a coherent result: a zone of the database with
    its name; a fixed offset within a day, reported as the offset; or
    nothing at all. *)
Definition coherent (tzdb : string -> bool) (info : tz_info) : Prop :=
  match local_time info with
  | Some (InZone z) => timezone info = VStr z /\ z <> "" /\ tzdb z = true
  | Some (AtOffset n) =>
      timezone info = VNone /\ utc_offset_seconds info = VInt n /\ -86400 < n < 86400
  | None => timezone info = VNone /\ utc_offset_seconds info = VNone
  end.

(** The provider answers with a zone and an offset. *)
Definition kolkata : network := fun _ =>
  Reply true (Ok (VDict [("timezone", VStr "Asia/Kolkata");
                         ("utc_offset_seconds", VInt 19800)])).

Definition only_kolkata : string -> bool := String.eqb "Asia/Kolkata".

(** ** WeatherResolver *)

(** The requests [api_weather] may issue, in the order it issues them. *)
Definition weather_requests (lat lon : value) : list request :=
  [OpenWeatherCurrent lat lon; OpenMeteoForecast lat lon; NominatimReverse lat lon;
   OpenMeteoReverse lat lon; OpenMeteoTimezone lat lon].

(** Values that [f"{v:.6f}"] formats: the numbers. *)
Definition is_number (v : value) : bool :=
  match v with
  | VBool _ | VInt _ | VFloat _ => true
  | VNone | VStr _ | VList _ | VDict _ => false
  end.

(** The forecast part of [_open_meteo_fallback]: lines 84-87. *)
Definition forecast_current (r : reply) : result value :=
  match r with
  | Reply true body => wj <- body ;; get_or (por wj (VDict [])) "current" (VDict [])
  | _ => Raised
  end.

(** The record built at lines 169-178 from the forecast and the name and
    country found. *)
Definition fallback_record (cur lat lon : value) (nc : value * value)
  : result weather_record :=
  code <- get cur "weather_code" ;;
  desc <- _omap_weather_code_desc code ;;
  temp <- get cur "temperature_2m" ;;
  hum <- get cur "relative_humidity_2m" ;;
  wind <- get cur "wind_speed_10m" ;;
  flat <- format_f6 lat ;;
  flon <- format_f6 lon ;;
  Ok {| name := fst nc;
        coord := VDict [("lat", lat); ("lon", lon)];
        weather := VStr desc;
        temp_c := temp;
        humidity := hum;
        wind_speed := wind;
        country := snd nc;
        debug_source := "";
        debug_original_name := None;
        debug_search_name := None;
        debug_coordinates := Some ("lat=" ++ flat ++ ", lon=" ++ flon);
        tz := mkTz VNone None VNone |}.

(** Two records carry the same observation: everything but the place. *)
Definition same_observation (o1 o2 : weather_record) : Prop :=
  weather o1 = weather o2 /\ temp_c o1 = temp_c o2 /\ humidity o1 = humidity o2
  /\ wind_speed o1 = wind_speed o2 /\ coord o1 = coord o2
  /\ debug_coordinates o1 = debug_coordinates o2.

(** ** GeocodeResolver *)

Definition geocode_sources : list string :=
  ["nominatim"; "open-meteo"; "open-meteo-retry"].

(** Line 319 *)
Definition autocomplete_flag (autocomplete_arg : option string) : bool :=
  existsb (String.eqb (lower (match autocomplete_arg with Some s => s | None => "0" end)))
          ["1"; "true"; "yes"].

Definition from_source (source : string) (l : list place) : Prop :=
  Forall (fun p => place_source p = source) l.

(** What one attempt may return. *)
Definition attempt_answer (autocomplete : bool) (sources : list string)
    (resp : geocode_response) : Prop :=
  match resp with
  | Found out => In (place_source out) sources
  | Suggestions l =>
      autocomplete = true /\ (1 <= List.length l <= 8)%nat
      /\ (from_source "nominatim" l \/ from_source "open-meteo" l)
  | GeocodeError _ _ => False
  end.

(** The shape of an answer of [api_geocode] to the query [q] (stripped). *)
Definition geocode_answer (q : string) (autocomplete : bool) (resp : geocode_response)
  : Prop :=
  match resp with
  | Found out =>
      q <> "" /\ In (place_source out) geocode_sources
      /\ (place_source out = "open-meteo-retry" -> is_indian_specific q = false)
  | Suggestions l =>
      q <> "" /\ autocomplete = true
      /\ (1 <= List.length l <= 8)%nat
      /\ (from_source "nominatim" l \/ from_source "open-meteo" l)
  | GeocodeError status error =>
      (q = "" /\ status = 400 /\ error = "Missing query parameter q")
      \/ (q <> "" /\ status = 404 /\ error = "No results")
      \/ (q <> "" /\ status = 502 /\ error = "Geocoding failed")
  end.

(** The requests [api_geocode] may issue for [q], in the order it issues
    them. *)
Definition geocode_requests (q : string) : list request :=
  if is_indian_specific q
  then [NominatimSearchIndia q; OpenMeteoSearch q]
  else [OpenMeteoSearch q; NominatimSearch q;
        OpenMeteoSearch (q ++ ", India"); OpenMeteoSearch (q ++ ", Kupwara, India")].

(** ** The ambient-sound endpoint *)

(** The two commands [api_ambient] runs before it starts a player. *)
Definition kill_before_play : list effect :=
  [Run ["pkill"; "-f"; "ambient_weather"]; Run ["pkill"; "-f"; "static/audio/ambient"]].

(** The four commands of the stop action. *)
Definition stop_kills : list effect :=
  [Run ["pkill"; "-f"; "static/audio/ambient"]; Run ["pkill"; "afplay"];
   Run ["pkill"; "aplay"]; Run ["pkill"; "mpg123"]].

(** The files looked for, in the order of the two loops of lines 669-678. *)
Definition candidates (sound_type : string) : list (string * string) :=
  [(sound_type, ".wav"); (sound_type, ".mp3"); ("ambient", ".wav"); ("ambient", ".mp3")].

Definition file_of (c : string * string) : string := (fst c ++ snd c)%string.

Definition is_popen (e : effect) : bool :=
  match e with Popen _ => true | _ => false end.

(** A host for the examples: [float()] is taken on integers only, every
    command runs, every process started is still running under pid 4242,
    and the files of the ambient directory are those listed. *)
Definition int_number (v : value) : result Z :=
  match v with VInt z => Ok z | _ => Raised end.

Definition running (argv : list string) : result process :=
  Ok (mkProcess 4242 None (Ok ("", ""))).

Definition files (l : list string) (f : string) : bool := existsb (String.eqb f) l.

Definition example_ambient (is_mac has_mpg123 : bool) (l : list string) (data : value)
  : eff ambient_response :=
  api_ambient Z int_number Z.gtb (fun _ => true) running (files l) (fun f => f)
              is_mac has_mpg123 data.

Definition heavy_rain_request : value :=
  VDict [("weather", VStr "Light Rain"); ("precip_mm", VInt 12)].

Definition stop_request : value :=
  VDict [("weather", VStr "Rain"); ("action", VStr "stop")].

(** ** The speech endpoint *)

(** A host for the examples: the temporary file is [tmpab12.mp3], the
    speech is saved, and the player and the deleting thread start or not. *)
Definition example_tts (spawns starts : bool) (data : value) : eff tts_response :=
  api_tts (Ok "tmpab12.mp3") (fun _ _ => true) (fun _ => true) (fun _ => true)
          (fun _ => spawns) starts "Linux" false data.

End Shapes.

(* ================================================================== *)
(** * Properties of the built-ins *)
(* ================================================================== *)

Module PyFacts.
Import Py Spec.


Lemma uint_numeral (d : Decimal.uint) :
  all_chars numeral_char (NilEmpty.string_of_uint d) = true.
Proof. induction d; simpl; auto. Qed.

Lemma uint0_numeral (d : Decimal.uint) :
  all_chars numeral_char (NilZero.string_of_uint d) = true.
Proof. destruct d; try reflexivity; exact (uint_numeral _). Qed.

Lemma str_of_int_numeral (z : Z) : all_chars numeral_char (str_of_int z) = true.
Proof.
  unfold str_of_int, NilZero.string_of_int.
  destruct (Z.to_int z) as [d | d]; [apply uint0_numeral |].
  cbn [all_chars]. now rewrite uint0_numeral.
Qed.

Lemma lower_char_numeral (c : ascii) : numeral_char c = true -> lower_char c = c.
Proof.
  destruct c as [[] [] [] [] [] [] [] []]; intros H; try reflexivity; discriminate H.
Qed.

Lemma lower_numeral (s : string) : all_chars numeral_char s = true -> lower s = s.
Proof.
  induction s as [| c s IH]; simpl; intros H; [reflexivity |].
  apply andb_true_iff in H as [Hc Hs].
  now rewrite (lower_char_numeral c Hc), (IH Hs).
Qed.

(** A word whose first character does not occur in a text does not occur
    in it. *)
Lemma contains_absent (P : ascii -> bool) (c : ascii) (rest s : string) :
  P c = false -> all_chars P s = true -> contains (String c rest) s = false.
Proof.
  intros Hc. induction s as [| a s IH]; simpl; intros H; [reflexivity |].
  apply andb_true_iff in H as [Ha Hs].
  destruct (ascii_dec c a) as [-> | _]; [congruence |].
  now apply IH.
Qed.

Lemma all_chars_lstrip (P sp : ascii -> bool) (s : string) :
  all_chars P s = true -> all_chars P (lstrip_by sp s) = true.
Proof.
  induction s as [| c s IH]; simpl; intros H; [reflexivity |].
  destruct (sp c); [| exact H].
  apply andb_true_iff in H as [_ Hs]. now apply IH.
Qed.

Lemma all_chars_rstrip (P sp : ascii -> bool) (s : string) :
  all_chars P s = true -> all_chars P (rstrip_by sp s) = true.
Proof.
  induction s as [| c s IH]; simpl; intros H; [reflexivity |].
  apply andb_true_iff in H as [Hc Hs]. specialize (IH Hs).
  destruct (rstrip_by sp s); [destruct (sp c) |]; simpl in *; now rewrite ?Hc.
Qed.

(** A text is blank for [strip] exactly when all its characters are. *)
Lemma rstrip_blank (sp : ascii -> bool) (s : string) :
  rstrip_by sp s = EmptyString <-> all_chars sp s = true.
Proof.
  induction s as [| c s IH]; simpl; [tauto |].
  destruct (rstrip_by sp s) eqn:E.
  - destruct (sp c); simpl; [| split; discriminate].
    split; [intros _; now apply IH | reflexivity].
  - split; [discriminate |].
    intros H. apply andb_true_iff in H as [_ Hs].
    apply IH in Hs. discriminate Hs.
Qed.

Lemma lstrip_blank (sp : ascii -> bool) (s : string) :
  lstrip_by sp s = EmptyString <-> all_chars sp s = true.
Proof.
  induction s as [| c s IH]; simpl; [tauto |].
  destruct (sp c); simpl; [exact IH | split; discriminate].
Qed.

Lemma lstrip_suffix_blank (sp : ascii -> bool) (s : string) :
  all_chars sp (lstrip_by sp s) = true -> all_chars sp s = true.
Proof.
  induction s as [| c s IH]; simpl; [tauto |].
  destruct (sp c) eqn:E; simpl; [exact IH |].
  rewrite E. simpl. discriminate.
Qed.

Lemma strip_blank (s : string) : strip s = EmptyString <-> all_chars is_space s = true.
Proof.
  unfold strip. rewrite rstrip_blank. split.
  - apply lstrip_suffix_blank.
  - apply all_chars_lstrip.
Qed.

Lemma lower_char_space (c : ascii) : is_space (lower_char c) = is_space c.
Proof. destruct c as [[] [] [] [] [] [] [] []]; reflexivity. Qed.

Lemma lower_blank (s : string) :
  all_chars is_space s = true -> all_chars is_space (lower s) = true.
Proof.
  induction s as [| c s IH]; simpl; [tauto |].
  rewrite lower_char_space. intros H.
  apply andb_true_iff in H as [-> Hs]. now apply IH.
Qed.

(** No blank text is an integer literal. *)
Lemma parse_blank (s : string) (acc : Z) :
  all_chars is_space s = true -> parse_digits s acc false = Raised.
Proof.
  destruct s as [| c s]; simpl; [reflexivity |].
  intros H. apply andb_true_iff in H as [Hc _].
  destruct c as [[] [] [] [] [] [] [] []]; try discriminate Hc; reflexivity.
Qed.

Lemma int_of_str_blank (s : string) :
  all_chars is_space s = true -> int_of_str s = Raised.
Proof.
  intros H. unfold int_of_str.
  assert (B : all_chars is_space (rstrip_by is_c_space (lstrip_by is_c_space s)) = true)
    by now apply all_chars_rstrip, all_chars_lstrip.
  destruct (rstrip_by is_c_space (lstrip_by is_c_space s)) as [| c ds]; [reflexivity |].
  pose proof (parse_blank (String c ds) 0 B) as P.
  simpl in B. apply andb_true_iff in B as [Hc _].
  destruct c as [[] [] [] [] [] [] [] []]; try discriminate Hc; exact P.
Qed.

(** *** The size of what [int()] reads *)

Lemma digit_val_range (c : ascii) (d : Z) : digit_val c = Some d -> 0 <= d <= 9.
Proof.
  unfold digit_val.
  destruct ((48 <=? code c) && (code c <=? 57))%N eqn:E; [| discriminate].
  apply andb_true_iff in E as [L U]. apply N.leb_le in L, U.
  intros H. injection H as <-. lia.
Qed.

Lemma parse_digits_bound (s : string) :
  forall (acc : Z) (b : bool) (n : Z),
    0 <= acc ->
    parse_digits s acc b = Ok n ->
    0 <= n < (acc + 1) * 10 ^ Z.of_nat (String.length s).
Proof.
  induction s as [| c s IH]; intros acc b n Hacc; cbn [parse_digits String.length].
  - destruct b; [| discriminate]. intros H. injection H as <-.
    change (10 ^ Z.of_nat 0) with 1. lia.
  - rewrite Nat2Z.inj_succ, Z.pow_succ_r by lia.
    assert (P : 0 < 10 ^ Z.of_nat (String.length s)) by (apply Z.pow_pos_nonneg; lia).
    destruct (digit_val c) as [d |] eqn:D.
    + apply digit_val_range in D. intros H.
      apply IH in H; [| lia]. nia.
    + destruct (Ascii.eqb c "_" && b); [| discriminate].
      intros H. apply IH in H; [| lia]. nia.
Qed.

Lemma lstrip_length (sp : ascii -> bool) (s : string) :
  (String.length (lstrip_by sp s) <= String.length s)%nat.
Proof.
  induction s as [| c s IH]; cbn [lstrip_by String.length]; [lia |].
  destruct (sp c); cbn [String.length]; lia.
Qed.

Lemma rstrip_length (sp : ascii -> bool) (s : string) :
  (String.length (rstrip_by sp s) <= String.length s)%nat.
Proof.
  induction s as [| c s IH]; cbn [rstrip_by String.length]; [lia |].
  destruct (rstrip_by sp s); [destruct (sp c) |]; cbn [String.length] in *; lia.
Qed.

Lemma int_of_str_bound (s : string) (n : Z) :
  int_of_str s = Ok n -> Z.abs n < 10 ^ Z.of_nat (String.length s).
Proof.
  unfold int_of_str.
  pose proof (lstrip_length is_c_space s) as L1.
  pose proof (rstrip_length is_c_space (lstrip_by is_c_space s)) as L2.
  set (body := rstrip_by is_c_space (lstrip_by is_c_space s)) in *.
  assert (L : (String.length body <= String.length s)%nat) by lia.
  clearbody body. clear L1 L2.
  assert (M : forall k : nat, (k <= String.length s)%nat ->
                10 ^ Z.of_nat k <= 10 ^ Z.of_nat (String.length s))
    by (intros k Hk; apply Z.pow_le_mono_r; lia).
  assert (B : forall ds m, (String.length ds <= String.length s)%nat ->
                parse_digits ds 0 false = Ok m ->
                0 <= m < 10 ^ Z.of_nat (String.length s)).
  { intros ds m Hl H. apply parse_digits_bound in H; [| lia].
    specialize (M _ Hl). lia. }
  destruct body as [| c ds]; [discriminate |].
  cbn [String.length] in L.
  destruct c as [[] [] [] [] [] [] [] []];
    try (intros H; apply B in H; [lia | cbn [String.length]; lia]).
  destruct (parse_digits ds 0 false) as [m |] eqn:E; [| discriminate].
  cbn [bind]. intros H. injection H as <-.
  apply B in E; lia.
Qed.

(** *** The characters [int()] reads *)

Lemma parse_digits_chars (s : string) :
  forall (acc : Z) (b : bool) (n : Z),
    parse_digits s acc b = Ok n -> all_chars literal_char s = true.
Proof.
  induction s as [| c s IH]; intros acc b n; cbn [parse_digits all_chars];
    [reflexivity |].
  destruct (digit_val c) as [d |] eqn:D.
  - intros H. rewrite (IH _ _ _ H), andb_true_r.
    unfold digit_val in D. unfold literal_char.
    destruct ((48 <=? code c) && (code c <=? 57))%N; [reflexivity | discriminate].
  - destruct (Ascii.eqb_spec c "_") as [-> | _]; [| discriminate].
    destruct b; [| discriminate]. cbn [andb].
    intros H. now rewrite (IH _ _ _ H).
Qed.

Lemma lstrip_chars (P sp : ascii -> bool) (s : string) :
  (forall c, sp c = true -> P c = true) ->
  all_chars P (lstrip_by sp s) = true -> all_chars P s = true.
Proof.
  intros Hsp. induction s as [| c s IH]; cbn [lstrip_by all_chars]; [reflexivity |].
  destruct (sp c) eqn:E; [| exact (fun H => H)].
  intros H. now rewrite (Hsp c E), (IH H).
Qed.

Lemma rstrip_chars (P sp : ascii -> bool) (s : string) :
  (forall c, sp c = true -> P c = true) ->
  all_chars P (rstrip_by sp s) = true -> all_chars P s = true.
Proof.
  intros Hsp. induction s as [| c s IH]; cbn [rstrip_by all_chars]; [reflexivity |].
  destruct (rstrip_by sp s) as [| a r] eqn:E.
  - apply rstrip_blank in E.
    assert (A : all_chars P s = true).
    { clear IH. induction s as [| x s IHs]; [reflexivity |].
      cbn [all_chars] in *. apply andb_true_iff in E as [Ex Es].
      now rewrite (Hsp x Ex), (IHs Es). }
    rewrite A, andb_true_r.
    destruct (sp c) eqn:S; [intros _; now apply Hsp |].
    cbn [all_chars]. now rewrite andb_true_r.
  - cbn [all_chars]. intros H. apply andb_true_iff in H as [-> H].
    now rewrite (IH H).
Qed.

Lemma int_of_str_chars (s : string) (n : Z) :
  int_of_str s = Ok n -> all_chars literal_char s = true.
Proof.
  unfold int_of_str. intros H.
  assert (Sp : forall c, is_c_space c = true -> literal_char c = true).
  { intros c E. unfold literal_char. rewrite E. apply orb_true_r. }
  apply (lstrip_chars _ is_c_space _ Sp), (rstrip_chars _ is_c_space _ Sp).
  destruct (rstrip_by is_c_space (lstrip_by is_c_space s)) as [| c ds];
    [reflexivity |].
  destruct c as [[] [] [] [] [] [] [] []];
    try exact (parse_digits_chars _ _ _ _ H);
    try (cbn [all_chars]; now rewrite (parse_digits_chars _ _ _ _ H)).
  destruct (parse_digits ds 0 false) as [m |] eqn:E; [| discriminate].
  cbn [all_chars]. now rewrite (parse_digits_chars _ _ _ _ E).
Qed.

Lemma lower_char_literal (c : ascii) : literal_char c = true -> lower_char c = c.
Proof.
  destruct c as [[] [] [] [] [] [] [] []]; intros H; try reflexivity; discriminate H.
Qed.

Lemma lower_literal (s : string) : all_chars literal_char s = true -> lower s = s.
Proof.
  induction s as [| c s IH]; simpl; intros H; [reflexivity |].
  apply andb_true_iff in H as [Hc Hs].
  now rewrite (lower_char_literal c Hc), (IH Hs).
Qed.

(** *** Plain values *)

Lemma plain_printable : forall v : value, plain v = true -> printable v = true.
Proof.
  fix IH 1. intros [| b | z | f | s | l | d]; cbn [plain printable];
    try reflexivity.
  - exact (fun H => H).
  - revert l. fix IHl 1. intros [| x l]; cbn [forallb]; [reflexivity |].
    intros H. apply andb_true_iff in H as [Hx Hl].
    rewrite (IH x Hx). exact (IHl l Hl).
  - revert d. fix IHd 1. intros [| [k x] d]; cbn [forallb fst snd]; [reflexivity |].
    intros H. apply andb_true_iff in H as [Hx Hd].
    apply andb_true_iff in Hx as [_ Hx].
    rewrite (IH x Hx). exact (IHd d Hd).
Qed.

Lemma plain_lookup (d : list (string * value)) (k : string) (x : value) :
  plain (VDict d) = true -> lookup d k = Some x -> plain x = true.
Proof.
  cbn [plain]. induction d as [| [k' v] d IH]; cbn [forallb lookup fst snd];
    [discriminate |].
  intros H. apply andb_true_iff in H as [Hv Hd].
  apply andb_true_iff in Hv as [_ Hv].
  destruct (String.eqb k k'); [| now apply IH].
  intros E. now injection E as <-.
Qed.

Lemma printable_small (n : Z) : Z.abs n <= 1 -> printable_int n = true.
Proof.
  intros H. unfold printable_int. apply Z.ltb_lt.
  assert (1 < 10 ^ 4300) by (apply Z.pow_gt_1; lia). lia.
Qed.

(** On a plain value [int()] gives an integer that can be written. *)
Lemma int_plain (v : value) (n : Z) :
  plain v = true -> int v = Ok n -> printable_int n = true.
Proof.
  destruct v as [| b | z | f | s | l | d]; cbn [plain int]; try discriminate.
  - intros _ H. injection H as <-. apply printable_small. destruct b; lia.
  - intros P H. now injection H as <-.
  - destruct (float_int f) as [z |]; [| discriminate].
    intros P H. now injection H as <-.
  - unfold plain_text. intros P H. apply andb_true_iff in P as [_ P].
    apply Nat.leb_le in P. apply int_of_str_bound in H.
    unfold printable_int. apply Z.ltb_lt.
    assert (10 ^ Z.of_nat (String.length s) <= 10 ^ 4300)
      by (apply Z.pow_le_mono_r; lia).
    lia.
Qed.

End PyFacts.

Module IoFacts.
Import Py Net.

Lemma outcome_bind {A B : Type} (m : io A) (k : A -> io B) :
  outcome (iobind m k)
  = match outcome m with Ok a => outcome (k a) | Raised => Raised end.
Proof. destruct m as [[a |] t]; simpl; [destruct (k a) |]; reflexivity. Qed.

Lemma trace_bind {A B : Type} (m : io A) (k : A -> io B) :
  trace (iobind m k)
  = (trace m ++ match outcome m with Ok a => trace (k a) | Raised => [] end)%list.
Proof.
  destruct m as [[a |] t]; simpl; [destruct (k a); reflexivity |].
  now rewrite app_nil_r.
Qed.

Lemma outcome_try {A : Type} (m h : io A) :
  outcome (try_except m h)
  = match outcome m with Ok a => Ok a | Raised => outcome h end.
Proof. destruct m as [[a |] t]; simpl; [| destruct h]; reflexivity. Qed.

Lemma trace_try {A : Type} (m h : io A) :
  trace (try_except m h)
  = (trace m ++ match outcome m with Ok _ => [] | Raised => trace h end)%list.
Proof.
  destruct m as [[a |] t]; simpl; [now rewrite app_nil_r | destruct h; reflexivity].
Qed.

Lemma outcome_get (net : network) (rq : request) :
  outcome (http_get net rq)
  = match net rq with NoReply => Raised | Reply ok body => Ok (ok, body) end.
Proof. unfold http_get. now destruct (net rq). Qed.

Lemma trace_get (net : network) (rq : request) : trace (http_get net rq) = [rq].
Proof. unfold http_get. now destruct (net rq). Qed.

End IoFacts.

(* ================================================================== *)
(** * WeatherClassifier *)
(* ================================================================== *)

Module Classifier.
Import Py App Spec PyFacts.


Ltac split_ifs :=
  repeat match goal with
         | |- context [if ?b then _ else _] => destruct b
         end.

(** The range tables only name six of the classes. *)
Lemma numeric_class_range (code : Z) (s : string) :
  numeric_class code = Some s ->
  In s ["storm"; "rain"; "snow"; "fog"; "sunny"; "cloudy"].
Proof.
  unfold numeric_class. split_ifs; intros H; inversion H; subst; simpl; tauto.
Qed.

Lemma keyword_class_range (w : string) : In (keyword_class w) classes.
Proof. unfold keyword_class, classes. split_ifs; simpl; tauto. Qed.

Lemma textual_class_range (v : value) : In (textual_class v) classes.
Proof.
  unfold textual_class. destruct (String.eqb _ _); [simpl; tauto |].
  apply keyword_class_range.
Qed.

(** A numeral carries no keyword. *)
Lemma keyword_class_numeral (w : string) :
  all_chars numeral_char w = true -> keyword_class w = "ambient".
Proof.
  intros H. unfold keyword_class.
  now rewrite !(fun c rest Hc => contains_absent numeral_char c rest w Hc H)
    by reflexivity.
Qed.

Lemma textual_class_int (code : Z) : textual_class (VInt code) = "ambient".
Proof.
  unfold textual_class. cbn [str repr].
  rewrite (lower_numeral _ (str_of_int_numeral code)).
  rewrite (keyword_class_numeral _ (str_of_int_numeral code)).
  now destruct (String.eqb _ _).
Qed.

Lemma keyword_class_wind (w : string) :
  keyword_class w = "wind" ->
  contains "wind" w = true \/ contains "breezy" w = true \/ contains "gust" w = true.
Proof.
  unfold keyword_class.
  destruct (contains "thunder" w || contains "storm" w || contains "tornado" w);
    [discriminate |].
  destruct (contains "hail" w); [discriminate |].
  destruct (contains "rain" w || contains "drizzle" w || contains "shower" w
            || contains "precipitation" w); [discriminate |].
  destruct (contains "snow" w || contains "sleet" w || contains "blizzard" w);
    [discriminate |].
  destruct (contains "fog" w || contains "mist" w || contains "haze" w
            || contains "smoke" w || contains "dust" w); [discriminate |].
  destruct (contains "wind" w) eqn:W; [now left |].
  destruct (contains "breezy" w) eqn:B; [now right; left |].
  destruct (contains "gust" w) eqn:G; [now right; right |].
  simpl. split_ifs; discriminate.
Qed.

(** The numeral of an integer literal carries no keyword either. *)
Lemma keyword_class_literal (w : string) :
  all_chars literal_char w = true -> keyword_class w = "ambient".
Proof.
  intros H. unfold keyword_class.
  now rewrite !(fun c rest Hc => contains_absent literal_char c rest w Hc H)
    by reflexivity.
Qed.

Lemma textual_class_literal (s : string) (n : Z) :
  int_of_str s = Ok n -> textual_class (VStr s) = "ambient".
Proof.
  intros H. apply int_of_str_chars in H.
  unfold textual_class. cbn [str].
  rewrite (lower_literal s H), (keyword_class_literal s H).
  now destruct (String.eqb _ _).
Qed.

(** *** The classifier and its exception *)

Lemma textual_checked (weather : value) :
  printable weather = true ->
  textual_class_checked weather = Ok (textual_class weather).
Proof.
  intros P. unfold textual_class_checked, str_checked, textual_class.
  now rewrite P.
Qed.

(** When the value that reaches line 786 can be written, nothing is
    raised and the class is the one computed. *)
Lemma checked_returns (weather : value) :
  printable (unpack weather) = true ->
  _get_weather_sound_type_checked weather = Ok (_get_weather_sound_type weather).
Proof.
  intros P. unfold _get_weather_sound_type_checked, _get_weather_sound_type.
  destruct (is_none weather); [reflexivity |].
  destruct (int (unpack weather)) as [code |]; [| now apply textual_checked].
  destruct (numeric_class code); [reflexivity | now apply textual_checked].
Qed.

Lemma checked_agrees (weather : value) (s : string) :
  _get_weather_sound_type_checked weather = Ok s ->
  s = _get_weather_sound_type weather.
Proof.
  unfold _get_weather_sound_type_checked, _get_weather_sound_type.
  destruct (is_none weather); [intros H; now injection H as <- |].
  assert (T : textual_class_checked (unpack weather) = Ok s ->
              s = textual_class (unpack weather)).
  { unfold textual_class_checked, str_checked, textual_class.
    destruct (printable (unpack weather)); [| discriminate].
    cbn [bind]. intros H. now injection H as <-. }
  destruct (int (unpack weather)) as [code |]; [| exact T].
  destruct (numeric_class code); [intros H; now injection H as <- | exact T].
Qed.

Lemma sound_type_in_classes (weather : value) :
  In (_get_weather_sound_type weather) classes.
Proof.
  unfold _get_weather_sound_type.
  destruct (is_none weather); [unfold classes; simpl; tauto |].
  destruct (int (unpack weather)) as [code |]; [| apply textual_class_range].
  destruct (numeric_class code) as [s |] eqn:E; [| apply textual_class_range].
  apply numeric_class_range in E. unfold classes. simpl in *. tauto.
Qed.

Lemma description_of_plain (d : list (string * value)) :
  plain (VDict d) = true ->
  exists v, description_of (VDict d) = Ok v /\ plain v = true.
Proof.
  intros P. unfold description_of, get, get_or. cbn [bind].
  eexists. split; [reflexivity |].
  assert (L : forall k, plain (match lookup d k with Some x => x | None => VNone end)
                        = true).
  { intros k. destruct (lookup d k) as [x |] eqn:E; [| reflexivity].
    exact (plain_lookup d k x P E). }
  unfold por.
  destruct (truthy (match lookup d "description" with Some x => x | None => VNone end)).
  - destruct (truthy (match lookup d "description" with
                      | Some x => x | None => VNone end)); [apply L | reflexivity].
  - destruct (truthy (match lookup d "weather" with Some x => x | None => VNone end));
      [apply L | reflexivity].
Qed.

(** A plain observation is unpacked into a value that can be written. *)
Lemma unpack_printable (weather : value) :
  plain weather = true -> printable (unpack weather) = true.
Proof.
  intros P. destruct weather as [| b | z | f | s | l | d];
    try exact (plain_printable _ P).
  destruct (description_of_plain d P) as [v [Dv Pv]].
  assert (L : forall k, plain (match lookup d k with Some x => x | None => VNone end)
                        = true).
  { intros k. destruct (lookup d k) as [x |] eqn:E; [| reflexivity].
    exact (plain_lookup d k x P E). }
  unfold unpack. rewrite Dv.
  destruct (has_key d "id").
  - unfold get, get_or. cbn [bind].
    destruct (int _) as [n |] eqn:E; [| exact (plain_printable _ Pv)].
    cbn [printable]. exact (int_plain _ _ (L "id") E).
  - destruct (has_key d "weather_code" || has_key d "code");
      [| exact (plain_printable _ Pv)].
    unfold get, get_or. cbn [bind].
    destruct (int _) as [n |] eqn:E; [| exact (plain_printable _ Pv)].
    cbn [printable]. refine (int_plain _ _ _ E).
    unfold por. destruct (truthy _); apply L.
Qed.

(** C6.  The numeric path of [_get_weather_sound_type] sends code 95 to
    "storm", code 3 to "cloudy" and code 800 to "sunny", whether the code
    comes as an integer or as the text of one (the form in which
    [api_ambient] passes it).  A code that lies in no range of the two
    tables is classified "ambient", whether it comes as an integer, as the
    text of one, or as the "id" of a dict, whatever else the dict holds:
    the keyword checks only see the numeral of the code, which carries no
    keyword, so no textual hint is ever available to them.  (An integer
    of more than 4300 digits cannot be written as a numeral: the function
    raises on it.) *)
Theorem numeric_classification :
  _get_weather_sound_type_checked (VInt 95) = Ok "storm" /\
  _get_weather_sound_type_checked (VInt 3) = Ok "cloudy" /\
  _get_weather_sound_type_checked (VInt 800) = Ok "sunny" /\
  map _get_weather_sound_type_checked [VStr "95"; VStr "3"; VStr "800"]
  = [Ok "storm"; Ok "cloudy"; Ok "sunny"] /\
  (forall code : Z,
      numeric_class code = None ->
      printable_int code = true ->
      _get_weather_sound_type_checked (VInt code) = Ok "ambient") /\
  (forall (s : string) (code : Z),
      int_of_str s = Ok code ->
      numeric_class code = None ->
      _get_weather_sound_type_checked (VStr s) = Ok "ambient") /\
  (forall (d : list (string * value)) (code : Z),
      lookup d "id" = Some (VInt code) ->
      numeric_class code = None ->
      printable_int code = true ->
      _get_weather_sound_type_checked (VDict d) = Ok "ambient").
Proof.
  repeat split; try reflexivity.
  - intros code H P. rewrite checked_returns by exact P.
    unfold _get_weather_sound_type. cbn [is_none unpack int].
    rewrite H. now rewrite textual_class_int.
  - intros s code Hi Hn. rewrite checked_returns by reflexivity.
    unfold _get_weather_sound_type. cbn [is_none unpack int].
    rewrite Hi, Hn. now rewrite (textual_class_literal s code Hi).
  - intros d code Hid Hn P.
    assert (U : unpack (VDict d) = VInt code).
    { unfold unpack, has_key, get, get_or. rewrite Hid. reflexivity. }
    rewrite checked_returns by (rewrite U; exact P).
    unfold _get_weather_sound_type. cbn [is_none]. rewrite U. cbn [int].
    rewrite Hn. now rewrite textual_class_int.
Qed.

Lemma numeric_classification_witness :
  _get_weather_sound_type_checked (VInt 4) = Ok "ambient" /\
  _get_weather_sound_type_checked (VStr " 4 ") = Ok "ambient" /\
  _get_weather_sound_type_checked (VDict [("id", VInt 4); ("description", VStr "rain")])
  = Ok "ambient".
Proof.
  split; [| split].
  - apply (proj1 (proj2 (proj2 (proj2 (proj2 numeric_classification)))) 4);
      reflexivity.
  - apply (proj1 (proj2 (proj2 (proj2 (proj2 (proj2 numeric_classification)))))
             " 4 " 4);
      reflexivity.
  - apply (proj2 (proj2 (proj2 (proj2 (proj2 (proj2 numeric_classification)))))
             [("id", VInt 4); ("description", VStr "rain")] 4);
      reflexivity.
Defined.

(** C10.  No integer code is classified "wind", since no range of the
    tables is mapped to it; an input classified "wind" is one whose
    lower-cased text contains "wind", "breezy" or "gust". *)
Theorem wind_only_by_keyword :
  (forall code : Z, numeric_class code <> Some "wind") /\
  (forall code : Z, _get_weather_sound_type (VInt code) <> "wind") /\
  (forall weather : value,
      _get_weather_sound_type weather = "wind" ->
      let w := lower (str (unpack weather)) in
      contains "wind" w = true \/ contains "breezy" w = true
      \/ contains "gust" w = true).
Proof.
  assert (N : forall code, numeric_class code <> Some "wind").
  { intros code H. apply numeric_class_range in H. simpl in H.
    repeat destruct H as [H | H]; try discriminate H; exact H. }
  split; [exact N | split].
  - intros code. unfold _get_weather_sound_type. cbn [is_none unpack int].
    destruct (numeric_class code) as [s |] eqn:E.
    + intros ->. now apply (N code).
    + rewrite textual_class_int. discriminate.
  - intros weather. unfold _get_weather_sound_type.
    destruct (is_none weather); [discriminate |].
    assert (T : textual_class (unpack weather) = "wind" ->
                let w := lower (str (unpack weather)) in
                contains "wind" w = true \/ contains "breezy" w = true
                \/ contains "gust" w = true).
    { unfold textual_class. destruct (String.eqb _ _); [discriminate |].
      apply keyword_class_wind. }
    destruct (int (unpack weather)) as [code |]; [| exact T].
    destruct (numeric_class code) as [s |] eqn:E; [| exact T].
    intros ->. now destruct (N code).
Qed.

Lemma wind_only_by_keyword_witness :
  _get_weather_sound_type (VStr "Breezy") = "wind" /\
  contains "breezy" (lower "Breezy") = true.
Proof.
  split; [reflexivity |].
  destruct (proj2 (proj2 wind_only_by_keyword) (VStr "Breezy") eq_refl)
    as [H | [H | H]]; [discriminate H | exact H | discriminate H].
Defined.


(** No code above 804 lies in a range of the tables. *)
Lemma numeric_class_large (code : Z) : 805 <= code -> numeric_class code = None.
Proof.
  intros H.
  assert (L : forall hi, hi < 805 -> (code <=? hi) = false)
    by (intros hi Hhi; apply Z.leb_gt; lia).
  assert (Q : forall k, k < 805 -> (code =? k) = false)
    by (intros k Hk; apply Z.eqb_neq; lia).
  unfold numeric_class, between.
  rewrite !L, !Q by lia. rewrite !andb_false_r. reflexivity.
Qed.

(** An integer that cannot be written leaves the function by the
    exception of line 786, also as the "id" of a dict. *)
Lemma unprintable_raises (code : Z) :
  805 <= code -> printable_int code = false ->
  _get_weather_sound_type_checked (VDict [("id", VInt code)]) = Raised /\
  _get_weather_sound_type_checked (VInt code) = Raised.
Proof.
  intros H P.
  assert (U : unpack (VDict [("id", VInt code)]) = VInt code) by reflexivity.
  unfold _get_weather_sound_type_checked. cbn [is_none]. rewrite U.
  cbn [unpack int]. rewrite (numeric_class_large code H).
  unfold textual_class_checked, str_checked. cbn [printable]. rewrite P.
  split; reflexivity.
Qed.

(** C9, as worded, fails.  The code also reads the keys "code" and
    "weather" (lines 747-753); and on a dict whose "id" has more than 4300
    digits, or on such an integer itself, [str(weather)] at line 786
    raises. *)
Lemma unrecognizable_as_worded_fails :
  _get_weather_sound_type (VDict [("code", VInt 95)]) = "storm" /\
  _get_weather_sound_type (VDict [("weather", VStr "light rain")]) = "rain" /\
  ~ unrecognizable_as_worded /\
  _get_weather_sound_type_checked (VDict [("id", VInt (10 ^ 4300))]) = Raised /\
  _get_weather_sound_type_checked (VInt (10 ^ 4300)) = Raised.
Proof.
  split; [reflexivity | split; [reflexivity | split]].
  - intros H. specialize (H [("code", VInt 95)] eq_refl eq_refl eq_refl).
    discriminate H.
  - assert (B : 805 <= 10 ^ 4300).
    { assert (10 ^ 3 <= 10 ^ 4300) by (apply Z.pow_le_mono_r; lia).
      change (10 ^ 3) with 1000 in *. lia. }
    assert (P : printable_int (10 ^ 4300) = false).
    { unfold printable_int. rewrite Z.abs_eq by (apply Z.pow_nonneg; lia).
      apply Z.ltb_irrefl. }
    revert B P. generalize (10 ^ 4300). intros code B P.
    exact (unprintable_raises code B P).
Qed.

(** C9, amended.  [_get_weather_sound_type] returns "ambient" for [None],
    for a string that is empty or blank, and for a dict with none of the
    keys "id", "weather_code", "code" and no truthy "description" or
    "weather".  It returns one of the eight class names, without raising,
    for every string and for every plain observation (texts of at most
    4300 characters, integers of at most 4300 digits); and whatever it
    returns is one of the eight class names. *)
Theorem classifier_total :
  _get_weather_sound_type_checked VNone = Ok "ambient" /\
  (forall s : string,
      strip s = "" -> _get_weather_sound_type_checked (VStr s) = Ok "ambient") /\
  (forall d : list (string * value),
      has_key d "id" = false ->
      has_key d "weather_code" = false ->
      has_key d "code" = false ->
      (forall v, lookup d "description" = Some v -> truthy v = false) ->
      (forall v, lookup d "weather" = Some v -> truthy v = false) ->
      _get_weather_sound_type_checked (VDict d) = Ok "ambient") /\
  (forall s : string,
      exists c, _get_weather_sound_type_checked (VStr s) = Ok c /\ In c classes) /\
  (forall weather : value,
      plain weather = true ->
      exists c, _get_weather_sound_type_checked weather = Ok c /\ In c classes) /\
  (forall (weather : value) (c : string),
      _get_weather_sound_type_checked weather = Ok c -> In c classes).
Proof.
  split; [reflexivity | split; [| split; [| split; [| split]]]].
  - intros s H. apply strip_blank in H.
    rewrite checked_returns by reflexivity.
    unfold _get_weather_sound_type. cbn [is_none unpack int].
    rewrite (int_of_str_blank s H). unfold textual_class. cbn [str].
    now rewrite (proj2 (strip_blank (lower s)) (lower_blank s H)).
  - intros d Hid Hwc Hc Hd Hw.
    assert (U : unpack (VDict d) = VStr "").
    { unfold unpack. rewrite Hid, Hwc, Hc. cbn.
      destruct (lookup d "description") as [x |] eqn:X;
        destruct (lookup d "weather") as [y |] eqn:Y;
        unfold por;
        repeat first [ rewrite (Hd _ eq_refl) | rewrite (Hw _ eq_refl)
                     | progress cbn [truthy] ];
        reflexivity. }
    rewrite checked_returns by (rewrite U; reflexivity).
    unfold _get_weather_sound_type. cbn [is_none]. rewrite U. reflexivity.
  - intros s. eexists. split; [apply checked_returns; reflexivity |].
    apply sound_type_in_classes.
  - intros weather P. eexists.
    split; [apply checked_returns, unpack_printable, P |].
    apply sound_type_in_classes.
  - intros weather c H. rewrite (checked_agrees weather c H).
    apply sound_type_in_classes.
Qed.

Lemma classifier_total_witness :
  _get_weather_sound_type_checked (VStr "   ") = Ok "ambient" /\
  _get_weather_sound_type_checked (VDict [("temp", VInt 31); ("description", VStr "")])
  = Ok "ambient" /\
  (exists c,
      _get_weather_sound_type_checked
        (VDict [("id", VStr "n/a"); ("description", VList [VStr "Light Rain"])]) = Ok c
      /\ In c classes).
Proof.
  split; [| split].
  - apply (proj1 (proj2 classifier_total) "   "). reflexivity.
  - apply (proj1 (proj2 (proj2 classifier_total))
             [("temp", VInt 31); ("description", VStr "")]);
      try reflexivity.
    + intros v H. inversion H. reflexivity.
    + intros v H. discriminate H.
  - apply (proj1 (proj2 (proj2 (proj2 (proj2 classifier_total))))
             (VDict [("id", VStr "n/a"); ("description", VList [VStr "Light Rain"])])).
    reflexivity.
Defined.

End Classifier.

(* ================================================================== *)
(** * TimezoneResolver *)
(* ================================================================== *)


Module Timezone.
Import Py Net App Spec IoFacts.

Lemma fixed_offset_usable (v : value) :
  is_none v = false ->
  match fixed_offset v with Ok _ => usable_offset v = true | Raised => usable_offset v = false end.
Proof.
  unfold fixed_offset, usable_offset, bind.
  destruct v; try discriminate; intros _;
    destruct (int _) as [n |]; try reflexivity;
    now destruct ((-86400 <? n) && (n <? 86400)).
Qed.

(** C7.  When the call to the timezone provider fails entirely and the
    caller passes [fallback_offset_seconds = 19800], the result has
    [utc_offset_seconds = 19800], no zone name, and a local time taken at
    the fixed offset of 19800 seconds, which [isoformat] prints as +05:30. *)
Theorem timezone_fallback_offset
    (net : network) (tzdb : string -> bool) (lat lon : value) :
  call_failed (net (OpenMeteoTimezone lat lon)) = true ->
  outcome (_get_timezone_and_localtime net tzdb lat lon (VInt 19800))
  = Ok {| timezone := VNone;
          local_time := Some (AtOffset 19800);
          utc_offset_seconds := VInt 19800 |}
  /\ offset_suffix 19800 = "+05:30".
Proof.
  intros F. split; [| reflexivity].
  unfold _get_timezone_and_localtime, provider_timezone, http_get.
  destruct (net (OpenMeteoTimezone lat lon)) as [| ok body]; [reflexivity |].
  destruct ok; [| reflexivity].
  destruct body; [discriminate F | reflexivity].
Qed.

Lemma timezone_fallback_offset_witness :
  outcome (_get_timezone_and_localtime (fun _ => NoReply) (fun _ => false)
             (VInt 28) (VInt 77) (VInt 19800))
  = Ok {| timezone := VNone;
          local_time := Some (AtOffset 19800);
          utc_offset_seconds := VInt 19800 |}.
Proof.
  apply (timezone_fallback_offset (fun _ => NoReply) (fun _ => false) (VInt 28) (VInt 77)).
  reflexivity.
Defined.

Lemma by_name_usable (tzdb : string -> bool) (tzname utc_off : value) :
  (if truthy tzname
   then match zone_info tzdb tzname with
        | Ok zone => Some (mkTz tzname (Some (InZone zone)) utc_off)
        | Raised => None
        end
   else None)
  = if usable_zone tzdb tzname
    then Some (mkTz tzname (Some (InZone (str tzname))) utc_off)
    else None.
Proof.
  destruct tzname; cbn [zone_info usable_zone str];
    try (now destruct (truthy _)).
  cbn [truthy]. now destruct (String.eqb s ""), (tzdb s).
Qed.

(** The provider tiers: what the guarded call of lines 192-219 finds. *)
Lemma provider_timezone_found (net : network) (tzdb : string -> bool) (lat lon : value) :
  let r := net (OpenMeteoTimezone lat lon) in
  exists found : option tz_info,
    outcome (try_except (provider_timezone net tzdb lat lon) (ret None)) = Ok found /\
    (found = None <-> tier1 tzdb r = false /\ tier2 r = false) /\
    (forall info, found = Some info -> local_time info <> None).
Proof.
  intros r. rewrite outcome_try. unfold provider_timezone.
  rewrite outcome_bind, outcome_get. unfold tier1, tier2, supplied. subst r.
  destruct (net (OpenMeteoTimezone lat lon)) as [| [|] [j0 |]];
    try (exists None; repeat split; congruence).
  cbn [outcome lift fst bind].
  destruct (get (por j0 (VDict [])) "timezone") as [tzname |];
    [| exists None; repeat split; congruence].
  destruct (get (por j0 (VDict [])) "utc_offset_seconds") as [utc_off |];
    [| exists None; repeat split; congruence].
  cbn [bind]. rewrite by_name_usable.
  destruct (usable_zone tzdb tzname).
  { eexists. split; [reflexivity |].
    split; [split; [discriminate | intros [H _]; discriminate H] |].
    intros info H. inversion H; subst. discriminate. }
  destruct (is_none utc_off) eqn:N; cbn [negb].
  { exists None. destruct utc_off; try discriminate N.
    repeat split; congruence. }
  pose proof (fixed_offset_usable utc_off N) as U.
  destruct (fixed_offset utc_off) as [n |]; cbn [bind]; rewrite U.
  - eexists. split; [reflexivity |].
    split; [split; [discriminate | intros [_ H]; discriminate H] |].
    intros info H. inversion H; subst. discriminate.
  - exists None. repeat split; congruence.
Qed.

(** [_get_timezone_and_localtime] returns on every input. *)
Lemma timezone_returns
    (net : network) (tzdb : string -> bool) (lat lon fallback : value) :
  exists info : tz_info,
    outcome (_get_timezone_and_localtime net tzdb lat lon fallback) = Ok info.
Proof.
  unfold _get_timezone_and_localtime. rewrite outcome_bind.
  destruct (provider_timezone_found net tzdb lat lon) as [found [-> _]].
  destruct found as [info |]; [now exists info |].
  destruct (negb (is_none fallback)); [| now eexists].
  destruct (fixed_offset fallback); now eexists.
Qed.

(** C8.  [_get_timezone_and_localtime] always returns a record, never an
    error; its three fields are all null exactly when no tier produced a
    value: the provider supplied no usable zone name and no usable offset,
    and the caller no usable fallback offset.  The offsets are plain:
    numbers, or ASCII texts of at most 4300 characters, on which the
    [int()] of the model is CPython's. *)
Theorem timezone_all_null
    (net : network) (tzdb : string -> bool) (lat lon fallback : value) :
  let r := net (OpenMeteoTimezone lat lon) in
  plain_offset r = true ->
  plain fallback = true ->
  exists info : tz_info,
    outcome (_get_timezone_and_localtime net tzdb lat lon fallback) = Ok info /\
    (all_null info <->
     tier1 tzdb r = false /\ tier2 r = false /\ tier3 fallback = false).
Proof.
  intros r _ _. unfold _get_timezone_and_localtime. rewrite outcome_bind.
  destruct (provider_timezone_found net tzdb lat lon) as [found [-> [F L]]].
  fold r in F. destruct found as [info |].
  - exists info. split; [reflexivity |]. split.
    + intros [_ [H _]]. now destruct (L info eq_refl).
    + intros [H1 [H2 _]]. discriminate (proj2 F (conj H1 H2)).
  - destruct (proj1 F eq_refl) as [-> ->]. unfold tier3.
    destruct (is_none fallback) eqn:N; cbn [negb].
    + exists no_timezone. split; [reflexivity |].
      destruct fallback; try discriminate N. unfold all_null; simpl; tauto.
    + pose proof (fixed_offset_usable fallback N) as U.
      destruct (fixed_offset fallback) as [n |]; eexists; (split; [reflexivity |]);
        rewrite U; unfold all_null; simpl; intuition discriminate.
Qed.

Lemma timezone_all_null_witness :
  (exists info : tz_info,
      outcome (_get_timezone_and_localtime empty_answers no_zones (VInt 28) (VInt 77)
                 (VStr "soon")) = Ok info
      /\ all_null info)
  /\ (exists info : tz_info,
         outcome (_get_timezone_and_localtime empty_answers no_zones (VInt 28) (VInt 77)
                    (VStr " 19800 ")) = Ok info
         /\ ~ all_null info).
Proof.
  split.
  - destruct (timezone_all_null empty_answers no_zones (VInt 28) (VInt 77) (VStr "soon")
                eq_refl eq_refl) as [info [E A]].
    exists info. split; [exact E |]. apply A. repeat split.
  - destruct (timezone_all_null empty_answers no_zones (VInt 28) (VInt 77)
                (VStr " 19800 ") eq_refl eq_refl) as [info [E A]].
    exists info. split; [exact E |]. intros H. apply A in H.
    destruct H as [_ [_ H]]. discriminate H.
Defined.

End Timezone.

(* ================================================================== *)
(** * WeatherResolver and NameDisambiguator *)
(* ================================================================== *)

Module Weather.
Import Py Net App Spec Shapes IoFacts Timezone.

Ltac step_binds :=
  repeat match goal with
         | |- context [bind ?m _] => destruct m eqn:?; cbn [bind]; [| discriminate]
         end.

(** What a record returned on the OpenWeather path was built from. *)
Lemma openweather_inv (net : network) (tzdb : string -> bool)
    (lat lon search_name : value) (out : weather_record) :
  outcome (openweather net tzdb lat lon search_name) = Ok (Some out) ->
  debug_source out = "openweather" /\
  exists payload weather_name,
    net (OpenWeatherCurrent lat lon) = Reply true (Ok payload) /\
    get payload "name" = Ok weather_name /\
    final_name search_name weather_name = Ok (name out) /\
    first_description payload = Ok (weather out).
Proof.
  unfold openweather. rewrite outcome_bind, outcome_get.
  destruct (net (OpenWeatherCurrent lat lon)) as [| [|] [payload |]];
    try discriminate.
  rewrite outcome_bind. cbn [lift outcome fst].
  step_binds.
  rewrite outcome_bind.
  match goal with
  | |- context [_get_timezone_and_localtime net tzdb lat lon ?v] =>
      destruct (timezone_returns net tzdb lat lon v) as [info ->]
  end.
  cbn. intros H. inversion H; subst; clear H. cbn.
  split; [reflexivity |]. do 2 eexists. repeat split; eassumption.
Qed.

(** The description of a record of [_open_meteo_fallback] is a string. *)
Lemma fallback_description (net : network) (lat lon : value) (out : weather_record) :
  outcome (_open_meteo_fallback net lat lon) = Ok out ->
  exists s, weather out = VStr s.
Proof.
  unfold _open_meteo_fallback.
  rewrite outcome_bind, outcome_get.
  destruct (net (OpenMeteoForecast lat lon)) as [| [|] body]; try discriminate.
  rewrite outcome_bind. cbn [lift outcome fst].
  rewrite outcome_bind. cbn [lift outcome fst].
  destruct (wj <- body ;; get_or (por wj (VDict [])) "current" (VDict [])) as [cur |];
    [| discriminate].
  rewrite outcome_bind.
  match goal with
  | |- context [outcome (try_except ?m ?h)] =>
      destruct (outcome (try_except m h)) as [nc |]; [| discriminate]
  end.
  rewrite outcome_bind.
  match goal with
  | |- match ?o with _ => _ end = _ -> _ => destruct o as [nc' |]; [| discriminate]
  end.
  cbn [lift outcome fst].
  step_binds.
  intros H. inversion H; subst; clear H. cbn. eauto.
Qed.

(** The description of a record of [_open_meteo_fallback] is the one
    [_omap_weather_code_desc] gives for the "weather_code" of the
    forecast. *)
Lemma fallback_description_code (net : network) (lat lon : value)
    (out : weather_record) :
  outcome (_open_meteo_fallback net lat lon) = Ok out ->
  exists cur code s,
    forecast_current (net (OpenMeteoForecast lat lon)) = Ok cur /\
    get cur "weather_code" = Ok code /\
    _omap_weather_code_desc code = Ok s /\
    weather out = VStr s.
Proof.
  unfold _open_meteo_fallback, forecast_current.
  rewrite outcome_bind, outcome_get.
  destruct (net (OpenMeteoForecast lat lon)) as [| [|] body]; try discriminate.
  rewrite outcome_bind. cbn [lift outcome fst].
  rewrite outcome_bind. cbn [lift outcome fst].
  destruct (wj <- body ;; get_or (por wj (VDict [])) "current" (VDict [])) as [cur |];
    [| discriminate].
  rewrite outcome_bind.
  match goal with
  | |- context [outcome (try_except ?m ?h)] =>
      destruct (outcome (try_except m h)) as [nc |]; [| discriminate]
  end.
  rewrite outcome_bind.
  match goal with
  | |- match ?o with _ => _ end = _ -> _ => destruct o as [nc' |]; [| discriminate]
  end.
  cbn [lift outcome fst].
  destruct (get cur "weather_code") as [code |] eqn:C; cbn [bind]; [| discriminate].
  destruct (_omap_weather_code_desc code) as [s |] eqn:D; cbn [bind]; [| discriminate].
  step_binds.
  intros H. inversion H; subst; clear H. cbn.
  exists cur, code, s. auto.
Qed.

Lemma mapping_get_range (m : list (Z * string)) (k : Z) (default : string) :
  In (mapping_get m k default) (map snd m) \/ mapping_get m k default = default.
Proof.
  induction m as [| [k' s] m IH]; cbn [mapping_get map snd In]; [now right |].
  destruct (k =? k'); [left; now left |].
  destruct IH as [IH | IH]; [left; now right | now right].
Qed.

(** What a record returned on the Open-Meteo path was built from. *)
Lemma open_meteo_inv (net : network) (tzdb : string -> bool)
    (lat lon search_name : value) (out : weather_record) :
  outcome (open_meteo net tzdb lat lon search_name) = Ok out ->
  debug_source out = "open-meteo" /\
  exists (out0 : weather_record) (replace : bool),
    outcome (_open_meteo_fallback net lat lon) = Ok out0 /\
    (if truthy search_name
     then prefers_search_name_fallback search_name (name out0)
     else Ok false) = Ok replace /\
    name out = (if replace then search_name else name out0) /\
    weather out = weather out0 /\
    country out = country out0.
Proof.
  unfold open_meteo. rewrite outcome_bind.
  destruct (outcome (_open_meteo_fallback net lat lon)) as [out0 |]; [| discriminate].
  rewrite outcome_bind. cbn [lift outcome fst].
  match goal with
  | |- match ?o with _ => _ end = _ -> _ =>
      destruct o as [replace |] eqn:R; [| discriminate]
  end.
  rewrite outcome_bind.
  destruct (timezone_returns net tzdb lat lon VNone) as [info ->].
  cbn. intros H. inversion H; subst; clear H. cbn.
  split; [reflexivity |]. exists out0, replace. auto.
Qed.

(** [api_weather] returns on every input with both coordinates, and a
    record it returns comes from one of the two paths. *)
Lemma api_weather_cases (net : network) (tzdb : string -> bool) (key : string)
    (lat lon search_name : value) :
  is_none lat = false -> is_none lon = false ->
  exists resp : weather_response,
    outcome (api_weather net tzdb key lat lon search_name) = Ok resp /\
    (resp = unavailable
     \/ (exists out, resp = Weather out /\
           outcome (openweather net tzdb lat lon search_name) = Ok (Some out))
     \/ (exists out, resp = Weather out /\
           outcome (open_meteo net tzdb lat lon search_name) = Ok out)).
Proof.
  intros Hlat Hlon. unfold api_weather. rewrite Hlat, Hlon. cbn [orb].
  rewrite outcome_bind.
  assert (F : exists resp,
             outcome (try_except
                        (out <-- open_meteo net tzdb lat lon search_name ;;
                         ret (Weather out))
                        (ret unavailable)) = Ok resp /\
             (resp = unavailable \/
              exists out, resp = Weather out /\
                outcome (open_meteo net tzdb lat lon search_name) = Ok out)).
  { rewrite outcome_try, outcome_bind.
    destruct (outcome (open_meteo net tzdb lat lon search_name)) as [out |];
      eexists; (split; [reflexivity |]); eauto. }
  destruct F as [resp [E F]].
  destruct (negb (String.eqb key "")).
  - rewrite outcome_try.
    destruct (outcome (openweather net tzdb lat lon search_name)) as [[out |] |].
    + exists (Weather out). split; [reflexivity |]. right; left; eauto.
    + exists resp. cbn [outcome ret fst]. split; [exact E | tauto].
    + exists resp. cbn [outcome ret fst]. split; [exact E | tauto].
  - exists resp. cbn [outcome ret fst]. split; [exact E | tauto].
Qed.

Lemma api_weather_record (net : network) (tzdb : string -> bool) (key : string)
    (lat lon search_name : value) (out : weather_record) :
  outcome (api_weather net tzdb key lat lon search_name) = Ok (Weather out) ->
  outcome (openweather net tzdb lat lon search_name) = Ok (Some out)
  \/ outcome (open_meteo net tzdb lat lon search_name) = Ok out.
Proof.
  intros H.
  destruct (is_none lat) eqn:Hlat;
    [unfold api_weather in H; rewrite Hlat in H; discriminate H |].
  destruct (is_none lon) eqn:Hlon;
    [unfold api_weather in H; rewrite Hlat, Hlon in H; discriminate H |].
  destruct (api_weather_cases net tzdb key lat lon search_name Hlat Hlon)
    as [resp [E C]].
  rewrite E in H. inversion H; subst; clear H.
  destruct C as [C | [[o [C1 C2]] | [o [C1 C2]]]].
  - discriminate C.
  - inversion C1; subst. now left.
  - inversion C1; subst. now right.
Qed.

(** C1, as worded, fails: OpenWeather answers, its weather entry has no
    description, and the record returned has a null description. *)
Lemma null_description_returned :
  (exists out,
      outcome (api_weather (openweather_only payload_without_description) no_zones
                 "key" gurugram_lat gurugram_lon VNone) = Ok (Weather out)
      /\ debug_source out = "openweather"
      /\ weather out = VNone)
  /\ ~ description_or_error.
Proof.
  split.
  - eexists. split; [reflexivity |]. split; reflexivity.
  - intros H.
    specialize (H (openweather_only payload_without_description) no_zones
                  "key" gurugram_lat gurugram_lon VNone eq_refl eq_refl).
    cbn in H. now apply H.
Qed.

(** C1, amended.  With both coordinates present [api_weather] never raises.
    It answers with the service-unavailable error; or with a record of the
    Open-Meteo path, whose description is a string taken from the code
    table or "weather unavailable": the table's entry for the
    "weather_code" of the forecast when that code is an integer (the
    default when the table has none), and the default for a null code; or
    with a record of the OpenWeather path, whose description is the one of
    the first weather entry of the payload (null when the entry has
    none). *)
Theorem weather_description
    (net : network) (tzdb : string -> bool) (key : string)
    (lat lon search_name : value) :
  is_none lat = false -> is_none lon = false ->
  exists resp : weather_response,
    outcome (api_weather net tzdb key lat lon search_name) = Ok resp /\
    (resp = unavailable
     \/ exists out : weather_record,
          resp = Weather out /\
          ((debug_source out = "open-meteo" /\
            exists (cur code : value) (s : string),
              forecast_current (net (OpenMeteoForecast lat lon)) = Ok cur /\
              get cur "weather_code" = Ok code /\
              weather out = VStr s /\
              (In s (map snd mapping) \/ s = "weather unavailable") /\
              (forall k, code = VInt k ->
                         s = mapping_get mapping k "weather unavailable") /\
              (code = VNone -> s = "weather unavailable"))
           \/ (debug_source out = "openweather" /\
               exists payload,
                 net (OpenWeatherCurrent lat lon) = Reply true (Ok payload) /\
                 first_description payload = Ok (weather out)))).
Proof.
  intros Hlat Hlon.
  destruct (api_weather_cases net tzdb key lat lon search_name Hlat Hlon)
    as [resp [E C]].
  exists resp. split; [exact E |].
  destruct C as [C | [[out [C1 C2]] | [out [C1 C2]]]]; [now left | |].
  - right. exists out. split; [exact C1 |]. right.
    destruct (openweather_inv _ _ _ _ _ _ C2) as [S [payload [wn [N [_ [_ D]]]]]].
    split; [exact S |]. now exists payload.
  - right. exists out. split; [exact C1 |]. left.
    destruct (open_meteo_inv _ _ _ _ _ _ C2) as [S [out0 [b [F [_ [_ [W _]]]]]]].
    split; [exact S |].
    destruct (fallback_description_code _ _ _ _ F) as [cur [code [s [Cu [Co [D V]]]]]].
    exists cur, code, s. rewrite W.
    unfold _omap_weather_code_desc in D.
    destruct (if is_none code then Ok (-1) else int code) as [k |] eqn:K;
      cbn [bind] in D; [| discriminate D].
    assert (Es : s = mapping_get mapping k "weather unavailable") by congruence.
    clear D. subst s.
    split; [exact Cu |]. split; [exact Co |]. split; [exact V |].
    split; [apply mapping_get_range |]. split.
    + intros k' ->. cbn [is_none int] in K. congruence.
    + intros ->. cbn [is_none] in K.
      assert (Ek : k = -1) by congruence. now rewrite Ek.
Qed.

Lemma weather_description_witness :
  exists resp : weather_response,
    outcome (api_weather forecast_only no_zones "" paris_lat paris_lon VNone) = Ok resp /\
    (resp = unavailable
     \/ exists out : weather_record,
          resp = Weather out /\
          ((debug_source out = "open-meteo" /\
            exists (cur code : value) (s : string),
              forecast_current (forecast_only (OpenMeteoForecast paris_lat paris_lon))
              = Ok cur /\
              get cur "weather_code" = Ok code /\
              weather out = VStr s /\
              (In s (map snd mapping) \/ s = "weather unavailable") /\
              (forall k, code = VInt k ->
                         s = mapping_get mapping k "weather unavailable") /\
              (code = VNone -> s = "weather unavailable"))
           \/ (debug_source out = "openweather" /\
               exists payload,
                 forecast_only (OpenWeatherCurrent paris_lat paris_lon)
                 = Reply true (Ok payload) /\
                 first_description payload = Ok (weather out)))).
Proof.
  apply (weather_description forecast_only no_zones "" paris_lat paris_lon VNone);
    reflexivity.
Defined.

(** The two tests of the code agree with the selection rule when both
    names are present. *)
Lemma final_name_both (q c : string) :
  q <> "" -> c <> "" ->
  final_name (VStr q) (VStr c) = Ok (chosen q c).
Proof.
  intros Hq Hc. apply String.eqb_neq in Hq, Hc.
  unfold final_name, chosen, selects_query, prefers_search_name, more_tokens.
  cbn [truthy]. rewrite Hq, Hc. cbn [negb andb].
  destruct (contains "sector" (lower q)); [reflexivity |].
  destruct (contains "," q); [reflexivity |].
  cbn [bind orb]. now destruct (Nat.ltb _ _).
Qed.

Lemma fallback_test_both (q c : string) :
  q <> "" -> c <> "" ->
  (if truthy (VStr q)
   then prefers_search_name_fallback (VStr q) (VStr c)
   else Ok false) = Ok (selects_query q c).
Proof.
  intros Hq Hc. apply String.eqb_neq in Hq, Hc.
  unfold selects_query, prefers_search_name_fallback, more_tokens.
  cbn [truthy]. rewrite Hq, Hc. cbn [negb].
  destruct (contains "sector" (lower q)); [reflexivity |].
  destruct (contains "," q); reflexivity.
Qed.

(** C4.  When the query name [q] and the provider's name [c] are both
    present, the name of the record [api_weather] returns is [q] when [q]
    contains "sector" (in any case) or a comma, or has more tokens than
    [c], and is [c] otherwise: on the OpenWeather path, where [c] is the
    name in the payload, and on the Open-Meteo path, where [c] is the name
    found by reverse geocoding.  (When [q] and [c] are the same text the
    choice is not visible in the record.)  The names are any texts whose
    white space is ASCII, on which [split] counts the tokens as
    [str.split] does.  "Sector 14, Gurugram" is chosen over "Gurugram",
    and "Paris, Île-de-France, France" over "Paris". *)
Theorem name_disambiguation :
  (forall (net : network) (tzdb : string -> bool) (key : string)
          (lat lon : value) (q c : string) (out : weather_record),
      q <> "" -> c <> "" ->
      ascii_blanks q = true -> ascii_blanks c = true ->
      outcome (api_weather net tzdb key lat lon (VStr q)) = Ok (Weather out) ->
      (debug_source out = "openweather" ->
       forall payload,
         net (OpenWeatherCurrent lat lon) = Reply true (Ok payload) ->
         get payload "name" = Ok (VStr c) ->
         name out = chosen q c)
      /\ (debug_source out = "open-meteo" ->
          forall out0,
            outcome (_open_meteo_fallback net lat lon) = Ok out0 ->
            name out0 = VStr c ->
            name out = chosen q c))
  /\ chosen "Sector 14, Gurugram" "Gurugram" = VStr "Sector 14, Gurugram"
  /\ chosen "Paris" "Paris, Île-de-France, France" = VStr "Paris, Île-de-France, France"
  /\ final_name (VStr "Sector 14, Gurugram") (VStr "Gurugram")
     = Ok (VStr "Sector 14, Gurugram")
  /\ final_name (VStr "Paris") (VStr "Paris, Île-de-France, France")
     = Ok (VStr "Paris, Île-de-France, France")
  /\ ascii_blanks "Paris, Île-de-France, France" = true.
Proof.
  split; [| repeat split; reflexivity].
  intros net tzdb key lat lon q c out Hq Hc _ _ H.
  apply api_weather_record in H. destruct H as [H | H].
  - destruct (openweather_inv _ _ _ _ _ _ H) as [S [payload [wn [N [G [F _]]]]]].
    split.
    + intros _ payload' N' G'. rewrite N in N'. inversion N'; subst payload'.
      rewrite G in G'. inversion G'; subst wn.
      rewrite (final_name_both q c Hq Hc) in F. now inversion F.
    + intros S'. rewrite S in S'. discriminate S'.
  - destruct (open_meteo_inv _ _ _ _ _ _ H) as [S [out0 [b [F [T [N _]]]]]].
    split.
    + intros S'. rewrite S in S'. discriminate S'.
    + intros _ out0' F' C. rewrite F in F'. inversion F'; subst out0'.
      rewrite C in T, N. rewrite (fallback_test_both q c Hq Hc) in T.
      inversion T; subst b. rewrite N. unfold chosen.
      now destruct (selects_query q c).
Qed.

Lemma name_disambiguation_witness :
  (exists out : weather_record,
      outcome (api_weather (openweather_only gurugram_payload) no_zones "key"
                 gurugram_lat gurugram_lon (VStr "Sector 14, Gurugram"))
      = Ok (Weather out)
      /\ name out = VStr "Sector 14, Gurugram")
  /\ (exists out : weather_record,
         outcome (api_weather nominatim_up no_zones ""
                    gurugram_lat gurugram_lon (VStr "Gurgaon"))
         = Ok (Weather out)
         /\ name out = VStr "Gurugram").
Proof.
  split.
  - eexists. split; [reflexivity |].
    refine (proj1 (proj1 name_disambiguation
                     (openweather_only gurugram_payload) no_zones "key"
                     gurugram_lat gurugram_lon "Sector 14, Gurugram" "Gurugram" _
                     _ _ eq_refl eq_refl eq_refl)
              eq_refl gurugram_payload eq_refl eq_refl);
      discriminate.
  - eexists. split; [reflexivity |].
    refine (proj2 (proj1 name_disambiguation
                     nominatim_up no_zones ""
                     gurugram_lat gurugram_lon "Gurgaon" "Gurugram" _
                     _ _ eq_refl eq_refl eq_refl)
              eq_refl _ eq_refl eq_refl);
      discriminate.
Defined.

(** With one name only, the OpenWeather path returns it, and the
    Open-Meteo path keeps the provider's name when there is no query name;
    with the query name only, the Open-Meteo path replaces the missing
    provider name just when the query contains "sector" or a comma. *)
Lemma single_name :
  (forall search_name weather_name : value,
      truthy search_name = true -> truthy weather_name = false ->
      final_name search_name weather_name = Ok search_name)
  /\ (forall search_name weather_name : value,
         truthy search_name = false ->
         final_name search_name weather_name = Ok weather_name)
  /\ (forall search_name original_name : value,
         truthy search_name = false ->
         (if truthy search_name
          then prefers_search_name_fallback search_name original_name
          else Ok false) = Ok false)
  /\ (forall (q : string) (original_name : value),
         truthy original_name = false ->
         prefers_search_name_fallback (VStr q) original_name
         = Ok (contains "sector" (lower q) || contains "," q)).
Proof.
  repeat split.
  - intros sn wn Hs Hw. unfold final_name. now rewrite Hs, Hw.
  - intros sn wn Hs. unfold final_name. now rewrite Hs.
  - intros sn wn Hs. now rewrite Hs.
  - intros q wn Hw. unfold prefers_search_name_fallback. rewrite Hw.
    destruct (contains "sector" (lower q)); [reflexivity |].
    now destruct (contains "," q).
Qed.

(** C5: the Open-Meteo path with only the query name present.  No
    OpenWeather key is configured, the query name is "Paris" and reverse
    geocoding finds no name: the record returned has a null name, where
    lines 261-262 of the OpenWeather path return the query name. *)
Theorem fallback_drops_query_name :
  (exists out : weather_record,
      outcome (api_weather forecast_only no_zones "" paris_lat paris_lon (VStr "Paris"))
      = Ok (Weather out)
      /\ debug_source out = "open-meteo"
      /\ name out = VNone)
  /\ final_name (VStr "Paris") VNone = Ok (VStr "Paris").
Proof.
  split; [| reflexivity].
  eexists. split; [reflexivity |]. split; reflexivity.
Qed.

(** C3: reverse geocoding of (28.4595, 77.0266) with Nominatim down.  The
    Open-Meteo reverse endpoint is called and answers with a named result
    that carries a country code; building the label raises (line 161), the
    handler swallows the exception before the country is read (line 163),
    and the record has a null name and a null country.  The country is
    only taken from a result that has no name part at all. *)
Theorem reverse_fallback_loses_country :
  (exists out : weather_record,
      _open_meteo_fallback (nominatim_down gurugram_result) gurugram_lat gurugram_lon
      = (Ok out,
         [OpenMeteoForecast gurugram_lat gurugram_lon;
          NominatimReverse gurugram_lat gurugram_lon;
          OpenMeteoReverse gurugram_lat gurugram_lon])
      /\ name out = VNone
      /\ country out = VNone)
  /\ sliced_label [VStr "Gurugram"; VStr "Haryana"] = Raised
  /\ (exists out : weather_record,
         outcome (_open_meteo_fallback
                    (nominatim_down (VDict [("country_code", VStr "IN")]))
                    gurugram_lat gurugram_lon) = Ok out
         /\ country out = VStr "IN").
Proof.
  split; [| split].
  - eexists. split; [reflexivity |]. split; reflexivity.
  - reflexivity.
  - eexists. split; reflexivity.
Qed.

End Weather.

(* ================================================================== *)
(** * GeocodeResolver *)
(* ================================================================== *)

Module Geocode.
Import Py Net App Spec IoFacts.

Lemma prefix_refl (s : string) : prefix s s = true.
Proof.
  induction s as [| c s IH]; [reflexivity |].
  simpl. now destruct (ascii_dec c c).
Qed.

Lemma contains_tail (needle : string) (c : ascii) (hay : string) :
  contains needle hay = true -> contains needle (String c hay) = true.
Proof.
  intros H. cbn [contains]. now destruct (prefix needle (String c hay)).
Qed.

Lemma endswith_contains (s suffix : string) :
  endswith s suffix = true -> contains suffix s = true.
Proof.
  induction s as [| c s IH]; cbn [endswith].
  - destruct (String.eqb_spec "" suffix) as [<- | _]; [reflexivity | discriminate].
  - destruct (String.eqb_spec (String c s) suffix) as [<- | _].
    + intros _. unfold contains. now rewrite prefix_refl.
    + intros H. now apply contains_tail, IH.
Qed.

(** A query that does not count as region-specific does not end with
    "india": the last guard of line 492 is implied by the first. *)
Lemma not_indian_not_india (q : string) :
  is_indian_specific q = false -> endswith (lower q) "india" = false.
Proof.
  unfold is_indian_specific. intros H.
  destruct (endswith (lower q) "india") eqn:E; [| reflexivity].
  apply endswith_contains in E.
  assert (X : existsb (fun term => contains term (lower q)) indian_terms = true).
  { apply existsb_exists. exists "india". split; [| exact E].
    unfold indian_terms. simpl. tauto. }
  congruence.
Qed.

Lemma or_else_none (b : io (option geocode_response)) :
  or_else (ret None) b = b.
Proof. unfold or_else, iobind, ret. now destruct b. Qed.

Lemma or_else_skip (t : list request) (b : io (option geocode_response)) :
  or_else (Ok None, t) b = (outcome b, (t ++ trace b)%list).
Proof. unfold or_else, iobind. now destruct b. Qed.

Lemma try_open_meteo_empty (net : network) (q : string) (autocomplete : bool) :
  no_results (net (OpenMeteoSearch q)) = true ->
  try_open_meteo net q autocomplete = (Ok None, [OpenMeteoSearch q]).
Proof.
  unfold no_results, try_open_meteo, http_get.
  destruct (net (OpenMeteoSearch q)) as [| [|] body]; try discriminate;
    [| reflexivity].
  cbn. destruct (results_of body) as [res |]; [| discriminate].
  cbn. now destruct (truthy res).
Qed.

Lemma try_nominatim_plain_empty (net : network) (q : string) :
  no_results_nominatim (net (NominatimSearch q)) = true ->
  try_nominatim_plain net q = (Ok None, [NominatimSearch q]).
Proof.
  unfold no_results_nominatim, try_nominatim_plain, http_get.
  destruct (net (NominatimSearch q)) as [| [|] [j |]]; try discriminate;
    try reflexivity.
  cbn. now destruct (truthy (por j (VList []))).
Qed.

Lemma try_nominatim_india_empty (net : network) (q : string) (autocomplete : bool) :
  no_results_nominatim (net (NominatimSearchIndia q)) = true ->
  try_nominatim_india net q autocomplete = (Ok None, [NominatimSearchIndia q]).
Proof.
  unfold no_results_nominatim, try_nominatim_india, http_get.
  destruct (net (NominatimSearchIndia q)) as [| [|] [j |]]; try discriminate;
    try reflexivity.
  cbn. now destruct (truthy (por j (VList []))).
Qed.

(** The loop over the suffixed queries asks for them in order; it ends
    with a record, or empty-handed after asking for all of them. *)
Lemma try_retries_shape (net : network) (retries : list string) :
  (forall q rest, retries = q :: rest ->
     exists t, trace (try_retries net retries) = OpenMeteoSearch q :: t) /\
  match outcome (try_retries net retries) with
  | Ok None => trace (try_retries net retries) = map OpenMeteoSearch retries
  | Ok (Some resp) => exists out, resp = Found out
  | Raised => True
  end.
Proof.
  induction retries as [| q rest [_ IH]].
  - split; [discriminate | reflexivity].
  - cbn [try_retries]. rewrite outcome_bind, trace_bind, outcome_get, trace_get.
    split.
    { intros q' rest' E. inversion E; subst. cbn. eauto. }
    destruct (net (OpenMeteoSearch q)) as [| ok body]; [exact I |].
    destruct ok; cbn [negb].
    2:{ destruct (outcome (try_retries net rest)) as [[resp |] |]; auto.
        cbn. now rewrite IH. }
    rewrite outcome_bind, trace_bind. cbn [lift outcome trace fst snd].
    destruct (results_of body) as [res |]; [| exact I].
    destruct (truthy res); cbn [negb].
    + destruct (item0 res) as [first |]; [| exact I].
      cbn [bind outcome fst]. destruct (open_meteo_place _ first); [| exact I].
      cbn. eauto.
    + destruct (outcome (try_retries net rest)) as [[resp |] |]; auto.
      cbn. now rewrite IH.
Qed.

(** With no results from the direct attempts, a query that is not
    region-specific goes on to the suffixed queries. *)
Lemma geocode_ladder (net : network) (q : string) (autocomplete : bool) :
  q <> "" ->
  is_indian_specific q = false ->
  no_results (net (OpenMeteoSearch q)) = true ->
  no_results_nominatim (net (NominatimSearch q)) = true ->
  let retried := try_retries net [q ++ ", India"; q ++ ", Kupwara, India"] in
  geocode net q autocomplete
  = (match outcome retried with
     | Ok (Some resp) => Ok resp
     | Ok None => Ok (GeocodeError 404 "No results")
     | Raised => Raised
     end,
     OpenMeteoSearch q :: NominatimSearch q :: trace retried).
Proof.
  intros Hq Hi Ho Hn retried. unfold geocode.
  rewrite Hi, (not_indian_not_india q Hi), (proj2 (String.eqb_neq q "") Hq).
  cbn [negb andb]. fold retried.
  rewrite or_else_none, (try_open_meteo_empty net q autocomplete Ho), or_else_skip.
  rewrite (try_nominatim_plain_empty net q Hn), or_else_skip.
  cbn [outcome trace fst snd app iobind].
  destruct retried as [[[resp |] |] t]; cbn; rewrite ?app_nil_r; reflexivity.
Qed.

(** The query "Kupwara" on a network without results: "kupwara" contains
    the region keyword "up", so the query counts as region-specific and
    the suffixed queries are skipped (lines 458 and 492). *)
Lemma kupwara_not_retried :
  is_indian_specific "Kupwara" = true
  /\ api_geocode empty_answers (Some "Kupwara") None
     = (Ok (GeocodeError 404 "No results"),
        [NominatimSearchIndia "Kupwara"; OpenMeteoSearch "Kupwara"])
  /\ ~ kupwara_retry.
Proof.
  split; [reflexivity | split; [reflexivity |]].
  intros H. specialize (H empty_answers None eq_refl eq_refl eq_refl).
  cbn in H. destruct H as [H | [H | []]]; discriminate H.
Qed.

(** C2.  The query "Kupwara" is not retried.  "kupwara" contains the
    two-letter region keyword "up", so the query counts as
    region-specific: with no results from Nominatim restricted to India
    and from Open-Meteo, the no-results error follows at once, and
    "Kupwara, India" is never asked for, against the comments of lines
    491-493.  The ladder itself works for a query [q] that contains none
    of the region keywords: when the direct attempts (Open-Meteo, then
    Nominatim) return zero results, the next request is the Open-Meteo
    search for [q ++ ", India"], and the no-results error is only returned
    after the search for [q ++ ", Kupwara, India"] as well.  There the
    query is any text whose white space is ASCII and that holds neither
    U+0130 nor U+212A, on which [strip] and the keyword test are those of
    [str]. *)
Theorem retry_ladder :
  (forall (net : network) (q0 : string) (autocomplete : option string),
      let q := strip q0 in
      plain_query q0 = true ->
      q <> "" ->
      is_indian_specific q = false ->
      no_results (net (OpenMeteoSearch q)) = true ->
      no_results_nominatim (net (NominatimSearch q)) = true ->
      exists rest : list request,
        trace (api_geocode net (Some q0) autocomplete)
        = OpenMeteoSearch q :: NominatimSearch q
          :: OpenMeteoSearch (q ++ ", India") :: rest
        /\ (outcome (api_geocode net (Some q0) autocomplete)
            = Ok (GeocodeError 404 "No results") ->
            rest = [OpenMeteoSearch (q ++ ", Kupwara, India")]))
  /\ (forall (net : network) (autocomplete : option string),
        no_results_nominatim (net (NominatimSearchIndia "Kupwara")) = true ->
        no_results (net (OpenMeteoSearch "Kupwara")) = true ->
        api_geocode net (Some "Kupwara") autocomplete
        = (Ok (GeocodeError 404 "No results"),
           [NominatimSearchIndia "Kupwara"; OpenMeteoSearch "Kupwara"])
        /\ ~ In (OpenMeteoSearch "Kupwara, India")
               (trace (api_geocode net (Some "Kupwara") autocomplete)))
  /\ is_indian_specific "Kupwara" = true
  /\ contains "up" (lower "Kupwara") = true.
Proof.
  split; [| split; [| split; reflexivity]].
  - intros net q0 autocomplete q _ Hq Hi Ho Hn.
    unfold api_geocode. fold q. rewrite (proj2 (String.eqb_neq q "") Hq).
    rewrite trace_try, outcome_try.
    rewrite (geocode_ladder net q _ Hq Hi Ho Hn).
    cbn [outcome trace fst snd ret].
    destruct (try_retries_shape net [q ++ ", India"; q ++ ", Kupwara, India"])
      as [T S].
    destruct (T _ _ eq_refl) as [t Et]. rewrite Et in *.
    destruct (outcome (try_retries net _)) as [[resp |] |];
      exists t; rewrite app_nil_r; (split; [reflexivity |]).
    + destruct S as [out ->]. discriminate.
    + intros _. cbn [map] in S. now inversion S.
    + discriminate.
  - intros net autocomplete Hn Ho.
    assert (E : api_geocode net (Some "Kupwara") autocomplete
                = (Ok (GeocodeError 404 "No results"),
                   [NominatimSearchIndia "Kupwara"; OpenMeteoSearch "Kupwara"])).
    { unfold api_geocode. change (strip "Kupwara") with "Kupwara".
      cbn [String.eqb Ascii.eqb Bool.eqb]. unfold geocode.
      change (is_indian_specific "Kupwara") with true. cbn [negb andb].
      rewrite (try_nominatim_india_empty net _ _ Hn), or_else_skip.
      rewrite (try_open_meteo_empty net _ _ Ho), or_else_skip.
      rewrite or_else_none.
      reflexivity. }
    split; [exact E |]. rewrite E. cbn [trace snd In].
    intros [H | [H | []]]; discriminate H.
Qed.

Lemma retry_ladder_witness :
  (exists rest : list request,
      trace (api_geocode empty_answers (Some "Handwara") None)
      = OpenMeteoSearch "Handwara" :: NominatimSearch "Handwara"
        :: OpenMeteoSearch "Handwara, India" :: rest
      /\ (outcome (api_geocode empty_answers (Some "Handwara") None)
          = Ok (GeocodeError 404 "No results") ->
          rest = [OpenMeteoSearch "Handwara, Kupwara, India"]))
  /\ api_geocode empty_answers (Some "Kupwara") (Some "1")
     = (Ok (GeocodeError 404 "No results"),
        [NominatimSearchIndia "Kupwara"; OpenMeteoSearch "Kupwara"]).
Proof.
  split.
  - apply (proj1 retry_ladder empty_answers "Handwara" None);
      [reflexivity | discriminate | reflexivity | reflexivity | reflexivity].
  - apply (proj1 (proj2 retry_ladder) empty_answers (Some "1")); reflexivity.
Defined.

End Geocode.

(* ================================================================== *)
(** * Further properties: the classifier and the description table *)
(* ================================================================== *)

Module ClassifierFacts.
Import Py Net App Spec Shapes PyFacts.

(** X1.  The description table and the classifier.  Every code of
    [mapping] has a class on the numeric path, and the description the
    table gives for it is classified like the code itself, except for the
    codes 1, 77, 85 and 86: "mainly clear" is sunny where 1 is cloudy, and
    "snow grains" and the snow showers are rain where 77, 85 and 86 are
    snow. *)
Theorem description_class (k : Z) (s : string) :
  In (k, s) mapping ->
  _omap_weather_code_desc (VInt k) = Ok s /\
  numeric_class k <> None /\
  (_get_weather_sound_type (VStr s) = _get_weather_sound_type (VInt k)
   <-> ~ In k divergent_codes).
Proof.
  intros H.
  assert (F : Forall (fun e =>
      _omap_weather_code_desc (VInt (fst e)) = Ok (snd e) /\
      (match numeric_class (fst e) with Some _ => true | None => false end) = true /\
      agrees e = negb (existsb (Z.eqb (fst e)) divergent_codes)) mapping).
  { unfold mapping. repeat constructor. }
  rewrite Forall_forall in F. destruct (F _ H) as [D [N A]]. cbn [fst snd] in *.
  split; [exact D |]. split.
  - intros E. rewrite E in N. discriminate N.
  - unfold agrees in A. cbn [fst snd] in A. split.
    + intros E I. rewrite E, String.eqb_refl in A.
      assert (X : existsb (Z.eqb k) divergent_codes = true).
      { apply existsb_exists. exists k. split; [exact I | apply Z.eqb_refl]. }
      rewrite X in A. discriminate A.
    + intros I. destruct (existsb (Z.eqb k) divergent_codes) eqn:X.
      * apply existsb_exists in X. destruct X as [x [Hx E]].
        apply Z.eqb_eq in E. subst x. contradiction.
      * now apply String.eqb_eq.
Qed.

Lemma description_class_witness :
  _omap_weather_code_desc (VInt 77) = Ok "snow grains" /\
  numeric_class 77 <> None /\
  (_get_weather_sound_type (VStr "snow grains") = _get_weather_sound_type (VInt 77)
   <-> ~ In 77 divergent_codes).
Proof.
  apply (description_class 77 "snow grains").
  unfold mapping. simpl. tauto.
Defined.

Lemma lower_char_idem (c : ascii) : lower_char (lower_char c) = lower_char c.
Proof. destruct c as [[] [] [] [] [] [] [] []]; reflexivity. Qed.

Lemma lower_idem (s : string) : lower (lower s) = lower s.
Proof. induction s as [| c s IH]; simpl; [| rewrite lower_char_idem, IH]; reflexivity. Qed.

Lemma lstrip_lower (sp : ascii -> bool) (s : string) :
  (forall c, sp (lower_char c) = sp c) ->
  lstrip_by sp (lower s) = lower (lstrip_by sp s).
Proof.
  intros H. induction s as [| c s IH]; simpl; [reflexivity |].
  rewrite H. now destruct (sp c).
Qed.

Lemma rstrip_lower (sp : ascii -> bool) (s : string) :
  (forall c, sp (lower_char c) = sp c) ->
  rstrip_by sp (lower s) = lower (rstrip_by sp s).
Proof.
  intros H. induction s as [| c s IH]; simpl; [reflexivity |].
  rewrite IH, H. destruct (rstrip_by sp s); simpl; [now destruct (sp c) | reflexivity].
Qed.

Lemma c_space_lower (c : ascii) : is_c_space (lower_char c) = is_c_space c.
Proof. destruct c as [[] [] [] [] [] [] [] []]; reflexivity. Qed.

Lemma parse_digits_lower (s : string) (acc : Z) (b : bool) :
  parse_digits (lower s) acc b = parse_digits s acc b.
Proof.
  revert acc b. induction s as [| c s IH]; intros acc b; simpl; [reflexivity |].
  assert (D : digit_val (lower_char c) = digit_val c)
    by (destruct c as [[] [] [] [] [] [] [] []]; reflexivity).
  assert (U : Ascii.eqb (lower_char c) "_" = Ascii.eqb c "_")
    by (destruct c as [[] [] [] [] [] [] [] []]; reflexivity).
  rewrite D, U. destruct (digit_val c); [apply IH |].
  destruct (Ascii.eqb c "_" && b); [apply IH | reflexivity].
Qed.

Lemma int_of_str_lower (s : string) : int_of_str (lower s) = int_of_str s.
Proof.
  unfold int_of_str.
  rewrite (lstrip_lower _ _ c_space_lower), (rstrip_lower _ _ c_space_lower).
  destruct (rstrip_by is_c_space (lstrip_by is_c_space s)) as [| c ds];
    [reflexivity |].
  cbn [lower].
  assert (P := parse_digits_lower (String c ds) 0 false).
  cbn [lower] in P.
  destruct c as [[] [] [] [] [] [] [] []];
    try exact P; cbn; now rewrite parse_digits_lower.
Qed.

(** X3.  The class of a text does not depend on the case of its letters:
    lowering it, as [api_ambient] does, changes nothing. *)
Theorem classifier_ignores_case (s : string) :
  _get_weather_sound_type (VStr (lower s)) = _get_weather_sound_type (VStr s).
Proof.
  unfold _get_weather_sound_type, textual_class. cbn [is_none unpack int str].
  now rewrite int_of_str_lower, lower_idem.
Qed.


Lemma has_key_lookup (d : list (string * value)) (k : string) (v : value) :
  lookup d k = Some v -> has_key d k = true.
Proof. unfold has_key. now intros ->. Qed.

(** dict observations with an integer id / code *)
(** X4.  A dict observation with an integer code is classified like the
    code: its "id" whatever else it holds, else a non-zero "weather_code",
    else its "code". *)
Theorem dict_code (d : list (string * value)) (z : Z) :
  (lookup d "id" = Some (VInt z) ->
   _get_weather_sound_type (VDict d) = _get_weather_sound_type (VInt z)) /\
  (has_key d "id" = false -> z <> 0 -> lookup d "weather_code" = Some (VInt z) ->
   _get_weather_sound_type (VDict d) = _get_weather_sound_type (VInt z)) /\
  (has_key d "id" = false -> has_key d "weather_code" = false ->
   lookup d "code" = Some (VInt z) ->
   _get_weather_sound_type (VDict d) = _get_weather_sound_type (VInt z)).
Proof.
  repeat split.
  - intros H. unfold _get_weather_sound_type. cbn [is_none].
    replace (unpack (VDict d)) with (VInt z); [reflexivity |].
    unfold unpack. rewrite (has_key_lookup _ _ _ H). cbn. now rewrite H.
  - intros Hid Hz H. unfold _get_weather_sound_type. cbn [is_none].
    replace (unpack (VDict d)) with (VInt z); [reflexivity |].
    unfold unpack. rewrite Hid, (has_key_lookup _ _ _ H). cbn. rewrite H.
    unfold por. cbn [truthy]. apply Z.eqb_neq in Hz. rewrite Hz. cbn.
    now destruct (lookup d "code").
  - intros Hid Hwc H. unfold _get_weather_sound_type. cbn [is_none].
    replace (unpack (VDict d)) with (VInt z); [reflexivity |].
    unfold unpack. rewrite Hid, Hwc, (has_key_lookup _ _ _ H). cbn.
    unfold has_key in Hwc. destruct (lookup d "weather_code"); [discriminate |].
    rewrite H. reflexivity.
Qed.

Lemma dict_code_witness :
  _get_weather_sound_type (VDict [("id", VInt 800); ("description", VStr "rain")])
  = _get_weather_sound_type (VInt 800)
  /\ _get_weather_sound_type (VDict [("weather_code", VInt 95); ("code", VInt 3)])
     = _get_weather_sound_type (VInt 95)
  /\ _get_weather_sound_type (VDict [("code", VInt 71)])
     = _get_weather_sound_type (VInt 71).
Proof.
  split; [| split].
  - apply (proj1 (dict_code [("id", VInt 800); ("description", VStr "rain")] 800)).
    reflexivity.
  - apply (proj1 (proj2 (dict_code [("weather_code", VInt 95); ("code", VInt 3)] 95)));
      [reflexivity | discriminate | reflexivity].
  - apply (proj2 (proj2 (dict_code [("code", VInt 71)] 71))); reflexivity.
Defined.

(** weather_code 0 is treated as missing *)
(** X5.  A "weather_code" of 0 (clear sky) counts as missing: without an
    "id" or a "code", the dict is classified by its description, and is
    "ambient" when it has none, where the integer 0 itself is "sunny". *)
Theorem dict_clear_sky_code (d : list (string * value)) :
  has_key d "id" = false ->
  lookup d "weather_code" = Some (VInt 0) ->
  lookup d "code" = None ->
  (forall t, lookup d "description" = Some (VStr t) -> t <> "" ->
     _get_weather_sound_type (VDict d) = _get_weather_sound_type (VStr t)) /\
  (lookup d "description" = None -> lookup d "weather" = None ->
     _get_weather_sound_type (VDict d) = "ambient") /\
  _get_weather_sound_type (VInt 0) = "sunny".
Proof.
  intros Hid Hwc Hc.
  assert (U : unpack (VDict d)
              = por (por (match lookup d "description" with Some x => x | None => VNone end)
                         (match lookup d "weather" with Some x => x | None => VNone end))
                    (VStr "")).
  { unfold unpack. rewrite Hid, (has_key_lookup _ _ _ Hwc). cbn.
    rewrite Hwc, Hc. reflexivity. }
  repeat split.
  - intros t Ht Hne. unfold _get_weather_sound_type. cbn [is_none]. rewrite U, Ht.
    apply String.eqb_neq in Hne. unfold por.
    cbn [truthy]. rewrite Hne. cbn [negb truthy]. rewrite Hne. reflexivity.
  - intros Hd Hw. unfold _get_weather_sound_type. cbn [is_none]. rewrite U, Hd, Hw.
    reflexivity.
Qed.

Lemma dict_clear_sky_code_witness :
  _get_weather_sound_type
    (VDict [("weather_code", VInt 0); ("description", VStr "light rain")])
  = _get_weather_sound_type (VStr "light rain")
  /\ _get_weather_sound_type (VDict [("weather_code", VInt 0)]) = "ambient".
Proof.
  split.
  - apply (proj1 (dict_clear_sky_code
                    [("weather_code", VInt 0); ("description", VStr "light rain")]
                    eq_refl eq_refl eq_refl) "light rain");
      [reflexivity | discriminate].
  - apply (proj1 (proj2 (dict_clear_sky_code [("weather_code", VInt 0)]
                           eq_refl eq_refl eq_refl)));
      reflexivity.
Defined.

Lemma mapping_get_cases (m : list (Z * string)) (k : Z) (default : string) :
  (In k (map fst m) /\ In (k, mapping_get m k default) m)
  \/ (~ In k (map fst m) /\ mapping_get m k default = default).
Proof.
  induction m as [| [k' s] m IH]; simpl; [right; tauto |].
  destruct (Z.eqb_spec k k') as [-> | N].
  - left. tauto.
  - destruct IH as [[I1 I2] | [I1 I2]]; [left | right]; intuition congruence.
Qed.

(** X2.  On a plain code (a number, or ASCII text of at most 4300
    characters, for which the [int()] of the model is CPython's)
    [_omap_weather_code_desc] raises exactly when [int()] does on a code
    that is not [None]; otherwise its description is never empty, and is
    "weather unavailable" exactly for [None] and for the integers that are
    no key of the table. *)
Theorem description_default (code : value) :
  plain code = true ->
  match (if is_none code then Ok (-1) else int code) with
  | Raised => _omap_weather_code_desc code = Raised
  | Ok k =>
      exists s, _omap_weather_code_desc code = Ok s /\ s <> "" /\
                (s = "weather unavailable" <-> ~ In k (map fst mapping))
  end.
Proof.
  intros _. unfold _omap_weather_code_desc.
  destruct (if is_none code then Ok (-1) else int code) as [k |]; [| reflexivity].
  cbn [bind]. eexists. split; [reflexivity |].
  assert (F : Forall (fun e => snd e <> "" /\ snd e <> "weather unavailable") mapping).
  { unfold mapping. repeat constructor; discriminate. }
  rewrite Forall_forall in F.
  destruct (mapping_get_cases mapping k "weather unavailable") as [[I1 I2] | [I1 I2]].
  - destruct (F _ I2) as [A B]. cbn [snd] in A, B. split; [exact A |].
    split; [intros E; contradiction | intros N; contradiction].
  - rewrite I2. split; [discriminate |]. tauto.
Qed.

Lemma description_default_witness :
  (exists s, _omap_weather_code_desc (VStr " 95 ") = Ok s /\ s <> "" /\
             (s = "weather unavailable" <-> ~ In 95 (map fst mapping)))
  /\ _omap_weather_code_desc (VStr "n/a") = Raised.
Proof.
  split.
  - exact (description_default (VStr " 95 ") eq_refl).
  - exact (description_default (VStr "n/a") eq_refl).
Defined.


End ClassifierFacts.

(* ================================================================== *)
(** * Further properties: the timezone resolver *)
(* ================================================================== *)

Module TimezoneFacts.
Import Py Net App Spec Shapes IoFacts Timezone.

Lemma provider_timezone_trace (net : network) (tzdb : string -> bool) (lat lon : value) :
  trace (provider_timezone net tzdb lat lon) = [OpenMeteoTimezone lat lon].
Proof.
  unfold provider_timezone. rewrite trace_bind, trace_get, outcome_get.
  destruct (net (OpenMeteoTimezone lat lon)) as [| [|] body]; reflexivity.
Qed.

Lemma timezone_trace
    (net : network) (tzdb : string -> bool) (lat lon fallback : value) :
  trace (_get_timezone_and_localtime net tzdb lat lon fallback)
  = [OpenMeteoTimezone lat lon].
Proof.
  unfold _get_timezone_and_localtime.
  rewrite trace_bind, trace_try, provider_timezone_trace.
  destruct (provider_timezone_found net tzdb lat lon) as [found [E _]].
  rewrite E. rewrite outcome_try in E.
  destruct (outcome (provider_timezone net tzdb lat lon)) as [f |];
    destruct found as [info |]; try reflexivity;
    destruct (negb (is_none fallback)); try reflexivity;
    destruct (fixed_offset fallback); reflexivity.
Qed.

(** X6.  [_get_timezone_and_localtime] asks the timezone provider once,
    whatever it answers, and returns a record: it issues no other request
    and never raises. *)
Theorem timezone_one_request
    (net : network) (tzdb : string -> bool) (lat lon fallback : value) :
  exists info : tz_info,
    _get_timezone_and_localtime net tzdb lat lon fallback
    = (Ok info, [OpenMeteoTimezone lat lon]).
Proof.
  destruct (timezone_returns net tzdb lat lon fallback) as [info E].
  pose proof (timezone_trace net tzdb lat lon fallback) as T.
  exists info. unfold outcome, trace in *.
  destruct (_get_timezone_and_localtime net tzdb lat lon fallback) as [r t].
  cbn in *. now subst.
Qed.

Lemma fixed_offset_range (v : value) (n : Z) :
  fixed_offset v = Ok n -> int v = Ok n /\ -86400 < n < 86400.
Proof.
  unfold fixed_offset. destruct (int v) as [m |]; cbn [bind]; [| discriminate].
  destruct (-86400 <? m) eqn:A; destruct (m <? 86400) eqn:B; cbn; try discriminate.
  intros H. inversion H; subst. split; [reflexivity | lia].
Qed.

Lemma provider_coherent (net : network) (tzdb : string -> bool) (lat lon : value)
    (info : tz_info) :
  outcome (try_except (provider_timezone net tzdb lat lon) (ret None)) = Ok (Some info) ->
  coherent tzdb info.
Proof.
  rewrite outcome_try. unfold provider_timezone.
  rewrite outcome_bind, outcome_get.
  destruct (net (OpenMeteoTimezone lat lon)) as [| [|] [j0 |]]; try discriminate.
  cbn [outcome lift fst bind].
  destruct (get (por j0 (VDict [])) "timezone") as [tzname |]; [| discriminate].
  destruct (get (por j0 (VDict [])) "utc_offset_seconds") as [utc_off |];
    [| discriminate].
  cbn [bind]. rewrite by_name_usable.
  destruct (usable_zone tzdb tzname) eqn:U.
  { intros H. inversion H; subst; clear H. unfold coherent. cbn.
    destruct tzname; try discriminate U. cbn in *.
    apply andb_true_iff in U as [U1 U2].
    repeat split; [| exact U2].
    intros ->. discriminate U1. }
  destruct (negb (is_none utc_off)); [| discriminate].
  destruct (fixed_offset utc_off) as [n |] eqn:F; cbn [bind]; [| discriminate].
  intros H. inversion H; subst; clear H. unfold coherent. cbn.
  apply fixed_offset_range in F. tauto.
Qed.

(** X7.  The record of [_get_timezone_and_localtime] is coherent: a local
    time in a named zone comes with that name, which is a key of the zone
    database; a local time at a fixed offset comes with no zone name and
    with that offset, an integer strictly within a day; and no local time
    comes with no zone name and no offset. *)
Theorem timezone_coherent
    (net : network) (tzdb : string -> bool) (lat lon fallback : value) :
  exists info : tz_info,
    outcome (_get_timezone_and_localtime net tzdb lat lon fallback) = Ok info /\
    coherent tzdb info.
Proof.
  unfold _get_timezone_and_localtime. rewrite outcome_bind.
  destruct (provider_timezone_found net tzdb lat lon) as [found [E _]].
  pose proof (provider_coherent net tzdb lat lon) as C. rewrite E in C. rewrite E.
  destruct found as [info |].
  - exists info. split; [reflexivity |]. now apply C.
  - destruct (negb (is_none fallback)).
    + destruct (fixed_offset fallback) as [n |] eqn:F.
      * eexists. split; [reflexivity |]. unfold coherent. cbn.
        apply fixed_offset_range in F. tauto.
      * eexists. split; [reflexivity |]. unfold coherent. cbn. tauto.
    + eexists. split; [reflexivity |]. unfold coherent. cbn. tauto.
Qed.

Lemma provider_by_name (net : network) (tzdb : string -> bool) (lat lon : value)
    (z : string) (offset : value) :
  supplied (net (OpenMeteoTimezone lat lon)) = Some (VStr z, offset) ->
  usable_zone tzdb (VStr z) = true ->
  outcome (try_except (provider_timezone net tzdb lat lon) (ret None))
  = Ok (Some (mkTz (VStr z) (Some (InZone z)) offset)).
Proof.
  unfold supplied. rewrite outcome_try. unfold provider_timezone.
  rewrite outcome_bind, outcome_get.
  destruct (net (OpenMeteoTimezone lat lon)) as [| [|] [j0 |]]; try discriminate.
  cbn [outcome lift fst bind].
  destruct (get (por j0 (VDict [])) "timezone") as [tzname |]; [| discriminate].
  destruct (get (por j0 (VDict [])) "utc_offset_seconds") as [utc_off |];
    [| discriminate].
  intros S U. injection S as -> ->.
  cbn [bind]. rewrite by_name_usable, U. reflexivity.
Qed.

(** X8.  The tiers are tried in order.  When the provider supplies a usable
    zone name or offset, the caller's fallback offset is ignored.  A usable
    zone name wins over the offset: the result is the local time in that
    very zone, under that name, with the offset as the provider sent it.
    When the provider supplies neither, a fallback offset within a day is
    the offset of the result.  Where an offset is read, it is plain (a
    number, or ASCII text of at most 4300 characters). *)
Theorem provider_before_fallback
    (net : network) (tzdb : string -> bool) (lat lon : value) :
  let r := net (OpenMeteoTimezone lat lon) in
  (tier1 tzdb r = true \/ (tier2 r = true /\ plain_offset r = true) ->
   forall fb1 fb2,
     outcome (_get_timezone_and_localtime net tzdb lat lon fb1)
     = outcome (_get_timezone_and_localtime net tzdb lat lon fb2)) /\
  (forall (z : string) (offset : value),
     supplied r = Some (VStr z, offset) ->
     usable_zone tzdb (VStr z) = true ->
     forall fb,
       outcome (_get_timezone_and_localtime net tzdb lat lon fb)
       = Ok (mkTz (VStr z) (Some (InZone z)) offset)) /\
  (tier1 tzdb r = false -> tier2 r = false -> plain_offset r = true ->
   forall fb n, plain fb = true -> fixed_offset fb = Ok n ->
     outcome (_get_timezone_and_localtime net tzdb lat lon fb)
     = Ok (mkTz VNone (Some (AtOffset n)) (VInt n))).
Proof.
  intros r.
  destruct (provider_timezone_found net tzdb lat lon) as [found [E [F _]]].
  fold r in F.
  split; [| split].
  - intros T fb1 fb2. unfold _get_timezone_and_localtime.
    rewrite !outcome_bind, E.
    destruct found as [info |]; [reflexivity |].
    destruct (proj1 F eq_refl) as [A B].
    destruct T as [T | [T _]]; congruence.
  - intros z offset S U fb. unfold _get_timezone_and_localtime.
    rewrite outcome_bind, (provider_by_name net tzdb lat lon z offset S U).
    reflexivity.
  - intros T1 T2 _ fb n _ Hn. unfold _get_timezone_and_localtime.
    rewrite outcome_bind, E.
    destruct found as [info |].
    + destruct F as [_ F]. discriminate (F (conj T1 T2)).
    + assert (N : is_none fb = false).
      { destruct fb; try reflexivity. discriminate Hn. }
      rewrite N, Hn. reflexivity.
Qed.

Lemma provider_before_fallback_witness :
  outcome (_get_timezone_and_localtime kolkata only_kolkata (VInt 28) (VInt 77) VNone)
  = outcome (_get_timezone_and_localtime kolkata only_kolkata (VInt 28) (VInt 77)
               (VInt 3600))
  /\ outcome (_get_timezone_and_localtime kolkata only_kolkata (VInt 28) (VInt 77)
                (VInt 3600))
     = Ok (mkTz (VStr "Asia/Kolkata") (Some (InZone "Asia/Kolkata")) (VInt 19800))
  /\ outcome (_get_timezone_and_localtime empty_answers no_zones (VInt 28) (VInt 77)
                (VStr "3600"))
     = Ok (mkTz VNone (Some (AtOffset 3600)) (VInt 3600)).
Proof.
  split; [| split].
  - apply (proj1 (provider_before_fallback kolkata only_kolkata (VInt 28) (VInt 77))).
    left. reflexivity.
  - apply (proj1 (proj2 (provider_before_fallback kolkata only_kolkata
                           (VInt 28) (VInt 77)))
             "Asia/Kolkata" (VInt 19800));
      reflexivity.
  - apply (proj2 (proj2 (provider_before_fallback empty_answers no_zones
                           (VInt 28) (VInt 77))));
      reflexivity.
Defined.


End TimezoneFacts.

(* ================================================================== *)
(** * Further properties: the weather resolver *)
(* ================================================================== *)

Module WeatherFacts.
Import Py Net App Spec Shapes IoFacts Timezone TimezoneFacts Weather.

Lemma trace_lift {A : Type} (r : result A) : trace (lift r) = [].
Proof. reflexivity. Qed.

Lemma outcome_lift {A : Type} (r : result A) : outcome (lift r) = r.
Proof. reflexivity. Qed.

Lemma openweather_trace (net : network) (tzdb : string -> bool)
    (lat lon search_name : value) :
  trace (openweather net tzdb lat lon search_name)
  = match outcome (openweather net tzdb lat lon search_name) with
    | Ok (Some _) => [OpenWeatherCurrent lat lon; OpenMeteoTimezone lat lon]
    | _ => [OpenWeatherCurrent lat lon]
    end.
Proof.
  unfold openweather. rewrite trace_bind, outcome_bind, trace_get, outcome_get.
  destruct (net (OpenWeatherCurrent lat lon)) as [| [|] body]; try reflexivity.
  rewrite trace_bind, outcome_bind, trace_lift, outcome_lift.
  match goal with
  | |- context [match ?r with Ok _ => _ | Raised => _ end] =>
      destruct r as [[out tz_offset] |]; [| reflexivity]
  end.
  rewrite trace_bind, outcome_bind, timezone_trace.
  destruct (timezone_returns net tzdb lat lon tz_offset) as [info ->].
  reflexivity.
Qed.

Lemma reverse_step_trace (m : io (option (value * value))) (old : value * value)
    (rq : request) :
  trace m = [rq] ->
  exists nc, try_except (r <-- m ;; ret (assigned r old)) (ret old) = (Ok nc, [rq]).
Proof.
  destruct m as [[r |] t]; cbn; intros ->; eauto.
Qed.

Lemma nominatim_reverse_trace (net : network) (lat lon : value) :
  trace (nominatim_reverse_name net lat lon) = [NominatimReverse lat lon].
Proof.
  unfold nominatim_reverse_name. rewrite trace_bind, trace_get, outcome_get.
  destruct (net (NominatimReverse lat lon)) as [| [|] body]; reflexivity.
Qed.

Lemma open_meteo_reverse_trace (net : network) (lat lon : value) :
  trace (open_meteo_reverse_name net lat lon) = [OpenMeteoReverse lat lon].
Proof.
  unfold open_meteo_reverse_name. rewrite trace_bind, trace_get, outcome_get.
  destruct (net (OpenMeteoReverse lat lon)) as [| [|] body]; reflexivity.
Qed.


Lemma first_present_truthy (fields : list (value * string)) (l : list value) :
  first_present fields = Ok l -> Forall (fun v => truthy v = true) l.
Proof.
  revert l. induction fields as [| [obj k] rest IH]; intros l; cbn.
  - intros H. inversion H. constructor.
  - destruct (get obj k) as [v |]; cbn [bind]; [| discriminate].
    destruct (truthy v) eqn:T; [| apply IH].
    intros H. inversion H. repeat constructor. exact T.
Qed.

Lemma append_nonempty (a b : string) : a <> "" -> (a ++ b)%string <> "".
Proof. destruct a; [congruence | discriminate]. Qed.

Lemma join_nonempty (sep s : string) (l : list string) :
  s <> "" -> join sep (s :: l) <> "".
Proof.
  intros H. unfold join. cbn [String.concat].
  destruct l; [exact H | now apply append_nonempty].
Qed.

(** A label joined from truthy parts is not empty. *)
Lemma join_unique_nonempty (parts : list value) (s : string) :
  parts <> [] ->
  Forall (fun v => truthy v = true) parts ->
  join_unique parts = Ok s -> s <> "".
Proof.
  intros N F. unfold join_unique.
  destruct parts as [| p parts]; [congruence |].
  inversion F as [| ? ? Tp _]; subst.
  cbn [strings_of]. destruct p as [| | | | s0 | |]; try discriminate.
  destruct (strings_of parts) as [ss |]; cbn [bind]; [| discriminate].
  intros H. injection H as <-.
  change (unique (s0 :: ss)) with (s0 :: unique_from [s0] ss).
  apply (join_nonempty ", " s0 (unique_from [s0] ss)).
  cbn in Tp. intros ->. discriminate Tp.
Qed.

Lemma nominatim_step (net : network) (lat lon : value) :
  exists nc,
    try_except (r <-- nominatim_reverse_name net lat lon ;;
                ret (assigned r (VNone, VNone)))
               (ret (VNone, VNone))
    = (Ok nc, [NominatimReverse lat lon])
    /\ (fst nc = VNone \/ exists s, fst nc = VStr s /\ s <> "")
    /\ (match net (NominatimReverse lat lon) with
        | Reply true (Ok _) => True
        | _ => nc = (VNone, VNone)
        end).
Proof.
  unfold nominatim_reverse_name, http_get.
  destruct (net (NominatimReverse lat lon)) as [| [|] [nj |]];
    try (eexists; split; [reflexivity |]; split; [now left | reflexivity]).
  cbn [iobind lift bind].
  match goal with
  | |- context [addr <- ?a ;; _] => destruct a as [addr |]; cbn [bind]
  end.
  2:{ eexists; split; [reflexivity |]; split; [now left | exact I]. }
  match goal with
  | |- context [local <- ?a ;; _] => destruct a as [local |] eqn:L; cbn [bind]
  end.
  2:{ eexists; split; [reflexivity |]; split; [now left | exact I]. }
  match goal with
  | |- context [city <- ?a ;; _] => destruct a as [city |] eqn:C; cbn [bind]
  end.
  2:{ eexists; split; [reflexivity |]; split; [now left | exact I]. }
  destruct (get addr "state") as [state |]; cbn [bind].
  2:{ eexists; split; [reflexivity |]; split; [now left | exact I]. }
  apply first_present_truthy in L, C.
  set (parts := if (Nat.ltb (List.length (local ++ city)) 2) && truthy state
                then ((local ++ city) ++ [state])%list else (local ++ city)%list).
  assert (F : Forall (fun v => truthy v = true) parts).
  { subst parts. destruct (Nat.ltb _ 2); cbn [andb];
      [destruct (truthy state) eqn:T |]; rewrite ?Forall_app; auto. }
  destruct parts as [| p ps] eqn:P.
  - cbn [bind].
    destruct (get addr "country_code"); cbn [bind];
      [| eexists; split; [reflexivity |]; split; [now left | exact I]].
    destruct (get addr "country"); cbn [bind];
      eexists; (split; [reflexivity |]); (split; [now left | exact I]).
  - destruct (join_unique (p :: ps)) as [s |] eqn:J; cbn [bind].
    2:{ eexists; split; [reflexivity |]; split; [now left | exact I]. }
    destruct (get addr "country_code"); cbn [bind];
      [| eexists; split; [reflexivity |]; split; [now left | exact I]].
    destruct (get addr "country"); cbn [bind];
      [| eexists; split; [reflexivity |]; split; [now left | exact I]].
    eexists. split; [reflexivity |]. split; [| exact I].
    right. exists s. split; [reflexivity |].
    apply (join_unique_nonempty (p :: ps)); [discriminate | exact F | exact J].
Qed.

Lemma open_meteo_step (net : network) (lat lon : value) (old : value * value) :
  exists nc,
    try_except (r <-- open_meteo_reverse_name net lat lon ;; ret (assigned r old))
               (ret old)
    = (Ok nc, [OpenMeteoReverse lat lon])
    /\ (nc = old \/ fst nc = VNone).
Proof.
  unfold open_meteo_reverse_name, http_get.
  destruct (net (OpenMeteoReverse lat lon)) as [| [|] [gj |]];
    try (eexists; split; [reflexivity | now left]).
  cbn [iobind lift bind].
  destruct (get gj "results") as [results |]; cbn [bind];
    [| eexists; split; [reflexivity | now left]].
  destruct (truthy results); [| eexists; split; [reflexivity | now left]].
  destruct (item0 results) as [first |]; cbn [bind];
    [| eexists; split; [reflexivity | now left]].
  repeat (match goal with
          | |- context [bind (get first ?k) _] =>
              destruct (get first k); cbn [bind];
              [| eexists; split; [reflexivity | now left]]
          end).
  destruct (sliced_label _) as [lbl |] eqn:S; cbn [bind];
    [| eexists; split; [reflexivity | now left]].
  repeat (match goal with
          | |- context [bind (get first ?k) _] =>
              destruct (get first k); cbn [bind];
              [| eexists; split; [reflexivity | now left]]
          end).
  eexists. split; [reflexivity |]. right. cbn.
  unfold sliced_label in S. destruct (filter truthy _); now inversion S.
Qed.

Lemma fallback_shape (net : network) (lat lon : value) :
  match forecast_current (net (OpenMeteoForecast lat lon)) with
  | Raised =>
      _open_meteo_fallback net lat lon = (Raised, [OpenMeteoForecast lat lon])
  | Ok cur =>
      exists nc,
        _open_meteo_fallback net lat lon
        = (fallback_record cur lat lon nc,
           OpenMeteoForecast lat lon :: NominatimReverse lat lon
           :: (if truthy (fst nc) then [] else [OpenMeteoReverse lat lon]))
        /\ (fst nc = VNone \/ exists s, fst nc = VStr s /\ s <> "")
        /\ (match net (NominatimReverse lat lon) with
            | Reply true (Ok _) => True
            | _ => fst nc = VNone
            end)
  end.
Proof.
  unfold _open_meteo_fallback, forecast_current, http_get.
  destruct (net (OpenMeteoForecast lat lon)) as [| [|] body]; try reflexivity.
  cbn [iobind lift].
  destruct (wj <- body ;; get_or (por wj (VDict [])) "current" (VDict [])) as [cur |];
    [| reflexivity].
  destruct (nominatim_step net lat lon) as [nc1 [E1 [N1 D1]]].
  rewrite E1. cbn [iobind].
  destruct (truthy (fst nc1)) eqn:T; cbn [negb].
  - exists nc1. rewrite T. cbn. split; [reflexivity |]. split; [exact N1 |].
    destruct (net (NominatimReverse lat lon)) as [| [|] [|]]; auto;
      rewrite D1 in T; discriminate T.
  - destruct (open_meteo_step net lat lon nc1) as [nc2 [E2 N2]].
    rewrite E2. cbn [iobind].
    assert (Z : fst nc1 = VNone).
    { destruct N1 as [N1 | [s [N1 Hs]]]; [exact N1 |].
      rewrite N1 in T. cbn in T. apply String.eqb_neq in Hs. rewrite Hs in T.
      discriminate T. }
    assert (Z2 : fst nc2 = VNone) by (destruct N2 as [-> | N2]; assumption).
    assert (T2 : truthy (fst nc2) = false) by now rewrite Z2.
    exists nc2. rewrite T2. cbn. split; [reflexivity |]. split; [now left |].
    now destruct (net (NominatimReverse lat lon)) as [| [|] [|]].
Qed.


Lemma open_meteo_trace (net : network) (tzdb : string -> bool)
    (lat lon search_name : value) :
  trace (open_meteo net tzdb lat lon search_name)
  = (trace (_open_meteo_fallback net lat lon)
     ++ match outcome (open_meteo net tzdb lat lon search_name) with
        | Ok _ => [OpenMeteoTimezone lat lon]
        | Raised => []
        end)%list.
Proof.
  unfold open_meteo. rewrite trace_bind, outcome_bind.
  destruct (outcome (_open_meteo_fallback net lat lon)) as [out0 |]; [| reflexivity].
  rewrite trace_bind, outcome_bind, trace_lift, outcome_lift.
  match goal with
  | |- context [match ?r with Ok _ => _ | Raised => _ end] =>
      destruct r as [replace |]; [| reflexivity]
  end.
  rewrite trace_bind, outcome_bind, timezone_trace.
  destruct (timezone_returns net tzdb lat lon VNone) as [info ->].
  reflexivity.
Qed.

Lemma fallback_trace_cases (net : network) (lat lon : value) :
  let t := trace (_open_meteo_fallback net lat lon) in
  (t = [OpenMeteoForecast lat lon]
   /\ outcome (_open_meteo_fallback net lat lon) = Raised)
  \/ t = [OpenMeteoForecast lat lon; NominatimReverse lat lon]
  \/ t = [OpenMeteoForecast lat lon; NominatimReverse lat lon; OpenMeteoReverse lat lon].
Proof.
  pose proof (fallback_shape net lat lon) as S.
  destruct (forecast_current (net (OpenMeteoForecast lat lon))) as [cur |].
  - destruct S as [nc [-> _]]. cbn. destruct (truthy (fst nc)); auto.
  - rewrite S. cbn. auto.
Qed.

(** The trace of [api_weather], by cases. *)
Lemma api_weather_trace (net : network) (tzdb : string -> bool) (key : string)
    (lat lon search_name : value) :
  is_none lat || is_none lon = false ->
  let primary := if negb (String.eqb key "")
                 then [OpenWeatherCurrent lat lon] else [] in
  let answer := outcome (api_weather net tzdb key lat lon search_name) in
  let t := trace (api_weather net tzdb key lat lon search_name) in
  (exists out, answer = Ok (Weather out) /\ debug_source out = "openweather"
               /\ key <> ""
               /\ t = [OpenWeatherCurrent lat lon; OpenMeteoTimezone lat lon])
  \/ (exists out, answer = Ok (Weather out) /\ debug_source out = "open-meteo"
       /\ (t = (primary ++ [OpenMeteoForecast lat lon; NominatimReverse lat lon;
                            OpenMeteoTimezone lat lon])%list
           \/ t = (primary ++ [OpenMeteoForecast lat lon; NominatimReverse lat lon;
                               OpenMeteoReverse lat lon;
                               OpenMeteoTimezone lat lon])%list))
  \/ (answer = Ok unavailable
       /\ (t = (primary ++ [OpenMeteoForecast lat lon])%list
           \/ t = (primary ++ [OpenMeteoForecast lat lon;
                               NominatimReverse lat lon])%list
           \/ t = (primary ++ [OpenMeteoForecast lat lon; NominatimReverse lat lon;
                               OpenMeteoReverse lat lon])%list)).
Proof.
  intros C primary answer t. subst answer t. unfold api_weather. rewrite C.
  rewrite trace_bind, outcome_bind.
  (* the fallback, on its own *)
  set (fb := try_except
               (out <-- open_meteo net tzdb lat lon search_name ;; ret (Weather out))
               (ret unavailable)).
  assert (F : (exists out, outcome fb = Ok (Weather out)
                 /\ debug_source out = "open-meteo"
                 /\ (trace fb = [OpenMeteoForecast lat lon; NominatimReverse lat lon;
                                 OpenMeteoTimezone lat lon]
                     \/ trace fb = [OpenMeteoForecast lat lon; NominatimReverse lat lon;
                                    OpenMeteoReverse lat lon;
                                    OpenMeteoTimezone lat lon]))
              \/ (outcome fb = Ok unavailable
                  /\ (trace fb = [OpenMeteoForecast lat lon]
                      \/ trace fb = [OpenMeteoForecast lat lon;
                                     NominatimReverse lat lon]
                      \/ trace fb = [OpenMeteoForecast lat lon; NominatimReverse lat lon;
                                     OpenMeteoReverse lat lon]))).
  { subst fb. rewrite outcome_try, trace_try, outcome_bind, trace_bind.
    rewrite open_meteo_trace.
    destruct (outcome (open_meteo net tzdb lat lon search_name)) as [out |] eqn:O.
    - left. exists out. split; [reflexivity |].
      destruct (open_meteo_inv _ _ _ _ _ _ O) as [S [out0 [b [F0 _]]]].
      split; [exact S |].
      destruct (fallback_trace_cases net lat lon) as [[_ R] | [T | T]].
      + rewrite R in F0. discriminate F0.
      + rewrite T. cbn. auto.
      + rewrite T. cbn. auto.
    - right. split; [reflexivity |].
      destruct (fallback_trace_cases net lat lon) as [[T _] | [T | T]];
        rewrite T; cbn; auto. }
  destruct (negb (String.eqb key "")) eqn:K; subst primary.
  - rewrite outcome_try, trace_try, openweather_trace.
    destruct (outcome (openweather net tzdb lat lon search_name))
      as [[out |] |] eqn:O.
    + left. exists out. split; [reflexivity |].
      destruct (openweather_inv _ _ _ _ _ _ O) as [S _].
      split; [exact S |]. split; [| reflexivity].
      intros ->. discriminate K.
    + cbn [ret outcome trace fst snd app].
      destruct F as [[out [A [B [T | T]]]] | [A [T | [T | T]]]];
        rewrite A, T; [right; left | right; left | right; right | right; right
                       | right; right]; eauto 10.
    + cbn [ret outcome trace fst snd app].
      destruct F as [[out [A [B [T | T]]]] | [A [T | [T | T]]]];
        rewrite A, T; [right; left | right; left | right; right | right; right
                       | right; right]; eauto 10.
  - cbn [ret outcome trace fst snd app].
    destruct F as [[out [A [B [T | T]]]] | [A [T | [T | T]]]];
      rewrite A, T; [right; left | right; left | right; right | right; right
                     | right; right]; eauto 10.
Qed.

Lemma subseq_nodup {A : Type} (l1 l2 : list A) :
  subseq l1 l2 -> NoDup l2 -> NoDup l1.
Proof.
  intros S. induction S as [l | x l1 l2 S IH | x l1 l2 S IH]; intros N.
  - constructor.
  - inversion N as [| ? ? Nx N']; subst. constructor; [| now apply IH].
    intros I. apply Nx. clear - S I.
    induction S as [l | y l1 l2 S IH | y l1 l2 S IH]; simpl in *; intuition.
  - inversion N; subst. now apply IH.
Qed.

Lemma subseq_length {A : Type} (l1 l2 : list A) :
  subseq l1 l2 -> (List.length l1 <= List.length l2)%nat.
Proof. induction 1; simpl; lia. Qed.

(** X11.  The requests of [api_weather] are taken, in this order, from:
    OpenWeather, the Open-Meteo forecast, the Nominatim reverse lookup, the
    Open-Meteo reverse lookup, the timezone lookup.  No endpoint is asked
    twice, so a call issues at most five requests. *)
Theorem weather_request_order (net : network) (tzdb : string -> bool) (key : string)
    (lat lon search_name : value) :
  let t := trace (api_weather net tzdb key lat lon search_name) in
  subseq t (weather_requests lat lon) /\ NoDup t /\ (List.length t <= 5)%nat.
Proof.
  intros t.
  assert (S : subseq t (weather_requests lat lon)).
  { subst t. destruct (is_none lat || is_none lon) eqn:C.
    - unfold api_weather. rewrite C. constructor.
    - pose proof (api_weather_trace net tzdb key lat lon search_name C) as T.
      cbv zeta in T. unfold weather_requests.
      destruct (negb (String.eqb key ""));
        destruct T as [[out [_ [_ [_ ->]]]]
                      | [[out [_ [_ [-> | ->]]]] | [_ [-> | [-> | ->]]]]];
        cbn [app]; repeat constructor. }
  split; [exact S | split].
  - apply (subseq_nodup _ _ S). unfold weather_requests.
    repeat constructor; simpl; intuition discriminate.
  - apply (subseq_length _ _ S).
Qed.



Lemma fallback_record_observation (cur lat lon : value) (nc nc' : value * value) :
  match fallback_record cur lat lon nc, fallback_record cur lat lon nc' with
  | Ok o, Ok o' => same_observation o o'
  | Raised, Raised => True
  | _, _ => False
  end.
Proof.
  unfold fallback_record.
  repeat (match goal with
          | |- context [bind ?m _] => destruct m; cbn [bind]; [| exact I]
          end).
  unfold same_observation. cbn. tauto.
Qed.

(** X12.  Reverse geocoding is best effort in [_open_meteo_fallback]:
    whether the function raises, and the weather, temperature, humidity,
    wind and coordinates of its record, depend on the forecast answer only,
    not on what the two reverse-geocoding providers do. *)
Theorem reverse_lookup_best_effort (net1 net2 : network) (lat lon : value) :
  net1 (OpenMeteoForecast lat lon) = net2 (OpenMeteoForecast lat lon) ->
  match outcome (_open_meteo_fallback net1 lat lon),
        outcome (_open_meteo_fallback net2 lat lon) with
  | Ok o1, Ok o2 => same_observation o1 o2
  | Raised, Raised => True
  | _, _ => False
  end.
Proof.
  intros E.
  pose proof (fallback_shape net1 lat lon) as S1.
  pose proof (fallback_shape net2 lat lon) as S2.
  rewrite E in S1.
  destruct (forecast_current (net2 (OpenMeteoForecast lat lon))) as [cur |].
  - destruct S1 as [nc1 [-> _]]. destruct S2 as [nc2 [-> _]].
    apply fallback_record_observation.
  - rewrite S1, S2. exact I.
Qed.

Lemma reverse_lookup_best_effort_witness :
  match outcome (_open_meteo_fallback forecast_only gurugram_lat gurugram_lon),
        outcome (_open_meteo_fallback nominatim_up gurugram_lat gurugram_lon) with
  | Ok o1, Ok o2 => same_observation o1 o2
  | Raised, Raised => True
  | _, _ => False
  end.
Proof.
  apply (reverse_lookup_best_effort forecast_only nominatim_up
           gurugram_lat gurugram_lon).
  reflexivity.
Defined.

(** X13.  The place name of a record of [_open_meteo_fallback] is null or
    a non-empty string, and it is null whenever Nominatim gave no JSON
    answer: the Open-Meteo reverse lookup never supplies a name. *)
Theorem fallback_place_name (net : network) (lat lon : value) (out : weather_record) :
  outcome (_open_meteo_fallback net lat lon) = Ok out ->
  (name out = VNone \/ exists s, name out = VStr s /\ s <> "")
  /\ (match net (NominatimReverse lat lon) with
      | Reply true (Ok _) => True
      | _ => name out = VNone
      end).
Proof.
  pose proof (fallback_shape net lat lon) as S.
  destruct (forecast_current (net (OpenMeteoForecast lat lon))) as [cur |].
  - destruct S as [nc [-> [N D]]]. cbn [outcome fst]. unfold fallback_record.
    repeat (match goal with
            | |- context [bind ?m _] => destruct m; cbn [bind]; [| discriminate]
            end).
    intros H. inversion H; subst; clear H. cbn. tauto.
  - rewrite S. discriminate.
Qed.

Lemma fallback_place_name_witness :
  exists out : weather_record,
    outcome (_open_meteo_fallback (nominatim_down gurugram_result)
               gurugram_lat gurugram_lon) = Ok out
    /\ (name out = VNone \/ exists s, name out = VStr s /\ s <> "")
    /\ name out = VNone.
Proof.
  eexists. split; [reflexivity |].
  apply (fallback_place_name (nominatim_down gurugram_result)
           gurugram_lat gurugram_lon).
  reflexivity.
Defined.

(** X9.  [api_weather] answers 400 exactly when [lat] or [lon] is missing
    (null), and then without any request; a coordinate 0 is not missing. *)
Theorem coordinates_checked_first (net : network) (tzdb : string -> bool)
    (key : string) (lat lon search_name : value) :
  (is_none lat || is_none lon = true ->
   api_weather net tzdb key lat lon search_name
   = (Ok (WeatherError 400 "lat and lon required"), []))
  /\ (is_none lat || is_none lon = false ->
      forall error, outcome (api_weather net tzdb key lat lon search_name)
                    <> Ok (WeatherError 400 error)).
Proof.
  split.
  - intros C. unfold api_weather. now rewrite C.
  - intros C error.
    apply orb_false_iff in C as [Hlat Hlon].
    destruct (api_weather_cases net tzdb key lat lon search_name Hlat Hlon)
      as [resp [-> [-> | [[out [-> _]] | [out [-> _]]]]]]; discriminate.
Qed.

Lemma coordinates_checked_first_witness :
  api_weather empty_answers no_zones "key" VNone (VInt 77) VNone
  = (Ok (WeatherError 400 "lat and lon required"), [])
  /\ (forall error,
        outcome (api_weather empty_answers no_zones "key" (VInt 0) (VInt 0) VNone)
        <> Ok (WeatherError 400 error)).
Proof.
  split.
  - apply (proj1 (coordinates_checked_first empty_answers no_zones "key"
                    VNone (VInt 77) VNone)).
    reflexivity.
  - apply (proj2 (coordinates_checked_first empty_answers no_zones "key"
                    (VInt 0) (VInt 0) VNone)).
    reflexivity.
Defined.

(** X10.  The choice of provider in [api_weather].  Without a key OpenWeather
    is never asked and every record is tagged "open-meteo"; with a key it
    is asked first.  A record tagged "openweather" costs two requests,
    OpenWeather and the timezone lookup.  Every record ends with the
    timezone lookup, and the service-unavailable answer never makes it. *)
Theorem provider_choice (net : network) (tzdb : string -> bool) (key : string)
    (lat lon search_name : value) :
  is_none lat || is_none lon = false ->
  let answer := outcome (api_weather net tzdb key lat lon search_name) in
  let t := trace (api_weather net tzdb key lat lon search_name) in
  (key = "" ->
   ~ In (OpenWeatherCurrent lat lon) t /\
   forall out, answer = Ok (Weather out) -> debug_source out = "open-meteo")
  /\ (key <> "" -> exists rest, t = OpenWeatherCurrent lat lon :: rest)
  /\ (forall out, answer = Ok (Weather out) -> debug_source out = "openweather" ->
      t = [OpenWeatherCurrent lat lon; OpenMeteoTimezone lat lon])
  /\ (forall out, answer = Ok (Weather out) ->
      exists before, t = (before ++ [OpenMeteoTimezone lat lon])%list)
  /\ (answer = Ok unavailable -> ~ In (OpenMeteoTimezone lat lon) t).
Proof.
  intros C answer t.
  pose proof (api_weather_trace net tzdb key lat lon search_name C) as T.
  cbv zeta in T. subst answer t.
  split; [| split; [| split; [| split]]].
  - intros ->. cbn in T. split.
    + destruct T as [[out [_ [_ [K _]]]]
                    | [[out [_ [_ [-> | ->]]]] | [_ [-> | [-> | ->]]]]];
        [congruence | | | | |]; simpl; intuition discriminate.
    + intros out A.
      destruct T as [[o [_ [_ [K _]]]] | [[o [A' [S _]]] | [A' _]]];
        [congruence | | rewrite A in A'; discriminate A'].
      rewrite A in A'. now inversion A'; subst.
  - intros K. apply String.eqb_neq in K. rewrite K in T. cbn in T.
    destruct T as [[out [_ [_ [_ ->]]]]
                  | [[out [_ [_ [-> | ->]]]] | [_ [-> | [-> | ->]]]]]; eauto.
  - intros out A S.
    destruct T as [[o [_ [_ [_ T]]]] | [[o [A' [S' _]]] | [A' _]]];
      [exact T | | rewrite A in A'; discriminate A'].
    rewrite A in A'. inversion A'; subst. rewrite S in S'. discriminate S'.
  - intros out A.
    destruct T as [[o [_ [_ [_ ->]]]] | [[o [_ [_ [-> | ->]]]] | [A' _]]].
    + now exists [OpenWeatherCurrent lat lon].
    + eexists (_ ++ [_; _])%list. now rewrite <- app_assoc.
    + eexists (_ ++ [_; _; _])%list. now rewrite <- app_assoc.
    + rewrite A in A'. discriminate A'.
  - intros A.
    destruct T as [[o [A' _]] | [[o [A' _]] | [_ T]]];
      try (rewrite A in A'; discriminate A').
    destruct (negb (String.eqb key ""));
      destruct T as [-> | [-> | ->]]; simpl; intuition discriminate.
Qed.

Lemma provider_choice_witness :
  ~ In (OpenWeatherCurrent gurugram_lat gurugram_lon)
       (trace (api_weather forecast_only no_zones "" gurugram_lat gurugram_lon VNone))
  /\ trace (api_weather (openweather_only gurugram_payload) no_zones "key"
              gurugram_lat gurugram_lon VNone)
     = [OpenWeatherCurrent gurugram_lat gurugram_lon;
        OpenMeteoTimezone gurugram_lat gurugram_lon]
  /\ ~ In (OpenMeteoTimezone gurugram_lat gurugram_lon)
          (trace (api_weather (openweather_only gurugram_payload) no_zones ""
                    gurugram_lat gurugram_lon VNone)).
Proof.
  split; [| split].
  - apply (proj1 (proj1 (provider_choice forecast_only no_zones ""
                           gurugram_lat gurugram_lon VNone eq_refl)
                    eq_refl)).
  - eapply (proj1 (proj2 (proj2 (provider_choice (openweather_only gurugram_payload)
                                   no_zones "key" gurugram_lat gurugram_lon VNone
                                   eq_refl))));
      reflexivity.
  - apply (proj2 (proj2 (proj2 (proj2 (provider_choice
                                         (openweather_only gurugram_payload)
                                         no_zones "" gurugram_lat gurugram_lon VNone
                                         eq_refl))))).
    reflexivity.
Defined.


Lemma fallback_needs_numbers (net : network) (lat lon : value) :
  is_number lat && is_number lon = false ->
  outcome (_open_meteo_fallback net lat lon) = Raised.
Proof.
  intros N.
  pose proof (fallback_shape net lat lon) as S.
  destruct (forecast_current (net (OpenMeteoForecast lat lon))) as [cur |].
  - destruct S as [nc [-> _]]. cbn [outcome fst]. unfold fallback_record.
    repeat (match goal with
            | |- context [bind (get ?a ?k) _] =>
                destruct (get a k); cbn [bind]; [| reflexivity]
            | |- context [bind (_omap_weather_code_desc ?a) _] =>
                destruct (_omap_weather_code_desc a); cbn [bind]; [| reflexivity]
            end).
    apply andb_false_iff in N as [N | N].
    + destruct lat; try discriminate N; reflexivity.
    + destruct (format_f6 lat); cbn [bind]; [| reflexivity].
      destruct lon; try discriminate N; reflexivity.
  - now rewrite S.
Qed.

(** X14.  Coordinates that are not numbers (a JSON string, say) are only
    served by OpenWeather: the Open-Meteo path formats them with [.6f],
    which raises, so without a key the answer is always the
    service-unavailable error. *)
Theorem non_numeric_coordinates (net : network) (tzdb : string -> bool)
    (key : string) (lat lon search_name : value) :
  is_none lat || is_none lon = false ->
  is_number lat && is_number lon = false ->
  let answer := outcome (api_weather net tzdb key lat lon search_name) in
  (answer = Ok unavailable
   \/ exists out, answer = Ok (Weather out) /\ debug_source out = "openweather")
  /\ (key = "" -> answer = Ok unavailable).
Proof.
  intros C N answer. subst answer.
  pose proof (fallback_needs_numbers net lat lon N) as R.
  apply orb_false_iff in C as [Hlat Hlon].
  destruct (api_weather_cases net tzdb key lat lon search_name Hlat Hlon)
    as [resp [E [-> | [[out [-> O]] | [out [-> O]]]]]].
  - split; [now left | intros _; exact E].
  - destruct (openweather_inv _ _ _ _ _ _ O) as [S _].
    split; [right; now exists out |].
    intros ->.
    pose proof (api_weather_trace net tzdb "" lat lon search_name) as T.
    rewrite Hlat, Hlon in T. specialize (T eq_refl). cbv zeta in T.
    rewrite E in T.
    destruct T as [[o [_ [_ [K _]]]] | [[o [A [S' _]]] | [A _]]];
      [congruence | | discriminate A].
    inversion A; subst. rewrite S in S'. discriminate S'.
  - destruct (open_meteo_inv _ _ _ _ _ _ O) as [_ [out0 [b [F _]]]].
    rewrite R in F. discriminate F.
Qed.

Lemma non_numeric_coordinates_witness :
  outcome (api_weather forecast_only no_zones "" (VStr "28.4595") gurugram_lon VNone)
  = Ok unavailable.
Proof.
  apply (proj2 (non_numeric_coordinates forecast_only no_zones ""
                  (VStr "28.4595") gurugram_lon VNone eq_refl eq_refl)).
  reflexivity.
Defined.


End WeatherFacts.

(* ================================================================== *)
(** * Further properties: the geocode resolver *)
(* ================================================================== *)

Module GeocodeFacts.
Import Py Net App Spec Shapes IoFacts Geocode WeatherFacts.

Ltac step_binds :=
  repeat match goal with
         | |- context [bind ?m _] => destruct m eqn:?; cbn [bind]; [| discriminate]
         end.

Lemma for_each_length {A B : Type} (f : A -> result B) (l : list A) (ys : list B) :
  for_each f l = Ok ys ->
  List.length ys = List.length l /\ Forall (fun y => exists x, f x = Ok y) ys.
Proof.
  revert ys. induction l as [| x l IH]; intros ys; cbn.
  - intros H. inversion H. split; [reflexivity | constructor].
  - destruct (f x) as [y |] eqn:F; cbn [bind]; [| discriminate].
    destruct (for_each f l) as [ys' |]; cbn [bind]; [| discriminate].
    intros H. inversion H; subst. destruct (IH ys' eq_refl) as [L Fa].
    split; [simpl; now rewrite L |]. constructor; eauto.
Qed.

Lemma items_upto_length (n : nat) (v : value) (items : list value) :
  truthy v = true -> items_upto (S n) v = Ok items ->
  (1 <= List.length items <= S n)%nat.
Proof.
  destruct v; try discriminate; cbn [items_upto truthy].
  - intros T H. inversion H; subst. destruct s; [discriminate T |].
    cbn [chars firstn List.length]. pose proof (firstn_le_length n (chars s)).
    rewrite length_firstn. lia.
  - intros T H. inversion H; subst. destruct l; [discriminate T |].
    cbn [firstn List.length]. rewrite length_firstn. lia.
Qed.

Lemma open_meteo_place_source (source : string) (first : value) (p : place) :
  open_meteo_place source first = Ok p -> place_source p = source.
Proof.
  unfold open_meteo_place. step_binds. intros H. now inversion H.
Qed.

Lemma nominatim_suggestion_source (q : string) (item : value) (p : place) :
  nominatim_suggestion q item = Ok p -> place_source p = "nominatim".
Proof.
  unfold nominatim_suggestion. step_binds. intros H. now inversion H.
Qed.

Lemma nominatim_place_source (q : string) (arr : value) (p : place) :
  nominatim_place q arr = Ok p -> place_source p = "nominatim".
Proof.
  unfold nominatim_place. step_binds. intros H. now inversion H.
Qed.

Lemma nominatim_plain_place_source (q : string) (arr : value) (p : place) :
  nominatim_plain_place q arr = Ok p -> place_source p = "nominatim".
Proof.
  unfold nominatim_plain_place. step_binds. intros H. now inversion H.
Qed.


Lemma outcome_or_else (a b : io (option geocode_response)) :
  outcome (or_else a b)
  = match outcome a with
    | Ok (Some resp) => Ok (Some resp)
    | Ok None => outcome b
    | Raised => Raised
    end.
Proof.
  unfold or_else. rewrite outcome_bind.
  destruct (outcome a) as [[resp |] |]; reflexivity.
Qed.

Lemma trace_or_else (a b : io (option geocode_response)) :
  trace (or_else a b)
  = (trace a ++ match outcome a with Ok None => trace b | _ => [] end)%list.
Proof.
  unfold or_else. rewrite trace_bind.
  destruct (outcome a) as [[resp |] |]; reflexivity.
Qed.


Lemma suggestions_from {A : Type} (f : A -> result place) (source : string)
    (items : list A) (l : list place) :
  (forall x p, f x = Ok p -> place_source p = source) ->
  for_each f items = Ok l ->
  List.length l = List.length items /\ from_source source l.
Proof.
  intros S H. destruct (for_each_length f items l H) as [L F].
  split; [exact L |]. unfold from_source. rewrite Forall_forall in *.
  intros p I. destruct (F p I) as [x Hx]. eauto.
Qed.

Lemma nominatim_india_attempt (net : network) (q : string) (autocomplete : bool) :
  trace (try_nominatim_india net q autocomplete) = [NominatimSearchIndia q]
  /\ forall resp,
       outcome (try_nominatim_india net q autocomplete) = Ok (Some resp) ->
       attempt_answer autocomplete ["nominatim"] resp.
Proof.
  unfold try_nominatim_india. rewrite trace_bind, outcome_bind, trace_get, outcome_get.
  destruct (net (NominatimSearchIndia q)) as [| [|] body];
    (split; [reflexivity |]); try discriminate.
  intros resp. cbn [outcome lift fst].
  destruct body as [j |]; cbn [bind]; [| discriminate].
  destruct (truthy (por j (VList []))) eqn:T; [| discriminate].
  destruct autocomplete.
  - destruct (items_upto 8 (por j (VList []))) as [items |] eqn:I; cbn [bind];
      [| discriminate].
    destruct (for_each (nominatim_suggestion q) items) as [l |] eqn:F; cbn [bind];
      [| discriminate].
    intros H. inversion H; subst. cbn.
    destruct (suggestions_from _ "nominatim" _ _ (nominatim_suggestion_source q) F)
      as [L S].
    pose proof (items_upto_length _ _ _ T I). split; [reflexivity |].
    split; [lia | now left].
  - destruct (nominatim_place q (por j (VList []))) as [p |] eqn:P; cbn [bind];
      [| discriminate].
    intros H. inversion H; subst. cbn. left.
    symmetry. now apply (nominatim_place_source q (por j (VList []))).
Qed.

Lemma open_meteo_attempt (net : network) (q : string) (autocomplete : bool) :
  trace (try_open_meteo net q autocomplete) = [OpenMeteoSearch q]
  /\ forall resp,
       outcome (try_open_meteo net q autocomplete) = Ok (Some resp) ->
       attempt_answer autocomplete ["open-meteo"] resp.
Proof.
  unfold try_open_meteo. rewrite trace_bind, outcome_bind, trace_get, outcome_get.
  destruct (net (OpenMeteoSearch q)) as [| [|] body];
    (split; [reflexivity |]); try discriminate.
  intros resp. cbn [outcome lift fst].
  destruct (results_of body) as [res |]; cbn [bind]; [| discriminate].
  destruct (truthy res) eqn:T; [| discriminate].
  destruct autocomplete.
  - destruct (items_upto 8 res) as [items |] eqn:I; cbn [bind]; [| discriminate].
    destruct (for_each (open_meteo_place "open-meteo") items) as [l |] eqn:F;
      cbn [bind]; [| discriminate].
    intros H. inversion H; subst. cbn.
    destruct (suggestions_from _ "open-meteo" _ _
                (open_meteo_place_source "open-meteo") F) as [L S].
    pose proof (items_upto_length _ _ _ T I). split; [reflexivity |].
    split; [lia | now right].
  - destruct (item0 res) as [first |]; cbn [bind]; [| discriminate].
    destruct (open_meteo_place "open-meteo" first) as [p |] eqn:P; cbn [bind];
      [| discriminate].
    intros H. inversion H; subst. cbn. left.
    symmetry. now apply (open_meteo_place_source _ first).
Qed.

Lemma nominatim_plain_attempt (net : network) (q : string) :
  trace (try_nominatim_plain net q) = [NominatimSearch q]
  /\ forall resp,
       outcome (try_nominatim_plain net q) = Ok (Some resp) ->
       exists out, resp = Found out /\ place_source out = "nominatim".
Proof.
  unfold try_nominatim_plain. rewrite trace_bind, outcome_bind, trace_get, outcome_get.
  destruct (net (NominatimSearch q)) as [| [|] body];
    (split; [reflexivity |]); try discriminate.
  intros resp. cbn [outcome lift fst].
  destruct body as [j |]; cbn [bind]; [| discriminate].
  destruct (truthy (por j (VList []))); [| discriminate].
  destruct (nominatim_plain_place q (por j (VList []))) as [p |] eqn:P; cbn [bind];
    [| discriminate].
  intros H. inversion H; subst. exists p. split; [reflexivity |].
  now apply (nominatim_plain_place_source q (por j (VList []))).
Qed.

Lemma retries_attempt (net : network) (retries : list string) :
  subseq (trace (try_retries net retries)) (map OpenMeteoSearch retries)
  /\ forall resp,
       outcome (try_retries net retries) = Ok (Some resp) ->
       exists out, resp = Found out /\ place_source out = "open-meteo-retry".
Proof.
  induction retries as [| q rest [IT IO]].
  - split; [constructor | discriminate].
  - cbn [try_retries map].
    rewrite trace_bind, outcome_bind, trace_get, outcome_get.
    destruct (net (OpenMeteoSearch q)) as [| ok body].
    { split; [repeat constructor | discriminate]. }
    destruct ok; cbn [negb].
    2:{ split; [now constructor | exact IO]. }
    rewrite trace_bind, outcome_bind. cbn [lift outcome trace fst snd].
    destruct (results_of body) as [res |].
    2:{ split; [repeat constructor | discriminate]. }
    destruct (truthy res); cbn [negb].
    + split; [repeat constructor |].
      intros resp. destruct (item0 res) as [first |]; cbn [bind]; [| discriminate].
      destruct (open_meteo_place "open-meteo-retry" first) as [p |] eqn:P;
        cbn [bind]; [| discriminate].
      intros H. inversion H; subst. exists p. split; [reflexivity |].
      now apply (open_meteo_place_source _ first).
    + split; [now constructor | exact IO].
Qed.


Lemma or_else_answers (P : geocode_response -> Prop)
    (a b : io (option geocode_response)) :
  (forall r, outcome a = Ok (Some r) -> P r) ->
  (forall r, outcome b = Ok (Some r) -> P r) ->
  forall r, outcome (or_else a b) = Ok (Some r) -> P r.
Proof.
  intros A B r. rewrite outcome_or_else.
  destruct (outcome a) as [[resp |] |]; [| apply B | discriminate].
  intros H. inversion H; subst. now apply A.
Qed.

Lemma subseq_app {A : Type} (l1 l1' l2 l2' : list A) :
  subseq l1 l1' -> subseq l2 l2' -> subseq (l1 ++ l2) (l1' ++ l2').
Proof.
  intros S1 S2. induction S1; cbn [app]; try (constructor; assumption).
  induction l as [| x l IH]; cbn [app]; [exact S2 | now constructor].
Qed.

Lemma subseq_refl {A : Type} (l : list A) : subseq l l.
Proof. induction l; now constructor. Qed.

Lemma or_else_requests (a b : io (option geocode_response)) (la lb : list request) :
  subseq (trace a) la -> subseq (trace b) lb ->
  subseq (trace (or_else a b)) (la ++ lb).
Proof.
  intros A B. rewrite trace_or_else. apply subseq_app; [exact A |].
  destruct (outcome a) as [[resp |] |]; [constructor | exact B | constructor].
Qed.

Lemma append_inv_l (q a b : string) : (q ++ a)%string = (q ++ b)%string -> a = b.
Proof. induction q as [| c q IH]; cbn; [auto |]. intros H. inversion H. auto. Qed.

Lemma append_not_self (q a : string) : a <> "" -> (q ++ a)%string <> q.
Proof.
  intros N H. apply N, (append_inv_l q).
  rewrite H. clear. induction q as [| c q IH]; cbn; [reflexivity | now rewrite <- IH].
Qed.

Lemma geocode_requests_nodup (q : string) : NoDup (geocode_requests q).
Proof.
  unfold geocode_requests. destruct (is_indian_specific q).
  - repeat constructor; simpl; intuition discriminate.
  - repeat constructor; simpl; intros H;
      repeat (destruct H as [H | H]); try discriminate H; try exact H;
      inversion H as [E].
    + exfalso. eapply append_not_self;
        [| first [exact E | symmetry; exact E]]; discriminate.
    + exfalso. eapply append_not_self;
        [| first [exact E | symmetry; exact E]]; discriminate.
    + apply append_inv_l in E. discriminate E.
Qed.

(** X16.  The requests of [api_geocode] for the stripped query [q] are
    taken, in order, from: Nominatim restricted to India then Open-Meteo,
    when [q] contains a region keyword; else Open-Meteo, Nominatim, and
    Open-Meteo for the two suffixed queries.  No request is issued twice,
    at most four are issued, none for an empty query, and the first one is
    fixed by the keyword test.  The query is any text whose white space
    is ASCII and that holds neither U+0130 nor U+212A, on which [strip]
    and the keyword test are those of [str]. *)
Theorem geocode_request_order (net : network) (q_arg autocomplete_arg : option string) :
  let q0 := match q_arg with Some s => s | None => "" end in
  let q := strip q0 in
  let t := trace (api_geocode net q_arg autocomplete_arg) in
  plain_query q0 = true ->
  subseq t (geocode_requests q) /\ NoDup t /\ (List.length t <= 4)%nat
  /\ (q = "" -> t = [])
  /\ (q <> "" -> exists rest,
        t = (if is_indian_specific q then NominatimSearchIndia q
             else OpenMeteoSearch q) :: rest).
Proof.
  intros q0 q t _. subst q0.
  assert (E : q = "" -> t = []).
  { intros Hq. subst t. unfold api_geocode. fold q. now rewrite Hq. }
  assert (G : q <> "" ->
              t = trace (geocode net q (autocomplete_flag autocomplete_arg))).
  { intros Hq. subst t. unfold api_geocode. fold q.
    rewrite (proj2 (String.eqb_neq q "") Hq), trace_try.
    fold (autocomplete_flag autocomplete_arg).
    destruct (outcome (geocode net q _)); cbn; now rewrite app_nil_r. }
  assert (S : subseq t (geocode_requests q)).
  { destruct (String.eqb_spec q "") as [Hq | Hq]; [rewrite (E Hq); constructor |].
    rewrite (G Hq). unfold geocode, geocode_requests.
    rewrite trace_bind.
    match goal with
    | |- subseq (trace ?c ++ ?r) _ =>
        assert (R : r = []) by (destruct (outcome c) as [[x |] |]; reflexivity);
        rewrite R, app_nil_r
    end.
    destruct (is_indian_specific q); cbn [negb andb].
    - change [NominatimSearchIndia q; OpenMeteoSearch q]
        with ([NominatimSearchIndia q] ++ ([OpenMeteoSearch q] ++ ([] ++ [])))%list.
      repeat apply or_else_requests.
      + rewrite (proj1 (nominatim_india_attempt net q _)). apply subseq_refl.
      + rewrite (proj1 (open_meteo_attempt net q _)). apply subseq_refl.
      + apply subseq_nil.
      + apply subseq_nil.
    - change [OpenMeteoSearch q; NominatimSearch q; OpenMeteoSearch (q ++ ", India");
              OpenMeteoSearch (q ++ ", Kupwara, India")]
        with ([] ++ ([OpenMeteoSearch q] ++ ([NominatimSearch q]
              ++ map OpenMeteoSearch [(q ++ ", India")%string;
                                      (q ++ ", Kupwara, India")%string])))%list.
      repeat apply or_else_requests.
      + apply subseq_nil.
      + rewrite (proj1 (open_meteo_attempt net q _)). apply subseq_refl.
      + rewrite (proj1 (nominatim_plain_attempt net q)). apply subseq_refl.
      + destruct (negb (String.eqb q "") && negb (endswith (lower q) "india"));
          [apply retries_attempt | apply subseq_nil]. }
  split; [exact S | split; [| split; [| split]]].
  - apply (subseq_nodup _ _ S), geocode_requests_nodup.
  - pose proof (subseq_length _ _ S) as L. unfold geocode_requests in L.
    destruct (is_indian_specific q); cbn in L; lia.
  - exact E.
  - intros Hq. rewrite (G Hq). unfold geocode. rewrite trace_bind.
    destruct (is_indian_specific q); cbn [negb andb].
    + rewrite trace_or_else, (proj1 (nominatim_india_attempt net q _)). cbn. eauto.
    + rewrite or_else_none, trace_or_else, (proj1 (open_meteo_attempt net q _)).
      cbn. eauto.
Qed.

Lemma geocode_request_order_witness :
  trace (api_geocode empty_answers (Some "  ") None) = []
  /\ exists rest,
       trace (api_geocode empty_answers (Some " Handwara ") None)
       = OpenMeteoSearch "Handwara" :: rest.
Proof.
  split.
  - apply (proj1 (proj2 (proj2 (proj2
             (geocode_request_order empty_answers (Some "  ") None eq_refl))))).
    reflexivity.
  - apply (proj2 (proj2 (proj2 (proj2
             (geocode_request_order empty_answers (Some " Handwara ") None eq_refl))))).
    discriminate.
Defined.


(** X15.  [api_geocode] never raises, and its answers are: 400 exactly for
    an empty query; 404 or 502 otherwise; a list of one to eight
    suggestions, all from Nominatim or all from Open-Meteo, only when the
    autocomplete flag is set; or a single place tagged "nominatim",
    "open-meteo" or "open-meteo-retry", the last only for a query with no
    region keyword.  The query is any text whose white space is ASCII and
    that holds neither U+0130 nor U+212A, on which [strip] and the keyword
    test are those of [str]. *)
Theorem geocode_answers (net : network) (q_arg autocomplete_arg : option string) :
  let q0 := match q_arg with Some s => s | None => "" end in
  let q := strip q0 in
  plain_query q0 = true ->
  exists resp : geocode_response,
    outcome (api_geocode net q_arg autocomplete_arg) = Ok resp /\
    geocode_answer q (autocomplete_flag autocomplete_arg) resp.
Proof.
  intros q0 q _. subst q0. unfold api_geocode. fold q. fold (autocomplete_flag autocomplete_arg).
  set (ac := autocomplete_flag autocomplete_arg).
  destruct (String.eqb_spec q "") as [Hq | Hq].
  { eexists. split; [reflexivity |]. cbn. auto. }
  rewrite outcome_try. unfold geocode. rewrite outcome_bind.
  match goal with
  | |- context [outcome (or_else ?a ?b)] =>
      assert (P : forall r, outcome (or_else a b) = Ok (Some r) ->
                            geocode_answer q ac r)
  end.
  { repeat apply or_else_answers; intros r H.
    - destruct (is_indian_specific q); [| discriminate H].
      apply (proj2 (nominatim_india_attempt net q ac)) in H.
      destruct r as [out | l |]; cbn in *; [| tauto | tauto].
      destruct H as [<- | []]. repeat split; auto; discriminate.
    - apply (proj2 (open_meteo_attempt net q ac)) in H.
      destruct r as [out | l |]; cbn in *; [| tauto | tauto].
      destruct H as [<- | []]. repeat split; auto; discriminate.
    - destruct (negb (is_indian_specific q)); [| discriminate H].
      apply (proj2 (nominatim_plain_attempt net q)) in H.
      destruct H as [out [-> S]]. cbn. rewrite S.
      repeat split; auto; discriminate.
    - destruct (is_indian_specific q) eqn:I; cbn [negb andb] in H;
        [discriminate H |].
      destruct (negb (String.eqb q "") && negb (endswith (lower q) "india"));
        [| discriminate H].
      apply (proj2 (retries_attempt net _)) in H.
      destruct H as [out [-> S]]. cbn. rewrite S.
      repeat split; auto. }
  match goal with
  | |- context [outcome (or_else ?a ?b)] =>
      destruct (outcome (or_else a b)) as [[r |] |]
  end.
  - exists r. split; [reflexivity |]. now apply P.
  - eexists. split; [reflexivity |]. cbn. auto.
  - eexists. split; [reflexivity |]. cbn. auto.
Qed.

Lemma geocode_answers_witness :
  (exists resp : geocode_response,
      outcome (api_geocode empty_answers (Some " Paris ") (Some "1")) = Ok resp
      /\ geocode_answer "Paris" true resp)
  /\ (exists resp : geocode_response,
         outcome (api_geocode empty_answers (Some "  ") None) = Ok resp
         /\ geocode_answer "" false resp).
Proof.
  split.
  - exact (geocode_answers empty_answers (Some " Paris ") (Some "1") eq_refl).
  - exact (geocode_answers empty_answers (Some "  ") None eq_refl).
Defined.

(** A query that reaches the unrestricted Nominatim search names neither a
    sector nor a block. *)
Lemma plain_query_terms (q : string) :
  is_indian_specific q = false ->
  contains "sector" (lower q) || contains "block" (lower q) = false.
Proof.
  unfold is_indian_specific, indian_terms. cbn [existsb].
  intros H. repeat (apply orb_false_iff in H as [? H]).
  apply orb_false_iff. split; assumption.
Qed.

(** X17.  The label of the unrestricted Nominatim search keeps the first
    three segments of the display name: the four-segment rule of line 479
    asks for "sector" or "block" in the query, which no query reaching
    that search contains.  The query holds neither U+0130 nor U+212A and
    the white space of the query and of the display name is ASCII, so that
    the keyword test and [strip] are those of [str]. *)
Theorem plain_label_segments (q d : string) (arr first : value) (out : place) :
  plain_query q = true ->
  ascii_blanks d = true ->
  is_indian_specific q = false ->
  item0 arr = Ok first ->
  get first "display_name" = Ok (VStr d) ->
  contains "," d = true ->
  nominatim_plain_place q arr = Ok out ->
  place_name out = VStr (join ", " (firstn 3 (map strip (split_on "," d)))).
Proof.
  intros _ _ I F D C. unfold nominatim_plain_place. rewrite F. cbn [bind]. rewrite D.
  cbn [bind]. destruct (get first "name") as [n |]; cbn [bind]; [| discriminate].
  assert (Hd : truthy (VStr d) = true).
  { destruct d; [discriminate C | reflexivity]. }
  assert (P : por (por (VStr d) n) (VStr q) = VStr d).
  { unfold por. now rewrite Hd, Hd. }
  rewrite !P, Hd. cbn [has_comma bind]. rewrite C. cbn [comma_parts bind].
  rewrite (plain_query_terms q I).
  step_binds. intros H.
  match goal with Hx : Ok (VStr _) = Ok _ |- _ => injection Hx as <- end.
  now inversion H.
Qed.

Lemma plain_label_segments_witness :
  exists out : place,
    nominatim_plain_place "Paris"
      (VList [VDict [("display_name",
                      VStr "Paris, Ile-de-France, Metropolitan France, France")]])
    = Ok out
    /\ place_name out = VStr "Paris, Ile-de-France, Metropolitan France".
Proof.
  eexists. split; [reflexivity |].
  apply (plain_label_segments "Paris"
           "Paris, Ile-de-France, Metropolitan France, France"
           (VList [VDict [("display_name",
                           VStr "Paris, Ile-de-France, Metropolitan France, France")]])
           (VDict [("display_name",
                    VStr "Paris, Ile-de-France, Metropolitan France, France")]));
    reflexivity.
Defined.


Lemma existsb_eqb_in (s : string) (seen : list string) :
  existsb (String.eqb s) seen = true <-> In s seen.
Proof.
  rewrite existsb_exists. split.
  - intros [x [I E]]. apply String.eqb_eq in E. now subst.
  - intros I. exists s. split; [exact I | apply String.eqb_refl].
Qed.

(** [dict.fromkeys] keeps each string once, the first time it occurs. *)
Lemma unique_from_spec (seen l : list string) :
  NoDup (unique_from seen l)
  /\ (forall x, In x (unique_from seen l) <-> In x l /\ ~ In x seen)
  /\ (List.length (unique_from seen l) <= List.length l)%nat.
Proof.
  revert seen. induction l as [| s l IH]; intros seen; cbn [unique_from].
  - split; [constructor | split; [simpl; tauto | auto]].
  - destruct (existsb (String.eqb s) seen) eqn:E.
    + apply existsb_eqb_in in E. destruct (IH seen) as [N [I L]].
      split; [exact N | split; [| simpl; lia]].
      intros x. rewrite I. simpl. intuition (subst; tauto).
    + assert (NI : ~ In s seen).
      { intros I. apply existsb_eqb_in in I. congruence. }
      destruct (IH (s :: seen)) as [N [I L]].
      split; [| split; [| simpl; lia]].
      * constructor; [| exact N]. rewrite I. simpl. tauto.
      * intros x. simpl. rewrite I. simpl.
        destruct (string_dec s x); intuition (subst; tauto).
Qed.

Lemma strings_of_map (parts : list value) (ss : list string) :
  strings_of parts = Ok ss -> parts = map VStr ss.
Proof.
  revert ss. induction parts as [| p parts IH]; intros ss; cbn.
  - intros H. now inversion H.
  - destruct p; try discriminate.
    destruct (strings_of parts) as [ss' |]; cbn [bind]; [| discriminate].
    intros H. inversion H; subst. cbn. now rewrite (IH ss' eq_refl).
Qed.

Lemma join_unique_parts (parts : list value) (s : string) :
  join_unique parts = Ok s ->
  parts <> [] ->
  Forall (fun v => truthy v = true) parts ->
  exists ps,
    s = join ", " ps /\ NoDup ps
    /\ (1 <= List.length ps <= List.length parts)%nat
    /\ Forall (fun p => p <> "" /\ In (VStr p) parts) ps.
Proof.
  unfold join_unique. intros J N T.
  destruct (strings_of parts) as [ss |] eqn:S; cbn [bind] in J; [| discriminate].
  inversion J; subst; clear J.
  apply strings_of_map in S. subst parts.
  destruct (unique_from_spec [] ss) as [ND [I L]].
  exists (unique ss). unfold unique. split; [reflexivity |]. split; [exact ND |].
  split.
  - rewrite length_map. split; [| exact L].
    destruct ss as [| s0 ss]; [now destruct N |]. cbn. lia.
  - rewrite Forall_forall in *. intros p Hp. apply I in Hp as [Hp _].
    assert (Hv : In (VStr p) (map VStr ss)) by now apply in_map.
    split; [| exact Hv].
    specialize (T _ Hv). cbn in T. intros ->. discriminate T.
Qed.

(** X18.  The label of an Open-Meteo result is the falsy name of the
    result, or one to three parts joined by a comma and a space: non-empty
    strings taken from the name and the admin fields of the result, no two
    of them equal. *)
Theorem open_meteo_label_parts (first label : value) :
  open_meteo_label first = Ok label ->
  truthy label = false
  \/ exists parts,
       label = VStr (join ", " parts) /\ NoDup parts
       /\ (1 <= List.length parts <= 3)%nat
       /\ Forall (fun p => p <> "" /\
                           In (Ok (VStr p)) [get first "name"; get first "admin3";
                                             get first "admin2"; get first "admin1"])
                  parts.
Proof.
  unfold open_meteo_label.
  destruct (get first "name") as [n |]; cbn [bind]; [| discriminate].
  destruct (get first "admin3") as [a3 |]; cbn [bind]; [| discriminate].
  destruct (get first "admin2") as [a2 |]; cbn [bind]; [| discriminate].
  destruct (get first "admin1") as [a1 |]; cbn [bind]; [| discriminate].
  set (p1 := if truthy n then [n] else []).
  set (p2 := if truthy a3 then (p1 ++ [a3])%list
             else if truthy a2 then (p1 ++ [a2])%list else p1).
  set (p3 := if truthy a1 && negb (is_in a1 p2) then (p2 ++ [a1])%list else p2).
  assert (F : Forall (fun v => truthy v = true /\ In v [n; a3; a2; a1]) p3
              /\ (List.length p3 <= 3)%nat
              /\ (p3 = [] -> truthy n = false)).
  { subst p3 p2 p1.
    destruct (truthy n) eqn:Tn; destruct (truthy a3) eqn:T3;
      destruct (truthy a2) eqn:T2; destruct (truthy a1) eqn:T1; cbn [andb];
      try destruct (negb (is_in a1 _)); cbn [app];
      (split; [repeat (apply Forall_cons || apply Forall_nil);
                 (split; [assumption | simpl; tauto])
              | split; [simpl; lia |]]);
      try discriminate; auto. }
  destruct F as [F [L E]].
  destruct p3 as [| x xs] eqn:P.
  - intros H. inversion H; subst. left. now apply E.
  - destruct (join_unique (x :: xs)) as [s |] eqn:J; cbn [bind]; [| discriminate].
    intros H. inversion H; subst; clear H. right.
    destruct (join_unique_parts _ _ J) as [ps [-> [ND [Len Fa]]]];
      [discriminate | | ].
    { rewrite Forall_forall in *. intros v Hv. now apply F. }
    exists ps. split; [reflexivity |]. split; [exact ND |].
    split; [lia |].
    rewrite Forall_forall in *. intros p Hp. destruct (Fa p Hp) as [Ne Hin].
    split; [exact Ne |].
    destruct (F _ Hin) as [_ Hf]. simpl in Hf. simpl.
    intuition (subst; auto).
Qed.

Lemma open_meteo_label_parts_witness :
  open_meteo_label (VDict [("name", VStr "Delhi"); ("admin1", VStr "Delhi")])
  = Ok (VStr "Delhi")
  /\ (truthy (VStr "Delhi") = false
      \/ exists parts,
           VStr "Delhi" = VStr (join ", " parts) /\ NoDup parts
           /\ (1 <= List.length parts <= 3)%nat
           /\ Forall (fun p => p <> "" /\
                     In (Ok (VStr p))
                        [get (VDict [("name", VStr "Delhi"); ("admin1", VStr "Delhi")]) "name";
                         get (VDict [("name", VStr "Delhi"); ("admin1", VStr "Delhi")]) "admin3";
                         get (VDict [("name", VStr "Delhi"); ("admin1", VStr "Delhi")]) "admin2";
                         get (VDict [("name", VStr "Delhi"); ("admin1", VStr "Delhi")]) "admin1"])
                  parts).
Proof.
  split; [reflexivity |].
  apply (open_meteo_label_parts
           (VDict [("name", VStr "Delhi"); ("admin1", VStr "Delhi")]) (VStr "Delhi")).
  reflexivity.
Defined.


End GeocodeFacts.

(* ================================================================== *)
(** * Further properties: the ambient-sound endpoint and the clean-up *)
(* ================================================================== *)

Module HostFacts.
Import Py Net App Host Spec Shapes PyFacts Classifier.

Lemma prefix_contains (needle hay : string) :
  prefix needle hay = true -> contains needle hay = true.
Proof. intros H. destruct hay; cbn [contains]; now rewrite H. Qed.

Lemma sweep_spec (expired : string -> result bool) (names : list string) (f : string) :
  In f (sweep expired names) <->
  In f names /\ endswith (lower f) ".mp3" = true /\ contains "tmp" f = true
  /\ expired f = Ok true.
Proof.
  induction names as [| n rest IH]; cbn [sweep In].
  - tauto.
  - destruct (endswith (lower n) ".mp3") eqn:E; cbn [negb].
    + destruct (prefix "tmp" n) eqn:P; cbn [negb andb].
      * pose proof (prefix_contains _ _ P) as C.
        destruct (expired n) as [[] |] eqn:X; cbn [In]; rewrite IH.
        -- split; [intros [<- | H]; tauto |]. tauto.
        -- split; [tauto |]. intros [[<- | H] [H1 [H2 H3]]]; [congruence | tauto].
        -- split; [tauto |]. intros [[<- | H] [H1 [H2 H3]]]; [congruence | tauto].
      * destruct (contains "tmp" n) eqn:C; cbn [negb].
        -- destruct (expired n) as [[] |] eqn:X; cbn [In]; rewrite IH.
           ++ split; [intros [<- | H]; tauto |]. tauto.
           ++ split; [tauto |]. intros [[<- | H] [H1 [H2 H3]]]; [congruence | tauto].
           ++ split; [tauto |]. intros [[<- | H] [H1 [H2 H3]]]; [congruence | tauto].
        -- rewrite IH. split; [tauto |].
           intros [[<- | H] [H1 [H2 H3]]]; [congruence | tauto].
    + rewrite IH. split; [tauto |].
      intros [[<- | H] [H1 [H2 H3]]]; [congruence | tauto].
Qed.

Lemma sweep_subseq (expired : string -> result bool) (names : list string) :
  subseq (sweep expired names) names.
Proof.
  induction names as [| n rest IH]; cbn [sweep].
  - constructor.
  - destruct (negb (endswith (lower n) ".mp3")); [now apply subseq_skip |].
    destruct (negb (prefix "tmp" n) && negb (contains "tmp" n));
      [now apply subseq_skip |].
    destruct (expired n) as [[] |];
      [now apply subseq_take | now apply subseq_skip | now apply subseq_skip].
Qed.

(** X26.  What [_cleanup_old_tts] removes.  [os.remove] is called on a
    file exactly when the directory could be listed and the file is in it,
    its name ends in ".mp3" whatever the case, contains "tmp" anywhere
    (the test on the prefix adds nothing) and its age could be read and
    exceeds the limit.  A file that cannot be examined does not stop the
    sweep, and the calls follow the order of the listing. *)
Theorem cleanup_removes
    (listdir : result (list string)) (expired : string -> result bool) :
  (forall f,
      In f (_cleanup_old_tts listdir expired) <->
      exists names,
        listdir = Ok names /\ In f names
        /\ endswith (lower f) ".mp3" = true /\ contains "tmp" f = true
        /\ expired f = Ok true)
  /\ (forall names, listdir = Ok names ->
      subseq (_cleanup_old_tts listdir expired) names).
Proof.
  unfold _cleanup_old_tts. split.
  - intros f. destruct listdir as [names |].
    + rewrite sweep_spec. split.
      * intros H. exists names. tauto.
      * intros [names' [E H]]. injection E as <-. tauto.
    + cbn [In]. split; [tauto |]. intros [names [E _]]. discriminate.
  - intros names ->. apply sweep_subseq.
Qed.

Lemma sound_type_range (v : value) : In (_get_weather_sound_type v) classes.
Proof.
  unfold _get_weather_sound_type.
  destruct (is_none v); [unfold classes; simpl; tauto |].
  destruct (int (unpack v)) as [code |]; [| apply textual_class_range].
  destruct (numeric_class code) as [s |] eqn:E; [| apply textual_class_range].
  apply numeric_class_range in E. unfold classes. simpl in *. tauto.
Qed.

Section Intensity.

Variable number : Type.
Variable to_float : value -> result number.
Variable exceeds : number -> Z -> bool.

Local Abbreviation intensity_of := (read_intensity number to_float).
Local Abbreviation adjusted := (adjust number exceeds).

Lemma adjust_cases (s : string) (i : option number) :
  adjusted s i = s
  \/ (s = "rain" /\ adjusted s i = "storm" /\ exists x, i = Some x /\ exceeds x 10 = true)
  \/ (s = "ambient" /\ adjusted s i = "rain" /\ exists x, i = Some x /\ exceeds x 2 = true).
Proof.
  unfold adjust. destruct i as [x |]; [| now left].
  destruct (exceeds x 10) eqn:E10; cbn [andb].
  - destruct (String.eqb s "rain") eqn:R.
    + apply String.eqb_eq in R. right. left. eauto.
    + destruct (exceeds x 2) eqn:E2; cbn [andb]; [| now left].
      destruct (String.eqb s "ambient") eqn:A; [| now left].
      apply String.eqb_eq in A. right. right. eauto.
  - destruct (exceeds x 2) eqn:E2; cbn [andb]; [| now left].
    destruct (String.eqb s "ambient") eqn:A; [| now left].
    apply String.eqb_eq in A. right. right. eauto.
Qed.

Lemma adjust_range (s : string) (i : option number) :
  In s classes -> In (adjusted s i) classes.
Proof.
  intros H. destruct (adjust_cases s i) as [-> | [[_ [-> _]] | [_ [-> _]]]];
    [assumption | unfold classes; repeat first [left; reflexivity | right] ..].
Qed.

(** X25.  The intensity of [api_ambient].  A "precip_mm" that is not null
    decides alone: when it is no number the intensity is absent, whatever
    "intensity" holds; "intensity" is read only when "precip_mm" is
    null or missing.  The adjustment changes nothing but "rain" into
    "storm" and "ambient" into "rain". *)
Theorem ambient_intensity (data : value) (s : string) :
  (forall p, get data "precip_mm" = Ok p -> is_none p = false ->
     intensity_of data = match to_float p with Ok x => Some x | Raised => None end)
  /\ (get data "precip_mm" = Ok VNone ->
      forall i, get data "intensity" = Ok i ->
        intensity_of data
        = if is_none i then None
          else match to_float i with Ok x => Some x | Raised => None end)
  /\ (adjusted s (intensity_of data) = s
      \/ (s = "rain" /\ adjusted s (intensity_of data) = "storm")
      \/ (s = "ambient" /\ adjusted s (intensity_of data) = "rain")).
Proof.
  split; [| split].
  - intros p Hp Hn. unfold read_intensity. rewrite Hp. cbn [bind]. rewrite Hn.
    cbn [negb]. now destruct (to_float p).
  - intros Hp i Hi. unfold read_intensity. rewrite Hp. cbn [bind is_none negb].
    rewrite Hi. cbn [bind]. destruct (is_none i); cbn [negb]; [reflexivity |].
    now destruct (to_float i).
  - destruct (adjust_cases s (intensity_of data)) as [H | [[H1 [H2 _]] | [H1 [H2 _]]]];
      tauto.
Qed.

End Intensity.

Section Host.

Variable number : Type.
Variable to_float : value -> result number.
Variable exceeds : number -> Z -> bool.
Variable run_returns : list string -> bool.
Variable spawn : list string -> result process.
Variable file_exists : string -> bool.
Variable path_of : string -> string.
Variable is_mac : bool.
Variable has_mpg123 : bool.

Local Abbreviation api := (api_ambient number to_float exceeds run_returns spawn
                         file_exists path_of is_mac has_mpg123).
Local Abbreviation playing := (play run_returns spawn file_exists path_of is_mac has_mpg123).
Local Abbreviation intensity_of := (read_intensity number to_float).
Local Abbreviation adjusted := (adjust number exceeds).
Local Abbreviation selected := (select_audio file_exists).
Local Abbreviation command_for := (Host.play_cmd is_mac has_mpg123).

(** ** The shape of what [api_ambient] does *)

Lemma select_first (st n e : string) :
  selected [st; "ambient"] = Some (n, e) <->
  exists pre post,
    candidates st = (pre ++ (n, e) :: post)%list
    /\ file_exists (n ++ e) = true
    /\ Forall (fun c => file_exists (file_of c) = false) pre.
Proof.
  unfold candidates, file_of. cbn [select_audio first_ext preferred_exts].
  destruct (file_exists (st ++ ".wav")) eqn:E1.
  { split.
    - intros H. injection H as <- <-. exists [], [(st, ".mp3"); ("ambient", ".wav"); ("ambient", ".mp3")].
      repeat split; [assumption | constructor].
    - intros [pre [post [C [X F]]]].
      destruct pre as [| c pre]; [cbn in C; now injection C as <- <- |].
      cbn in C. injection C as <- C. inversion F; subst. cbn in *. congruence. }
  destruct (file_exists (st ++ ".mp3")) eqn:E2.
  { split.
    - intros H. injection H as <- <-. exists [(st, ".wav")], [("ambient", ".wav"); ("ambient", ".mp3")].
      repeat split; [assumption | repeat constructor; assumption].
    - intros [pre [post [C [X F]]]].
      destruct pre as [| c pre]; [cbn in C; injection C as <- <-; congruence |].
      cbn in C. injection C as <- C. inversion F; subst.
      destruct pre as [| c pre]; [cbn in C; now injection C as <- <- |].
      cbn in C. injection C as <- C.
      match goal with H : Forall _ (_ :: _) |- _ => inversion H; subst end.
      cbn in *. congruence. }
  destruct (file_exists ("ambient" ++ ".wav")) eqn:E3.
  { split.
    - intros H. injection H as <- <-. exists [(st, ".wav"); (st, ".mp3")], [("ambient", ".mp3")].
      repeat split; [assumption | repeat constructor; assumption].
    - intros [pre [post [C [X F]]]].
      destruct pre as [| c pre]; [cbn in C; injection C as <- <-; congruence |].
      cbn in C. injection C as <- C. inversion F; subst.
      destruct pre as [| c pre]; [cbn in C; injection C as <- <-; congruence |].
      cbn in C. injection C as <- C.
      destruct pre as [| c pre]; [cbn in C; now injection C as <- <- |].
      cbn in C. injection C as <- C.
      repeat match goal with H : Forall _ (_ :: _) |- _ => inversion H; subst; clear H end.
      cbn in *. congruence. }
  destruct (file_exists ("ambient" ++ ".mp3")) eqn:E4.
  { split.
    - intros H. injection H as <- <-.
      exists [(st, ".wav"); (st, ".mp3"); ("ambient", ".wav")], [].
      repeat split; [assumption | repeat constructor; assumption].
    - intros [pre [post [C [X F]]]].
      destruct pre as [| c pre]; [cbn in C; injection C as <- <-; congruence |].
      cbn in C. injection C as <- C.
      destruct pre as [| c pre]; [cbn in C; injection C as <- <-; congruence |].
      cbn in C. injection C as <- C.
      destruct pre as [| c pre]; [cbn in C; injection C as <- <-; congruence |].
      cbn in C. injection C as <- C.
      destruct pre as [| c pre]; [cbn in C; now injection C as <- <- |].
      cbn in C. injection C as <- C.
      repeat match goal with H : Forall _ (_ :: _) |- _ => inversion H; subst; clear H end.
      cbn in *. congruence. }
  split; [discriminate |].
  intros [pre [post [C [X F]]]].
  destruct pre as [| c pre]; [cbn in C; injection C as <- <-; congruence |].
  cbn in C. injection C as <- C.
  destruct pre as [| c pre]; [cbn in C; injection C as <- <-; congruence |].
  cbn in C. injection C as <- C.
  destruct pre as [| c pre]; [cbn in C; injection C as <- <-; congruence |].
  cbn in C. injection C as <- C.
  destruct pre as [| c pre]; [cbn in C; injection C as <- <-; congruence |].
  cbn in C. injection C as <- C.
  destruct pre; discriminate.
Qed.

Lemma select_none (st : string) :
  selected [st; "ambient"] = None <->
  Forall (fun c => file_exists (file_of c) = false) (candidates st).
Proof.
  unfold candidates, file_of. cbn [select_audio first_ext preferred_exts].
  split.
  - destruct (file_exists (st ++ ".wav")) eqn:E1; [discriminate |].
    destruct (file_exists (st ++ ".mp3")) eqn:E2; [discriminate |].
    destruct (file_exists ("ambient" ++ ".wav")) eqn:E3; [discriminate |].
    destruct (file_exists ("ambient" ++ ".mp3")) eqn:E4; [discriminate |].
    intros _. repeat constructor; assumption.
  - intros F.
    repeat match goal with H : Forall _ (_ :: _) |- _ => inversion H; subst; clear H end.
    cbn [fst snd] in *.
    repeat match goal with H : file_exists _ = false |- _ => rewrite H; clear H end.
    reflexivity.
Qed.

(** ** The endpoint *)

Lemma weather_condition_raises (data : value) :
  weather_condition data = Raised <->
  (forall d, data <> VDict d)
  \/ (exists w, get data "weather" = Ok w /\ truthy w = true /\ forall s, w <> VStr s).
Proof.
  destruct data as [| b | z | f | s | l | d];
    try (split; [intros _; left; intros d; discriminate | reflexivity]).
  unfold weather_condition, get, get_or. cbn [bind].
  set (w := match lookup d "weather" with Some x => x | None => VNone end).
  unfold por. split.
  - intros H. right. exists w. split; [reflexivity |].
    destruct (truthy w) eqn:T; [| discriminate].
    split; [reflexivity |]. intros s ->. discriminate.
  - intros [H | [w' [E [T N]]]]; [now destruct (H d) |].
    injection E as <-. rewrite T.
    destruct w; try reflexivity. now destruct (N s).
Qed.

Lemma weather_condition_dict (data : value) (w : string) :
  weather_condition data = Ok w ->
  exists a, get_or data "action" (VStr "play") = Ok a.
Proof.
  destruct data; try discriminate. intros _. cbn [get_or]. eauto.
Qed.

Lemma api_unfold (data : value) (w : string) (a : value) :
  weather_condition data = Ok w ->
  get_or data "action" (VStr "play") = Ok a ->
  api data
  = if is_stop a then stop run_returns
    else playing (adjusted (_get_weather_sound_type (VStr w)) (intensity_of data)) w.
Proof.
  intros W A. unfold api_ambient. rewrite W, A. unfold of_result, andthen.
  destruct (if is_stop a then _ else _) as [r t]. reflexivity.
Qed.

Lemma api_raises (data : value) :
  weather_condition data = Raised -> api data = (Raised, []).
Proof. intros W. unfold api_ambient. now rewrite W. Qed.

Ltac run_host :=
  unfold play, stop, guarded, andthen, run, popen, done, of_result;
  repeat (cbn [fst snd app];
          match goal with
          | |- context [select_audio ?f ?l] =>
              destruct (select_audio f l) as [[? ?] |] eqn:?
          | |- context [run_returns ?a] => destruct (run_returns a) eqn:?
          | |- context [Host.play_cmd ?m ?h ?p ?e] =>
              destruct (Host.play_cmd m h p e) eqn:?
          | |- context [spawn ?a] => destruct (spawn a) as [? |] eqn:?
          | |- context [poll ?p] => destruct (poll p) eqn:?
          | |- context [output ?p] => destruct (output p) as [[? ?] |] eqn:?
          end);
  cbn [fst snd app answer effects].

Lemma play_answers (st w : string) : exists r, answer (playing st w) = Ok r.
Proof. run_host; eauto. Qed.

Lemma stop_answers : exists r, answer (stop run_returns) = Ok r.
Proof. run_host; eauto. Qed.

(** X19.  For a plain body (ASCII texts of at most 4300 characters,
    integers of at most 4300 digits, which line 632 can always print) an
    exception leaves [api_ambient] exactly when the body is not an object
    or its "weather" is a truthy value that is not a string; every other
    failure is answered.  Whenever an exception leaves it, nothing has
    been run. *)
Theorem ambient_raises (data : value) :
  (plain data = true ->
   (answer (api data) = Raised <->
    (forall d, data <> VDict d)
    \/ (exists w, get data "weather" = Ok w /\ truthy w = true
                  /\ forall s, w <> VStr s)))
  /\ (answer (api data) = Raised -> effects (api data) = []).
Proof.
  assert (R : answer (api data) = Raised -> weather_condition data = Raised).
  { intros H. destruct (weather_condition data) as [w |] eqn:W; [| reflexivity].
    destruct (weather_condition_dict data w W) as [a A].
    rewrite (api_unfold data w a W A) in H.
    destruct (is_stop a).
    - destruct stop_answers as [r E]. congruence.
    - destruct (play_answers
                  (adjusted (_get_weather_sound_type (VStr w)) (intensity_of data)) w)
        as [r E].
      congruence. }
  split.
  - intros _. rewrite <- weather_condition_raises. split; [exact R |].
    intros W. now rewrite (api_raises data W).
  - intros H. now rewrite (api_raises data (R H)).
Qed.

Lemma stop_shape :
  (answer (stop run_returns) = Ok Stopped \/ answer (stop run_returns) = Ok AmbientFailure)
  /\ (answer (stop run_returns) = Ok Stopped <->
      forall argv, In (Run argv) stop_kills -> run_returns argv = true)
  /\ (answer (stop run_returns) = Ok Stopped -> effects (stop run_returns) = stop_kills)
  /\ (exists n, effects (stop run_returns) = firstn n stop_kills)
  /\ filter is_popen (effects (stop run_returns)) = [].
Proof.
  assert (K : (forall argv, In (Run argv) stop_kills -> run_returns argv = true) ->
              run_returns ["pkill"; "-f"; "static/audio/ambient"] = true
              /\ run_returns ["pkill"; "afplay"] = true
              /\ run_returns ["pkill"; "aplay"] = true
              /\ run_returns ["pkill"; "mpg123"] = true).
  { intros H. repeat split; apply H; unfold stop_kills; simpl; tauto. }
  unfold stop_kills in *. run_host.
  - repeat split; try tauto.
    + intros _ argv [E | [E | [E | [E | []]]]]; injection E as <-; assumption.
    + now exists 4%nat.
  - repeat split; try tauto; try discriminate.
    + intros H. apply K in H. intuition congruence.
    + now exists 4%nat.
  - repeat split; try tauto; try discriminate.
    + intros H. apply K in H. intuition congruence.
    + now exists 3%nat.
  - repeat split; try tauto; try discriminate.
    + intros H. apply K in H. intuition congruence.
    + now exists 2%nat.
  - repeat split; try tauto; try discriminate.
    + intros H. apply K in H. intuition congruence.
    + now exists 1%nat.
Qed.

(** X20.  The stop action runs the four [pkill] commands in order up to
    the first that cannot be run, starts no process, and answers
    "stopped" exactly when the four returned, whatever the weather and
    the sound files are. *)
Theorem ambient_stop (data : value) (w : string) (a : value) :
  weather_condition data = Ok w ->
  get_or data "action" (VStr "play") = Ok a ->
  is_stop a = true ->
  (answer (api data) = Ok Stopped \/ answer (api data) = Ok AmbientFailure)
  /\ (answer (api data) = Ok Stopped <->
      forall argv, In (Run argv) stop_kills -> run_returns argv = true)
  /\ (answer (api data) = Ok Stopped -> effects (api data) = stop_kills)
  /\ (exists n, effects (api data) = firstn n stop_kills)
  /\ filter is_popen (effects (api data)) = [].
Proof.
  intros W A S. rewrite (api_unfold data w a W A), S. exact stop_shape.
Qed.

Lemma play_cmd_loop (path e : string) (argv : list string) :
  command_for path e = Command argv ->
  exists player,
    argv = loop player path
    /\ ((is_mac = true /\ player = "afplay")
        \/ (is_mac = false /\ e = ".wav" /\ player = "aplay -q")
        \/ (is_mac = false /\ e = ".mp3" /\ has_mpg123 = true /\ player = "mpg123 -q")).
Proof.
  unfold Host.play_cmd. destruct is_mac.
  - intros H. injection H as <-. exists "afplay". tauto.
  - destruct (String.eqb e ".wav") eqn:E1.
    + apply String.eqb_eq in E1. intros H. injection H as <-. exists "aplay -q". tauto.
    + destruct (String.eqb e ".mp3") eqn:E2; [| discriminate].
      apply String.eqb_eq in E2. destruct has_mpg123; [| discriminate].
      intros H. injection H as <-. exists "mpg123 -q". tauto.
Qed.

Lemma play_playing (st w st' w' : string) (p : Z) (cmd : string) :
  answer (playing st w) = Ok (Playing st' w' p cmd) ->
  st' = st /\ w' = w
  /\ exists n e argv proc,
      selected [st; "ambient"] = Some (n, e)
      /\ command_for (path_of (n ++ e)) e = Command argv
      /\ effects (playing st w) = (kill_before_play ++ [Popen argv])%list
      /\ run_returns ["pkill"; "-f"; "ambient_weather"] = true
      /\ run_returns ["pkill"; "-f"; "static/audio/ambient"] = true
      /\ spawn argv = Ok proc /\ poll proc = None /\ pid proc = p
      /\ cmd = join " " argv.
Proof.
  unfold kill_before_play. run_host; intros H; try discriminate.
  injection H as <- <- <- <-. do 2 (split; [reflexivity |]).
  do 4 eexists. repeat split; try eassumption; reflexivity.
Qed.

(** X21.  A "playing" answer of [api_ambient] means: the sound type is
    the adjusted class of the lowered weather text, one of the eight
    classes; the file played is the first that exists among the class's
    .wav and .mp3 and ambient's .wav and .mp3; the two [pkill] commands ran
    before the one process started, which loops a player on that file, was
    still running when polled and whose pid is reported; and the command
    reported is the command started. *)
Theorem ambient_playing (data : value) (st w : string) (p : Z) (cmd : string) :
  answer (api data) = Ok (Playing st w p cmd) ->
  weather_condition data = Ok w
  /\ st = adjusted (_get_weather_sound_type (VStr w)) (intensity_of data)
  /\ In st classes
  /\ exists n e player proc pre post,
      candidates st = (pre ++ (n, e) :: post)%list
      /\ file_exists (n ++ e) = true
      /\ Forall (fun c => file_exists (file_of c) = false) pre
      /\ effects (api data)
         = (kill_before_play ++ [Popen (loop player (path_of (n ++ e)))])%list
      /\ spawn (loop player (path_of (n ++ e))) = Ok proc
      /\ poll proc = None /\ pid proc = p
      /\ cmd = join " " (loop player (path_of (n ++ e))).
Proof.
  intros H.
  destruct (weather_condition data) as [w0 |] eqn:W;
    [| rewrite (api_raises data W) in H; discriminate].
  destruct (weather_condition_dict data w0 W) as [a A].
  rewrite (api_unfold data w0 a W A) in *.
  destruct (is_stop a).
  - destruct stop_shape as [[E | E] _]; rewrite E in H; discriminate.
  - apply play_playing in H.
    destruct H as [-> [-> [n [e [argv [proc [S [C [F [_ [_ [Sp [Po [Pi J]]]]]]]]]]]]]].
    split; [reflexivity |]. split; [reflexivity |].
    split; [apply adjust_range, sound_type_range |].
    apply select_first in S. destruct S as [pre [post [Cs [X Fa]]]].
    destruct (play_cmd_loop _ _ _ C) as [player [-> _]].
    exists n, e, player, proc, pre, post. repeat split; assumption.
Qed.

Lemma play_process (st w : string) :
  filter is_popen (effects (playing st w)) = []
  \/ exists argv,
       effects (playing st w) = (kill_before_play ++ [Popen argv])%list
       /\ forall a, In (Run a) kill_before_play -> run_returns a = true.
Proof.
  unfold kill_before_play. run_host; try (now left); right; eexists;
    (split; [reflexivity |]);
    intros cmd0 [E | [E | []]]; injection E as <-; assumption.
Qed.

(** X22.  [api_ambient] starts at most one process, as its last action,
    and only after the two [pkill] commands that stop the previous sound
    have both returned. *)
Theorem ambient_process_order (data : value) :
  filter is_popen (effects (api data)) = []
  \/ exists argv,
       effects (api data) = (kill_before_play ++ [Popen argv])%list
       /\ forall a, In (Run a) kill_before_play -> run_returns a = true.
Proof.
  destruct (weather_condition data) as [w |] eqn:W;
    [| rewrite (api_raises data W); now left].
  destruct (weather_condition_dict data w W) as [a A].
  rewrite (api_unfold data w a W A).
  destruct (is_stop a).
  - left. apply stop_shape.
  - apply play_process.
Qed.

Lemma play_not_found (st w : string) :
  (exists msg, answer (playing st w) = Ok (AmbientError 404 msg))
  <-> selected [st; "ambient"] = None.
Proof.
  run_host; split; try discriminate; try (intros [msg H]; discriminate); eauto.
Qed.

Lemma play_not_found_effects (st w : string) :
  selected [st; "ambient"] = None -> effects (playing st w) = [].
Proof. intros H. unfold play. now rewrite H. Qed.

(** X23.  [api_ambient] answers 404 exactly when the action is not "stop"
    and none of the four candidate files exists; it has run nothing then. *)
Theorem ambient_not_found (data : value) :
  ((exists msg, answer (api data) = Ok (AmbientError 404 msg)) <->
   exists w a,
     weather_condition data = Ok w
     /\ get_or data "action" (VStr "play") = Ok a
     /\ is_stop a = false
     /\ Forall (fun c => file_exists (file_of c) = false)
          (candidates (adjusted (_get_weather_sound_type (VStr w)) (intensity_of data))))
  /\ (forall msg, answer (api data) = Ok (AmbientError 404 msg) ->
      effects (api data) = []).
Proof.
  destruct (weather_condition data) as [w |] eqn:W.
  2:{ rewrite (api_raises data W). split.
      - split; [intros [msg H]; discriminate | intros [w [a [H _]]]; discriminate].
      - discriminate. }
  destruct (weather_condition_dict data w W) as [a A].
  rewrite (api_unfold data w a W A).
  destruct (is_stop a) eqn:S.
  - split.
    + split.
      * intros [msg H]. destruct stop_shape as [[E | E] _]; rewrite E in H; discriminate.
      * intros [w' [a' [_ [A' [S' _]]]]]. congruence.
    + intros msg H. destruct stop_shape as [[E | E] _]; rewrite E in H; discriminate.
  - split.
    + rewrite play_not_found, select_none. split.
      * intros H. exists w, a. tauto.
      * intros [w' [a' [W' [_ [_ H]]]]]. injection W' as <-. exact H.
    + intros msg H. apply play_not_found_effects. apply (play_not_found _ w). eauto.
Qed.

(** X24.  Off macOS and without mpg123, a class that has an .mp3 but no .wav
    is answered 415 once the previous sound is stopped, even if an
    ambient .wav exists: the fallback file is not tried.  What plays on
    such a host is a .wav, through aplay. *)
Theorem ambient_mp3_without_player (data : value) (w : string) (a : value) :
  let st := adjusted (_get_weather_sound_type (VStr w)) (intensity_of data) in
  is_mac = false -> has_mpg123 = false ->
  weather_condition data = Ok w ->
  get_or data "action" (VStr "play") = Ok a ->
  is_stop a = false ->
  (forall argv, In (Run argv) kill_before_play -> run_returns argv = true) ->
  (file_exists (st ++ ".wav") = false -> file_exists (st ++ ".mp3") = true ->
   api data
   = (Ok (AmbientError 415
            "MP3 playback not available on platform. Install 'mpg123' or provide a WAV file."),
      kill_before_play))
  /\ (forall p cmd, answer (api data) = Ok (Playing st w p cmd) ->
      exists n, file_exists (n ++ ".wav") = true
                /\ cmd = join " " (loop "aplay -q" (path_of (n ++ ".wav")))).
Proof.
  intros st M G W A S K. rewrite (api_unfold data w a W A), S. fold st.
  assert (K1 : run_returns ["pkill"; "-f"; "ambient_weather"] = true)
    by (apply K; unfold kill_before_play; simpl; tauto).
  assert (K2 : run_returns ["pkill"; "-f"; "static/audio/ambient"] = true)
    by (apply K; unfold kill_before_play; simpl; tauto).
  split.
  - intros E1 E2. unfold play. cbn [select_audio first_ext preferred_exts].
    rewrite E1, E2. unfold Host.play_cmd. rewrite M, G. cbn [String.eqb Ascii.eqb Bool.eqb].
    unfold run, andthen, guarded, done. rewrite K1, K2. reflexivity.
  - intros p cmd H. apply play_playing in H.
    destruct H as [_ [_ [n [e [argv [proc [Sel [C [_ [_ [_ [_ [_ [_ ->]]]]]]]]]]]]]].
    apply select_first in Sel. destruct Sel as [pre [post [_ [X _]]]].
    destruct (play_cmd_loop _ _ _ C) as [player [-> [[M' _] | [[_ [-> ->]] | [_ [_ [G' _]]]]]]];
      try congruence.
    exists n. split; [assumption | reflexivity].
Qed.

End Host.

Lemma cleanup_removes_witness :
  subseq (_cleanup_old_tts (Ok ["tmpab12.mp3"; "notes.txt"; "song.mp3"])
                           (fun _ => Ok true))
         ["tmpab12.mp3"; "notes.txt"; "song.mp3"].
Proof.
  apply (proj2 (cleanup_removes (Ok ["tmpab12.mp3"; "notes.txt"; "song.mp3"])
                  (fun _ => Ok true))).
  reflexivity.
Defined.

Lemma ambient_intensity_witness :
  read_intensity Z int_number
    (VDict [("precip_mm", VStr "heavy"); ("intensity", VInt 12)])
  = None.
Proof.
  apply (proj1 (ambient_intensity Z int_number Z.gtb
                  (VDict [("precip_mm", VStr "heavy"); ("intensity", VInt 12)])
                  "rain")
           (VStr "heavy"));
    reflexivity.
Defined.

Lemma ambient_raises_witness :
  answer (example_ambient false false [] (VDict [("weather", VInt 5)])) = Raised
  /\ effects (example_ambient false false [] (VDict [("weather", VInt 5)])) = [].
Proof.
  unfold example_ambient. split.
  - apply (proj1 (ambient_raises Z int_number Z.gtb (fun _ => true) running (files [])
                    (fun f => f) false false (VDict [("weather", VInt 5)]))
             eq_refl).
    right. exists (VInt 5). repeat split. discriminate.
  - apply (proj2 (ambient_raises Z int_number Z.gtb (fun _ => true) running (files [])
                    (fun f => f) false false (VDict [("weather", VInt 5)]))).
    reflexivity.
Defined.

Lemma ambient_stop_witness :
  answer (example_ambient false false [] stop_request) = Ok Stopped
  /\ effects (example_ambient false false [] stop_request) = stop_kills.
Proof.
  unfold example_ambient.
  destruct (ambient_stop Z int_number Z.gtb (fun _ => true) running (files [])
              (fun f => f) false false stop_request "rain" (VStr "stop")
              eq_refl eq_refl eq_refl)
    as [_ [H1 [H2 _]]].
  split; [| apply H2]; apply H1; reflexivity.
Defined.

Lemma ambient_playing_witness :
  exists st w p cmd,
    answer (example_ambient false false ["storm.wav"] heavy_rain_request)
    = Ok (Playing st w p cmd)
    /\ weather_condition heavy_rain_request = Ok w
    /\ In st classes.
Proof.
  unfold example_ambient. do 4 eexists. split; [reflexivity |].
  destruct (ambient_playing Z int_number Z.gtb (fun _ => true) running
              (files ["storm.wav"]) (fun f => f) false false heavy_rain_request
              "storm" "light rain" 4242
              "sh -c while true; do aplay -q 'storm.wav'; sleep 0.25; done"
              eq_refl)
    as [H1 [_ [H2 _]]].
  split; [exact H1 | exact H2].
Defined.

Lemma ambient_process_order_witness :
  exists argv,
    effects (example_ambient true false ["ambient.mp3"] heavy_rain_request)
    = (kill_before_play ++ [Popen argv])%list.
Proof.
  unfold example_ambient.
  destruct (ambient_process_order Z int_number Z.gtb (fun _ => true) running
              (files ["ambient.mp3"]) (fun f => f) true false heavy_rain_request)
    as [H | [argv [H _]]].
  - discriminate H.
  - exists argv. exact H.
Defined.

Lemma ambient_not_found_witness :
  effects (example_ambient false false [] (VDict [])) = [].
Proof.
  unfold example_ambient.
  eapply (proj2 (ambient_not_found Z int_number Z.gtb (fun _ => true) running
                   (files []) (fun f => f) false false (VDict []))).
  reflexivity.
Defined.

Lemma ambient_mp3_without_player_witness :
  example_ambient false false ["rain.mp3"; "ambient.wav"]
                  (VDict [("weather", VStr "rain")])
  = (Ok (AmbientError 415
           "MP3 playback not available on platform. Install 'mpg123' or provide a WAV file."),
     kill_before_play).
Proof.
  unfold example_ambient.
  apply (proj1 (ambient_mp3_without_player Z int_number Z.gtb (fun _ => true) running
                  (files ["rain.mp3"; "ambient.wav"]) (fun f => f) false false
                  (VDict [("weather", VStr "rain")]) "rain" (VStr "play")
                  eq_refl eq_refl eq_refl eq_refl eq_refl (fun _ _ => eq_refl)));
    reflexivity.
Defined.

End HostFacts.

(* ================================================================== *)
(** * Further properties: the speech endpoint *)
(* ================================================================== *)

Module SpeechFacts.
Import Py Net App Host Spec Shapes.

Section Speech.

Variable make_temp : result string.
Variable synthesizes : value -> string -> bool.
Variable file_exists : string -> bool.
Variable remove_returns : string -> bool.
Variable spawn_returns : list string -> bool.
Variable thread_starts : bool.
Variable plat : string.
Variable has_mpg123 : bool.

Local Abbreviation tts := (api_tts make_temp synthesizes file_exists remove_returns
                             spawn_returns thread_starts plat has_mpg123).
Local Abbreviation player_of := (tts_play_cmd plat has_mpg123).

Ltac run_tts :=
  unfold synthesize, start_playback, discard, guarded, andthen, act, done, of_result;
  repeat (cbn [fst snd app negb];
          match goal with
          | |- context [items_upto ?n ?v] => destruct (items_upto n v) as [? |] eqn:?
          | |- context [match make_temp with _ => _ end] =>
              destruct make_temp as [? |] eqn:?
          | |- context [synthesizes ?t ?p] => destruct (synthesizes t p) eqn:?
          | |- context [file_exists ?p] => destruct (file_exists p) eqn:?
          | |- context [remove_returns ?p] => destruct (remove_returns p) eqn:?
          | |- context [spawn_returns ?a] => destruct (spawn_returns a) eqn:?
          | |- context [if thread_starts then _ else _] => destruct thread_starts eqn:?
          end);
  cbn [fst snd app answer effects negb].

Lemma tts_unfold (data text : value) :
  get_or data "text" (VStr "") = Ok text ->
  tts data
  = if negb (truthy text) then (Ok (TtsError 400 "text required"), [])
    else
      guarded
        (_ <~ of_result (items_upto 50 text) ;;
         tmp_mp3 <~ (make_temp, [MakeTemp]) ;;
         saved <~ synthesize synthesizes file_exists remove_returns text tmp_mp3 ;;
         if negb saved then done TtsSynthesisFailed
         else
           _ <~ start_playback file_exists remove_returns spawn_returns thread_starts
                  plat has_mpg123 tmp_mp3 ;;
           done TtsPlaying)
        (done TtsFailure).
Proof.
  intros E. unfold api_tts. rewrite E. unfold of_result at 1. unfold andthen at 1.
  destruct (negb (truthy text)); [reflexivity |].
  match goal with |- (let (r, t') := ?m in _) = _ => now destruct m end.
Qed.

Lemma tts_not_dict (data : value) :
  (forall d, data <> VDict d) <-> get_or data "text" (VStr "") = Raised.
Proof.
  destruct data; cbn [get_or];
    try (split; [reflexivity | intros _ d; discriminate]).
  split; [intros H; now destruct (H d) | discriminate].
Qed.

(** X27.  The guards of [api_tts].  An exception leaves it exactly when the
    body is not an object; it answers 400 exactly when "text" is missing
    or falsy; a truthy text that cannot be sliced (a number, [true], an
    object) is answered 500; and in all these cases no file has been
    created and nothing has been run. *)
Theorem tts_text_required (data : value) :
  (answer (tts data) = Raised <-> forall d, data <> VDict d)
  /\ (forall status error,
        answer (tts data) = Ok (TtsError status error) <->
        status = 400 /\ error = "text required"
        /\ exists text, get_or data "text" (VStr "") = Ok text /\ truthy text = false)
  /\ (forall text, get_or data "text" (VStr "") = Ok text -> truthy text = true ->
        (items_upto 50 text = Raised -> tts data = (Ok TtsFailure, []))
        /\ exists r, answer (tts data) = Ok r /\ r <> TtsError 400 "text required")
  /\ (forall status error,
        answer (tts data) = Raised \/ answer (tts data) = Ok (TtsError status error) ->
        effects (tts data) = []).
Proof.
  destruct (get_or data "text" (VStr "")) as [text |] eqn:E.
  2:{ assert (R : tts data = (Raised, [])) by (unfold api_tts; now rewrite E).
      rewrite R. pose proof (proj2 (tts_not_dict data) E) as N. cbn [answer effects fst snd].
      repeat split; try tauto; try discriminate.
      intros [_ [_ [text [H _]]]]. discriminate. }
  assert (D : ~ forall d, data <> VDict d).
  { intros H. pose proof (proj1 (tts_not_dict data) H). congruence. }
  rewrite (tts_unfold data text E).
  destruct (truthy text) eqn:T; cbn [negb].
  - assert (A : forall r, answer
        (guarded
          (_ <~ of_result (items_upto 50 text) ;;
           tmp_mp3 <~ (make_temp, [MakeTemp]) ;;
           saved <~ synthesize synthesizes file_exists remove_returns text tmp_mp3 ;;
           if negb saved then done TtsSynthesisFailed
           else
             _ <~ start_playback file_exists remove_returns spawn_returns thread_starts
                    plat has_mpg123 tmp_mp3 ;;
             done TtsPlaying)
          (done TtsFailure)) = r ->
        exists r', r = Ok r' /\ forall s e, r' <> TtsError s e).
    { intros r <-. run_tts; eexists; (split; [reflexivity | discriminate]). }
    split; [| split; [| split]].
    + split; [| tauto]. intros H. apply A in H. destruct H as [r' [H _]]. discriminate.
    + intros status error. split.
      * intros H. apply A in H. destruct H as [r' [H N]]. injection H as <-.
        now destruct (N status error).
      * intros [_ [_ [text' [E' T']]]]. congruence.
    + intros text' E' _. injection E' as <-. split.
      * intros S. unfold of_result, andthen, guarded, done. now rewrite S.
      * destruct (A _ eq_refl) as [r' [H N]]. exists r'. split; [exact H | apply N].
    + intros status error [H | H]; apply A in H; destruct H as [r' [H N]].
      * discriminate.
      * injection H as <-. now destruct (N status error).
  - cbn [answer effects fst snd]. split; [| split; [| split]].
    + split; [discriminate | tauto].
    + intros status error. split.
      * intros H. injection H as <- <-. eauto.
      * intros [-> [-> _]]. reflexivity.
    + intros text' E' T'. congruence.
    + reflexivity.
Qed.

(** X28.  A "playing" answer of [api_tts] means that the speech was saved
    to the temporary file and that the player was asked to start, not
    that it started.  When it started, the deletion of the file is
    scheduled if the deleting thread could be started, and nothing more is
    done otherwise; when it did not start, [os.remove] is called on the
    file if it exists.  The answer is "playing" in all these cases. *)
Theorem tts_playing (data : value) :
  answer (tts data) = Ok TtsPlaying ->
  exists text path tail,
    get_or data "text" (VStr "") = Ok text /\ truthy text = true
    /\ make_temp = Ok path
    /\ synthesizes text path = true
    /\ effects (tts data)
       = ([MakeTemp; Synthesize text path; Popen (player_of path)] ++ tail)%list
    /\ ((spawn_returns (player_of path) = true
         /\ tail = if thread_starts then [DeleteLater path 120] else [])
        \/ (spawn_returns (player_of path) = false
            /\ tail = if file_exists path then [Remove path] else [])).
Proof.
  destruct (get_or data "text" (VStr "")) as [text |] eqn:E;
    [| unfold api_tts; rewrite E; discriminate].
  rewrite (tts_unfold data text E).
  destruct (truthy text) eqn:T; cbn [negb]; [| discriminate].
  run_tts; intros H; try discriminate;
    do 3 eexists;
    (split; [reflexivity |]); (split; [exact T |]); (split; [reflexivity |]);
    (split; [eassumption |]); (split; [reflexivity |]);
    repeat match goal with H : file_exists _ = _ |- _ => rewrite H end;
    tauto.
Qed.

Lemma player_last (path : string) : last (player_of path) "" = path.
Proof.
  unfold tts_play_cmd.
  destruct (String.eqb plat "Darwin"); [reflexivity |].
  destruct (String.eqb plat "Windows"); [reflexivity |].
  now destruct has_mpg123.
Qed.

(** X29.  The temporary file of [api_tts].  Once it is created, gTTS is
    asked to save the speech to it, and then it is scheduled for deletion,
    or [os.remove] is called on it, or it exists no longer, or it is left
    behind: this last happens exactly when the player started and the
    deleting thread could not be started.  It is never both scheduled and
    removed.  A player is started only on a saved file, given as its last
    argument, and the deletion is scheduled exactly when the player and
    the deleting thread both started. *)
Theorem tts_temporary_file (data : value) (path : string) :
  make_temp = Ok path ->
  In MakeTemp (effects (tts data)) ->
  (exists text, get_or data "text" (VStr "") = Ok text
                /\ In (Synthesize text path) (effects (tts data)))
  /\ (In (DeleteLater path 120) (effects (tts data))
      \/ In (Remove path) (effects (tts data))
      \/ file_exists path = false
      \/ (In (Popen (player_of path)) (effects (tts data))
          /\ spawn_returns (player_of path) = true /\ thread_starts = false))
  /\ (In (DeleteLater path 120) (effects (tts data)) ->
      ~ In (Remove path) (effects (tts data)))
  /\ (forall argv, In (Popen argv) (effects (tts data)) ->
      last argv "" = path
      /\ (exists text, synthesizes text path = true
                       /\ get_or data "text" (VStr "") = Ok text)
      /\ (In (DeleteLater path 120) (effects (tts data))
          <-> spawn_returns argv = true /\ thread_starts = true)).
Proof.
  intros M.
  destruct (get_or data "text" (VStr "")) as [text |] eqn:E;
    [| unfold api_tts; rewrite E; intros []].
  rewrite (tts_unfold data text E).
  destruct (truthy text) eqn:T; cbn [negb]; [| intros []].
  rewrite M.
  unfold synthesize, start_playback, discard, guarded, andthen, act, done, of_result.
  destruct (items_upto 50 text) as [? |]; [| intros []].
  cbn [fst snd app].
  pose proof (player_last path) as L.
  destruct (synthesizes text path) eqn:S; cbn [fst snd app negb].
  - destruct (spawn_returns (player_of path)) eqn:P; cbn [fst snd app].
    + destruct thread_starts eqn:TS; cbn [fst snd app negb answer effects In]; intros _.
      * split; [exists text; split; [reflexivity | auto 10] |].
        split; [auto 10 |].
        split; [intros H1 H2; intuition discriminate |].
        intros argv H.
        repeat (destruct H as [H | H]; try discriminate H); try contradiction.
        injection H as <-.
        split; [exact L |]. split; [eauto |].
        rewrite P. split; [auto | auto 10].
      * split; [exists text; split; [reflexivity | auto 10] |].
        split; [auto 10 |].
        split; [intros H1 H2; intuition discriminate |].
        intros argv H.
        repeat (destruct H as [H | H]; try discriminate H); try contradiction.
        injection H as <-.
        split; [exact L |]. split; [eauto |].
        rewrite P. split; [intros H; intuition discriminate | intros [_ H]; discriminate H].
    + destruct (file_exists path) eqn:X; cbn [fst snd app].
      * destruct (remove_returns path); cbn [fst snd app negb answer effects In]; intros _;
          (split; [exists text; split; [reflexivity | auto 10] |]);
          (split; [auto 10 |]);
          (split; [intros H1 H2; intuition discriminate |]);
          intros argv H;
          repeat (destruct H as [H | H]; try discriminate H); try contradiction;
          injection H as <-;
          (split; [exact L |]); (split; [eauto |]);
          rewrite P;
          (split; [intros H; intuition discriminate | intros [H _]; discriminate H]).
      * cbn [fst snd app negb answer effects In]; intros _.
        split; [exists text; split; [reflexivity | auto 10] |].
        split; [auto 10 |].
        split; [intros H1 H2; intuition discriminate |].
        intros argv H.
        repeat (destruct H as [H | H]; try discriminate H); try contradiction.
        injection H as <-.
        split; [exact L |]. split; [eauto |].
        rewrite P.
        split; [intros H; intuition discriminate | intros [H _]; discriminate H].
  - destruct (file_exists path) eqn:X; cbn [fst snd app negb].
    + destruct (remove_returns path); cbn [fst snd app negb answer effects In]; intros _;
        (split; [exists text; split; [reflexivity | auto 10] |]);
        (split; [auto 10 |]);
        (split; [intros H1 H2; intuition discriminate |]);
        intros argv H;
        repeat (destruct H as [H | H]; try discriminate H); contradiction.
    + cbn [fst snd app negb answer effects In]; intros _.
      split; [exists text; split; [reflexivity | auto 10] |].
      split; [auto 10 |].
      split; [intros H1 H2; intuition discriminate |].
      intros argv H.
      repeat (destruct H as [H | H]; try discriminate H); contradiction.
Qed.

End Speech.

Lemma tts_text_required_witness :
  example_tts true true (VDict [("text", VInt 7)]) = (Ok TtsFailure, [])
  /\ effects (example_tts true true (VDict [])) = [].
Proof.
  unfold example_tts. split.
  - apply (proj1 (proj1 (proj2 (proj2
             (tts_text_required (Ok "tmpab12.mp3") (fun _ _ => true) (fun _ => true)
                (fun _ => true) (fun _ => true) true "Linux" false
                (VDict [("text", VInt 7)]))))
             (VInt 7) eq_refl eq_refl)).
    reflexivity.
  - apply (proj2 (proj2 (proj2
             (tts_text_required (Ok "tmpab12.mp3") (fun _ _ => true) (fun _ => true)
                (fun _ => true) (fun _ => true) true "Linux" false (VDict []))))
             400 "text required").
    right. reflexivity.
Defined.

Lemma tts_playing_witness :
  exists text path tail,
    get_or (VDict [("text", VStr "hello")]) "text" (VStr "") = Ok text
    /\ truthy text = true
    /\ Ok "tmpab12.mp3" = Ok path
    /\ true = true
    /\ effects (example_tts true false (VDict [("text", VStr "hello")]))
       = ([MakeTemp; Synthesize text path; Popen (tts_play_cmd "Linux" false path)]
            ++ tail)%list
    /\ ((true = true /\ tail = if false then [DeleteLater path 120] else [])
        \/ (true = false /\ tail = if true then [Remove path] else [])).
Proof.
  exact (tts_playing (Ok "tmpab12.mp3") (fun _ _ => true) (fun _ => true)
           (fun _ => true) (fun _ => true) false "Linux" false
           (VDict [("text", VStr "hello")]) eq_refl).
Defined.

Lemma tts_temporary_file_witness :
  In (DeleteLater "tmpab12.mp3" 120)
     (effects (example_tts true false (VDict [("text", VStr "hello")])))
  \/ In (Remove "tmpab12.mp3")
        (effects (example_tts true false (VDict [("text", VStr "hello")])))
  \/ true = false
  \/ (In (Popen (tts_play_cmd "Linux" false "tmpab12.mp3"))
         (effects (example_tts true false (VDict [("text", VStr "hello")])))
      /\ true = true /\ false = false).
Proof.
  unfold example_tts.
  apply (proj1 (proj2
           (tts_temporary_file (Ok "tmpab12.mp3") (fun _ _ => true) (fun _ => true)
              (fun _ => true) (fun _ => true) false "Linux" false
              (VDict [("text", VStr "hello")]) "tmpab12.mp3"
              eq_refl (or_introl eq_refl)))).
Defined.

End SpeechFacts.
